(* ===== verification/_CoqProject ===== *)
-Q . S2P
Prelude.v
Js.v
Float.v
Models.v
Async.v
Provider.v
Ethers.v
State.v
Gateway.v
Observer.v
Invariant.v
VaultSvc.v
Dialogs.v
Session.v
App.v
