(* ===== verification/Prelude.v ===== *)
(** * Tims front-end: a verification development

    The repository ([src/src/app]) is an Angular client that connects a
    browser wallet (an EIP-1193 provider, [window.ethereum]) and calls
    vault contracts through ethers.  Its logic is in two services and the
    components that call them:
    - [services/web3.service.ts] ([Web3Service]): the wallet session
      (provider, signer, account, network, contract bindings, the two
      localStorage keys, the provider's event handlers) and the
      [isConnected$] subject the vault service subscribes to;
    - [services/vault.service.ts] ([VaultService]): vault creation,
      listing, detail loading, deposits, withdrawals and the
      configuration calls, each an Observable pipeline (submit, wait,
      refresh), with [loading$] and [error$];
    - [dialogs/deposit-dialog] and [dialogs/withdraw-dialog]: Angular
      forms whose validators guard the calls of deposits and
      withdrawals; [app.component.ts]: the connect and disconnect
      buttons; [models/]: the data types.

    ** Files (in dependency order)
    - [Prelude] (this file): the notation scope, the rewrite database of
      the run lemmas, generic tactics and string lemmas.
    - [Js]: JS numbers, [Number.prototype.toString(radix)], [parseInt],
      [===]; round trip [parseInt_toString].
    - [Float]: binary64 doubles, [parseFloat] with rounding to nearest
      even, [<] and [>]; monotonicity of rounding [round_rat_mono].
    - [Models]: the enums and interfaces of [models/], [getCategoryLabel].
    - [Async]: the program monad [prog] (state, throw, provider request,
      spawn of an unawaited task in a cancellable slot), [advance] (one
      synchronous segment) and [exec] (a run against a list of answers).
      Promises, [await], RxJS [from]/[switchMap]/[catchError]/[tap] map
      to its operations.
    - [Provider]: the requests to the wallet and the chain, and their
      answers; the provider is the environment, so theorems quantify over
      every answer sequence.
    - [Ethers]: [parseEther] and [formatEther] as an interface
      ([EtherUnits]) with an implementation after ethers v6.
    - [State]: the fields of both services ([W3], [VS]) and of the page
      ([Sys]: localStorage, [window.ethereum], the listeners, the clock).
    - [Gateway]: the network configuration ([NetworkConfig], the
      repository's [tims_config]), [initContracts],
      [switchToTargetNetwork], [getVaultContract].
    - [Observer]: the [isConnected$] subscribers as an interface
      ([Observer]) and simulation up to the session's fields ([psim]),
      so session theorems hold for any subscriber.
    - [Invariant]: [ok I p], an invariant kept at every suspension point
      of a program, closed under bind, catch and [mapM].
    - [VaultSvc]: every operation of [VaultService]; [vault_op] lists
      the calls components make.
    - [Dialogs]: Angular's validators (library, after its source), the
      amount and recipient patterns, the two forms and handlers.
    - [Session]: every operation of [Web3Service]'s session, the event
      handlers, [connectWallet], [initWeb3], [silentlyReconnect].
    - [App]: the page as a world (state and pending tasks) stepped by
      user actions, provider events and answers in any interleaving.

    ** Theorems
    - Session (C1-C6, C18-C23): disconnection clears the session and
      storage; silent reconnection never throws and restores an
      authorised session; [initWeb3] connects on the target network,
      and binds the factory of the network it has just left when it
      switched; chain-change handling; [connectWallet]'s errors.
      A field [this.provider] read after an [await] may have been reset
      to [null] by a concurrent [resetState]: the call then throws a
      [TypeError] ([State.on_provider]), which the handlers' [catch]
      blocks see like any other error.
    - Gateway (C9-C11): contract resolution refines the configuration;
      an unsupported network is an error; the 4902 fallback.
    - Page (C7, C8, C12-C14): invariants of every reachable world
      ([isCorrectNetwork$] sound, bindings configured) by induction on
      the steps; interleavings: a disconnection during a pending connect
      makes it fail on the null provider but [walletAddress] is written
      again, one during a load leaves [loading$] stuck, an account
      switch keeps the previous signer.  The page's components are those
      of the explore route; [VaultListComponent.ngOnInit] also starts an
      uncancelled [loadUserVaults] on every [isConnected$] true, which is
      not modelled.
    - Dialogs (C15-C17): the amount pattern refines ethers' parser;
      the deposit minimum holds exactly in wei; no withdrawal within the
      balance is refused.  The form inputs are taken as strings (the
      templates are not under src/).
    - Vault service (C24-C35): [loading$] settles on every operation and
      path except an unparsable creation target; listing, creation,
      deposit and detail loading on their success and error paths.
      [forkJoin] is modelled as awaiting the calls in order: the code
      issues them all before any answer, in the same request order.

    ** Bounds and fuel
    No model uses fuel: programs are finite trees, [advance] and [exec]
    recurse on them and on the answer list.  [radix_digits] computes
    [log2 n + 1] digits, enough for any radix at least 2
    ([digits_le_spec]); [toString] is positional (JS turns to
    exponential form from 1e21, far above any chain id), and [Number()]
    of a bigint is exact (JS rounds beyond 2^53).  Integers are unbounded [Z]: chain ids and wei
    amounts are exact, as bigints are; ethers' signed 512-bit wrap is
    written out ([checkValue512]); doubles are rounded explicitly in
    [Float].

    ** Not modelled
    Presentation (templates, snack bars, router navigation, the
    components' copies of subjects into fields, [getProgressPercentage]
    and the other display helpers of the explore and list components),
    the dialogs' [onCancel] and the [setTimeout] navigation after a
    creation; [getAddressBalance], [hasEnoughBalance] and [getSepETH]
    (reads and [window.open] without state change); the routes; the
    commented-out filters of [vault-explore]; ethers, Angular and the
    wallet themselves beyond the interfaces above. *)

From Stdlib Require Import ZArith Lia.
From stdpp Require Export base list option gmap strings.

Declare Scope tims_scope.
Delimit Scope tims_scope with tims.

Create HintDb tims.
Create Rewrite HintDb tims_rw.

(** ** Tactics *)

(** Case on every boolean comparison of integers in the goal. *)
Ltac z_cases :=
  repeat match goal with
  | |- context [Z.leb ?a ?b] => destruct (Z.leb_spec a b)
  | |- context [Z.ltb ?a ?b] => destruct (Z.ltb_spec a b)
  | |- context [Z.eqb ?a ?b] => destruct (Z.eqb_spec a b)
  end.

(** ** Generic lemmas on lists and options *)

Lemma string_app_nil_r (s : string) : (s ++ "")%string = s.
Proof. induction s as [|c s IH]; [done | exact (f_equal (String c) IH)]. Qed.
