(* ===== verification/Js.v ===== *)
(** * JavaScript values the services compute with

    The services compare chain ids with [===], print them with
    [Number.prototype.toString] (radix 10 for the [contractConfig] key,
    the [networkNames] fallback and the localStorage value, radix 16 for
    [wallet_switchEthereumChain]) and read the [chainChanged] payload with
    [parseInt(chainIdHex, 16)].  This file gives these builtins the
    semantics ECMAScript gives them on integral numbers:
    - [jsnum]: a JS number that is an integer or NaN (every number the
      services handle is one of these; values beyond 2^53 are kept exact,
      the rounding of doubles is not modelled, so [Number(x)] of a bigint
      is exact here where JS rounds; chain ids are far below 2^53);
    - [num_to_string_radix]: [Number.prototype.toString(radix)], in its
      positional form only: JS prints |n| >= 1e21 in radix 10 in
      exponential form, which is not modelled (the services print chain
      ids only);
    - [parseInt]: ECMAScript [parseInt(string, radix)] on ASCII strings
      (leading white space, sign, the [0x] prefix for radix 16 or 0,
      longest prefix of radix digits, NaN when there is none);
    - [strict_eq]: [===] on numbers and bigints (a bigint is never
      strictly equal to a number);
    - [str_truthy]: truthiness of a string (the empty string is falsy).
    The lemmas show that [parseInt] reads back what this model of
    [toString] prints, which [Session] uses for [chainChanged]. *)

From S2P Require Import Prelude.
From Stdlib Require Import ZArith Lia Ascii String.
Local Open Scope Z_scope.

(** ** Numbers *)

Inductive jsnum : Type :=
  | JInt (z : Z)
  | JNaN.

#[export] Instance jsnum_eq_dec : EqDecision jsnum.
Proof. solve_decision. Defined.

(** A numeric JS value that may be a [number] or a [bigint] (what ethers
    v6 returns for every [uint] of a contract result). *)
Inductive numeric : Type :=
  | NNumber (n : jsnum)
  | NBigInt (z : Z).

(** [a === b] on numbers: NaN is equal to nothing. *)
Definition num_eqb (a b : jsnum) : bool :=
  match a, b with
  | JInt x, JInt y => Z.eqb x y
  | _, _ => false
  end.

(** [a === b] on numeric values: a bigint and a number are never
    strictly equal, whatever their mathematical values. *)
Definition strict_eq (a b : numeric) : bool :=
  match a, b with
  | NNumber x, NNumber y => num_eqb x y
  | NBigInt x, NBigInt y => Z.eqb x y
  | _, _ => false
  end.

(** [Number(b)] for a bigint [b] (exact: the chain ids are small). *)
Definition Number_of_bigint (z : Z) : jsnum := JInt z.

(** Truthiness of a string: [''] is falsy, every other string truthy. *)
Definition str_truthy (s : string) : bool :=
  match s with EmptyString => false | String _ _ => true end.

(** [s || fallback] on strings. *)
Definition str_or (s fallback : string) : string :=
  if str_truthy s then s else fallback.

(** ** Digits *)

(** The character of a digit value 0..35 ([toString] uses lower case). *)
Definition digit_char (d : Z) : ascii :=
  if d <? 10 then ascii_of_nat (48 + Z.to_nat d)
  else ascii_of_nat (87 + Z.to_nat d).

(** The value of a digit character in any radix ([parseInt] accepts
    both cases). *)
Definition digit_val (c : ascii) : option Z :=
  let n := Z.of_nat (nat_of_ascii c) in
  if (48 <=? n) && (n <=? 57) then Some (n - 48)
  else if (97 <=? n) && (n <=? 122) then Some (n - 87)
  else if (65 <=? n) && (n <=? 90) then Some (n - 55)
  else None.

(** A radix-[r] digit. *)
Definition digit_in (r : Z) (c : ascii) : option Z :=
  match digit_val c with
  | Some d => if d <? r then Some d else None
  | None => None
  end.

(** ** [Number.prototype.toString(radix)] on integers *)

(** Little-endian digits of [n >= 0]; [fuel] bounds the number of digits. *)
Fixpoint digits_le (fuel : nat) (r n : Z) : list Z :=
  match fuel with
  | O => []
  | S f => (n mod r) :: (if n <? r then [] else digits_le f r (n / r))
  end.

(** Big-endian digits; [log2 n + 1] digits suffice for any radix >= 2. *)
Definition radix_digits (r n : Z) : list Z :=
  rev (digits_le (S (Z.to_nat (Z.log2 n))) r n).

Fixpoint string_of_digits (ds : list Z) : string :=
  match ds with
  | [] => EmptyString
  | d :: ds' => String (digit_char d) (string_of_digits ds')
  end.

Definition radix_string (r n : Z) : string := string_of_digits (radix_digits r n).

Definition num_to_string_radix (r : Z) (x : jsnum) : string :=
  match x with
  | JNaN => "NaN"
  | JInt z => if z <? 0 then ("-" ++ radix_string r (- z))%string else radix_string r z
  end.

(** [n.toString()]: radix 10. *)
Definition num_to_string (x : jsnum) : string := num_to_string_radix 10 x.

Arguments num_to_string_radix : simpl never.
Arguments num_to_string : simpl never.

(** ** [parseInt(string, radix)] *)

(** StrWhiteSpaceChar, restricted to ASCII: tab, LF, VT, FF, CR, space. *)
Definition is_ws (c : ascii) : bool :=
  let n := nat_of_ascii c in
  ((9 <=? n) && (n <=? 13))%nat || (n =? 32)%nat.

Fixpoint skip_ws (s : string) : string :=
  match s with
  | String c s' => if is_ws c then skip_ws s' else s
  | EmptyString => s
  end.

(** The longest prefix of radix-[r] digits, as digit values. *)
Fixpoint digits_prefix (r : Z) (s : string) : list Z :=
  match s with
  | String c s' =>
      match digit_in r c with
      | Some d => d :: digits_prefix r s'
      | None => []
      end
  | EmptyString => []
  end.

(** Big-endian value of a digit list. *)
Definition digits_value (r : Z) (ds : list Z) : Z :=
  fold_left (fun acc d => acc * r + d) ds 0.

Definition split_sign (s : string) : Z * string :=
  match s with
  | String c t =>
      if Ascii.eqb c "-" then (-1, t)
      else if Ascii.eqb c "+" then (1, t)
      else (1, s)
  | EmptyString => (1, s)
  end.

(** Strip a leading [0x] or [0X]. *)
Definition strip_hex_prefix (s : string) : option string :=
  match s with
  | String c0 (String c1 t) =>
      if Ascii.eqb c0 "0" && (Ascii.eqb c1 "x" || Ascii.eqb c1 "X") then Some t else None
  | _ => None
  end.

(** Steps 6 to 16 of ECMAScript [parseInt]: the radix, the prefix, the
    digits, the sign. *)
Definition parse_digits (sign : Z) (s2 : string) (radix : Z) : jsnum :=
  if (radix =? 0) || ((2 <=? radix) && (radix <=? 36)) then
    let r1 := if radix =? 0 then 10 else radix in
    let '(r, s3) :=
      if (radix =? 0) || (radix =? 16) then
        match strip_hex_prefix s2 with
        | Some t => (16, t)
        | None => (r1, s2)
        end
      else (r1, s2) in
    match digits_prefix r s3 with
    | [] => JNaN
    | ds => JInt (sign * digits_value r ds)
    end
  else JNaN.

(** [parseInt(s, radix)]: leading white space and sign, then the digits. *)
Definition parseInt (s : string) (radix : Z) : jsnum :=
  let '(sign, s2) := split_sign (skip_ws s) in
  parse_digits sign s2 radix.

Arguments parseInt : simpl never.

(** ** Lemmas *)

Lemma digit_in_char r d : 0 <= d < r -> r <= 36 -> digit_in r (digit_char d) = Some d.
Proof.
  intros Hd Hr. unfold digit_in, digit_val, digit_char.
  destruct (Z.ltb_spec d 10).
  - rewrite nat_ascii_embedding by lia.
    replace (Z.of_nat (48 + Z.to_nat d)) with (48 + d) by lia.
    destruct (Z.leb_spec 48 (48 + d)), (Z.leb_spec (48 + d) 57); try lia. simpl.
    replace (48 + d - 48) with d by lia. destruct (Z.ltb_spec d r); [done | lia].
  - rewrite nat_ascii_embedding by lia.
    replace (Z.of_nat (87 + Z.to_nat d)) with (87 + d) by lia.
    destruct (Z.leb_spec 48 (87 + d)), (Z.leb_spec (87 + d) 57); try lia; simpl;
    destruct (Z.leb_spec 97 (87 + d)), (Z.leb_spec (87 + d) 122); try lia; simpl.
    replace (87 + d - 87) with d by lia. destruct (Z.ltb_spec d r); [done | lia].
Qed.

Definition le_value (r : Z) (ds : list Z) : Z :=
  fold_right (fun d acc => d + r * acc) 0 ds.

Lemma digits_value_rev r ds : digits_value r (rev ds) = le_value r ds.
Proof.
  unfold digits_value. induction ds as [|d ds IH]; simpl; [done|].
  rewrite fold_left_app. simpl. rewrite IH. lia.
Qed.

Lemma digits_le_S f r n :
  digits_le (S f) r n = (n mod r) :: (if n <? r then [] else digits_le f r (n / r)).
Proof. reflexivity. Qed.

Lemma digits_le_spec f r n :
  2 <= r -> 0 <= n < 2 ^ Z.of_nat (S f) ->
  le_value r (digits_le (S f) r n) = n /\
  Forall (fun d => 0 <= d < r) (digits_le (S f) r n) /\ digits_le (S f) r n <> [].
Proof.
  revert n. induction f as [|f IH]; intros n Hr Hn.
  - simpl in Hn. simpl. destruct (Z.ltb_spec n r); [|lia].
    rewrite Z.mod_small by lia. simpl. split; [lia|]. split; [|done].
    constructor; [lia | constructor].
  - rewrite digits_le_S. destruct (Z.ltb_spec n r).
    + rewrite Z.mod_small by lia. simpl. split; [lia|]. split; [|done].
      constructor; [lia | constructor].
    + assert (Hq : 0 <= n / r < 2 ^ Z.of_nat (S f)).
      { split; [apply Z.div_pos; lia|].
        rewrite (Nat2Z.inj_succ (S f)), Z.pow_succ_r in Hn by lia.
        apply Z.div_lt_upper_bound; nia. }
      destruct (IH (n / r) Hr Hq) as (Hv & Hf & _).
      change (le_value r ((n mod r) :: digits_le (S f) r (n / r)))
        with ((n mod r) + r * le_value r (digits_le (S f) r (n / r))).
      rewrite Hv. split; [|split; [|done]].
      * rewrite (Z.div_mod n r) at 3 by lia. lia.
      * constructor; [|done]. apply Z.mod_pos_bound. lia.
Qed.

Lemma radix_digits_spec r n :
  2 <= r -> 0 <= n ->
  digits_value r (radix_digits r n) = n /\
  Forall (fun d => 0 <= d < r) (radix_digits r n) /\ radix_digits r n <> [].
Proof.
  intros Hr Hn. unfold radix_digits.
  assert (Hb : 0 <= n < 2 ^ Z.of_nat (S (Z.to_nat (Z.log2 n)))).
  { split; [lia|]. rewrite Nat2Z.inj_succ, Z2Nat.id by apply Z.log2_nonneg.
    destruct (Z.eq_dec n 0) as [->|]; [simpl; lia|]. apply Z.log2_spec; lia. }
  destruct (digits_le_spec (Z.to_nat (Z.log2 n)) r n Hr Hb) as (Hv & Hf & Hne).
  rewrite digits_value_rev, Hv. split; [done|]. split.
  - by apply Forall_rev.
  - intros E. apply Hne. by apply (f_equal (@rev Z)) in E; rewrite rev_involutive in E.
Qed.

Lemma digits_prefix_of_digits r ds rest :
  r <= 36 -> Forall (fun d => 0 <= d < r) ds ->
  digits_prefix r (string_of_digits ds ++ rest) = ds ++ digits_prefix r rest.
Proof.
  intros Hr. induction 1 as [|d ds Hd _ IH]; [done|].
  simpl. rewrite digit_in_char by lia. by rewrite IH.
Qed.

Lemma radix_string_head r n :
  2 <= r <= 36 -> 0 <= n ->
  exists c t, radix_string r n = String c t /\ is_Some (digit_in r c).
Proof.
  intros Hr Hn. destruct (radix_digits_spec r n) as (_ & Hf & Hne); [lia|lia|].
  unfold radix_string. destruct (radix_digits r n) as [|d ds]; [done|].
  inversion Hf; subst. simpl. eexists _, _. split; [done|].
  rewrite digit_in_char by lia. eauto.
Qed.

Lemma digit_not_ws c : is_Some (digit_val c) -> is_ws c = false.
Proof.
  unfold is_ws, digit_val. intros Hd.
  destruct (Nat.leb_spec 9 (nat_of_ascii c)), (Nat.leb_spec (nat_of_ascii c) 13),
    (Nat.eqb_spec (nat_of_ascii c) 32); simpl; try done;
  revert Hd; z_cases; intros [? ?]; try discriminate; lia.
Qed.

Lemma digit_not_sign c : is_Some (digit_val c) -> Ascii.eqb c "-" = false /\ Ascii.eqb c "+" = false.
Proof.
  intros [d Hd]. split.
  - destruct (Ascii.eqb c "-") eqn:E; [|done]. apply Ascii.eqb_eq in E. by subst.
  - destruct (Ascii.eqb c "+") eqn:E; [|done]. apply Ascii.eqb_eq in E. by subst.
Qed.

Lemma digit_in_val r c d : digit_in r c = Some d -> digit_val c = Some d /\ d < r.
Proof. unfold digit_in. destruct (digit_val c); [z_cases|]; intros; simplify_eq; done. Qed.

(** The digits printed by [toString] are read back by [digits_prefix]. *)
Lemma digits_prefix_radix_string r n :
  2 <= r <= 36 -> 0 <= n ->
  digits_prefix r (radix_string r n) = radix_digits r n.
Proof.
  intros Hr Hn. destruct (radix_digits_spec r n) as (_ & Hf & _); [lia|lia|].
  pose proof (digits_prefix_of_digits r _ "" ltac:(lia) Hf) as E.
  rewrite string_app_nil_r in E. unfold radix_string. rewrite E. apply app_nil_r.
Qed.

Lemma radix_string_shape r n :
  2 <= r -> 0 <= n ->
  exists ds, radix_string r n = string_of_digits ds /\ radix_digits r n = ds /\
    Forall (fun d => 0 <= d < r) ds /\ ds <> [] /\ digits_value r ds = n.
Proof.
  intros Hr Hn. destruct (radix_digits_spec r n Hr Hn) as (Hv & Hf & Hne).
  by exists (radix_digits r n).
Qed.

(** The digits printed in radix 16 never start with [0x]: the second
    character is a hexadecimal digit, and [x] is not one. *)
Lemma strip_radix_string16 n : 0 <= n -> strip_hex_prefix (radix_string 16 n) = None.
Proof.
  intros Hn. destruct (radix_string_shape 16 n) as (ds & -> & _ & Hf & _); [lia|done|].
  destruct ds as [|d0 [|d1 ds]]; [done|done|].
  inversion Hf as [|? ? _ Hf']; subst. inversion Hf' as [|? ? Hd1 _]; subst.
  pose proof (digit_in_char 16 d1 Hd1 ltac:(lia)) as Hc. simpl.
  destruct (Ascii.eqb (digit_char d1) "x") eqn:Ex.
  { apply Ascii.eqb_eq in Ex. rewrite Ex in Hc. discriminate. }
  destruct (Ascii.eqb (digit_char d1) "X") eqn:EX.
  { apply Ascii.eqb_eq in EX. rewrite EX in Hc. discriminate. }
  by rewrite andb_false_r.
Qed.

Lemma parse_digits_radix_string sign r n :
  2 <= r <= 36 -> 0 <= n ->
  parse_digits sign (radix_string r n) r = JInt (sign * n).
Proof.
  intros Hr Hn. unfold parse_digits.
  assert (Hp : digits_prefix r (radix_string r n) = radix_digits r n)
    by (apply digits_prefix_radix_string; lia).
  destruct (radix_digits_spec r n) as (Hv & _ & Hne); [lia|lia|].
  destruct (Z.eqb_spec r 16) as [->|Hr16].
  - rewrite strip_radix_string16 by done. simpl. rewrite Hp.
    destruct (radix_digits 16 n); [done|]. by rewrite Hv.
  - z_cases; try lia. simpl. rewrite Hp.
    destruct (radix_digits r n); [done|]. by rewrite Hv.
Qed.

Lemma parseInt_radix_string r n :
  2 <= r <= 36 -> 0 <= n -> parseInt (radix_string r n) r = JInt n.
Proof.
  intros Hr Hn.
  destruct (radix_string_head r n) as (c & t & E & [d Hd]); [lia|lia|].
  apply digit_in_val in Hd as [Hv _].
  destruct (digit_not_sign c) as [Hm Hp]; [by eexists|].
  unfold parseInt. rewrite E. cbn [skip_ws]. rewrite digit_not_ws by (by eexists).
  unfold split_sign. rewrite Hm, Hp, <- E.
  rewrite parse_digits_radix_string by lia. f_equal. lia.
Qed.

(** In the model, [parseInt] reads back the positional [toString] of
    every integer in every radix from 2 to 36. *)
Theorem parseInt_toString r z :
  2 <= r <= 36 -> parseInt (num_to_string_radix r (JInt z)) r = JInt z.
Proof.
  intros Hr. unfold num_to_string_radix. destruct (Z.ltb_spec z 0).
  - change (parseInt (String "-" (radix_string r (- z))) r = JInt z).
    unfold parseInt. cbn [skip_ws]. assert (is_ws "-"%char = false) as -> by reflexivity.
    cbn -[parse_digits radix_string].
    rewrite parse_digits_radix_string by lia. f_equal. lia.
  - by apply parseInt_radix_string.
Qed.

(** The chain id form [`0x${n.toString(16)}`] reads back as [n]. *)
Lemma parseInt_hex_chainId n :
  0 <= n -> parseInt ("0x" ++ num_to_string_radix 16 (JInt n)) 16 = JInt n.
Proof.
  intros Hn. unfold num_to_string_radix. destruct (Z.ltb_spec n 0); [lia|].
  change ("0x" ++ radix_string 16 n)%string with (String "0" (String "x" (radix_string 16 n))).
  unfold parseInt. cbn [skip_ws].
  assert (is_ws "0"%char = false) as -> by reflexivity. cbn -[radix_string digits_value].
  destruct (radix_string_shape 16 n) as (ds & Hs & Hd & Hf & Hne & Hv); [lia|done|].
  rewrite (digits_prefix_radix_string 16 n), Hd by lia.
  destruct ds; [done|]. rewrite Hv. f_equal. lia.
Qed.

#[export] Hint Resolve digit_in_char : tims.

(** [===] on numbers holds of equal numbers only ([NaN] is equal to
    nothing). *)
Lemma num_eqb_true a b : num_eqb a b = true -> a = b.
Proof. destruct a, b; simpl; try done. by intros ->%Z.eqb_eq. Qed.
