(* ===== verification/Float.v ===== *)
(** * [parseFloat] and the comparison of doubles

    The dialogs check amounts with Angular's [Validators.min] and
    [Validators.max] and with an explicit [parseFloat(a) > parseFloat(b)]:
    each reads a decimal string into an IEEE 754 binary64 double and
    compares doubles.  This file gives these the ECMAScript semantics:
    - [double]: NaN, an infinity, or a finite value [m * 2 ^ e] with
      [|m| < 2 ^ 53] and [-1074 <= e] (the sign of zero is not kept: no
      code here can observe it);
    - [round_rat]: the double nearest to a non-negative rational [n / d],
      ties to even, with the binary64 exponent range (subnormals down to
      [2 ^ -1074], overflow to infinity from [2 ^ 1024] on);
    - [parseFloat]: leading white space, then the longest prefix that is
      a StrDecimalLiteral (sign, [Infinity], digits, point, digits,
      exponent), its exact value rounded once (as V8 does);
    - [dlt], [dgt]: [<] and [>] on numbers (false when NaN is involved).

    The main lemma is monotonicity ([round_rat_mono]): a larger rational
    never rounds to a smaller double. *)

From S2P Require Import Prelude Js.
From Stdlib Require Import ZArith Lia Ascii String.
Local Open Scope Z_scope.

Inductive double : Type :=
  | DNaN
  | DInf (neg : bool)
  | DFin (m e : Z).

(** ** Rounding *)

(** [n / d] rounded to the nearest integer, ties to even ([0 < d]). *)
Definition rne (n d : Z) : Z :=
  let q := n / d in
  match Z.compare (2 * (n mod d)) d with
  | Lt => q
  | Gt => q + 1
  | Eq => if Z.even q then q else q + 1
  end.

(** The exponent is kept as [f = e + 1074 >= 0]: [n / d] is read in
    units of [2 ^ -1074], [N = n * 2 ^ 1074] over [d].  [fexp n d] is [0]
    when [N / d < 2 ^ 53] (subnormal values and the lowest binade), and
    otherwise the [f] with [2 ^ 52 <= N / d / 2 ^ f < 2 ^ 53], found from
    the binary logarithms of [N] and [d]. *)
Definition fexp (n d : Z) : Z :=
  let N := n * 2 ^ 1074 in
  if N <? 2 ^ 53 * d then 0 else
  let g := Z.log2 N - Z.log2 d - 52 in
  if N <? 2 ^ 52 * (d * 2 ^ g) then g - 1 else g.

(** The significand before normalisation: [N / (d * 2 ^ f)] rounded. *)
Definition significand (n d : Z) : Z := rne (n * 2 ^ 1074) (d * 2 ^ fexp n d).

(** Rounding up to [2 ^ 53] moves to the next binade. *)
Definition normalize (m f : Z) : Z * Z :=
  if m =? 2 ^ 53 then (2 ^ 52, f + 1) else (m, f).

(** The double nearest to [n / d] ([0 <= n], [0 < d]), negated when
    [neg]; infinity from [2 ^ 1024] on ([f > 2045]). *)
Definition round_rat (neg : bool) (n d : Z) : double :=
  let '(m, f) := normalize (significand n d) (fexp n d) in
  if 2045 <? f then DInf neg else DFin (if neg then - m else m) (f - 1074).

(** ** [parseFloat] *)

(** The longest prefix of decimal digits, and the rest. *)
Fixpoint take_digits (s : string) : list Z * string :=
  match s with
  | String c t =>
      match digit_in 10 c with
      | Some d => let '(ds, r) := take_digits t in (d :: ds, r)
      | None => ([], s)
      end
  | EmptyString => ([], s)
  end.

(** The value of an ExponentPart at the head of [s], 0 when there is
    none. *)
Definition exponent_part (s : string) : Z :=
  match s with
  | String c t =>
      if Ascii.eqb c "e" || Ascii.eqb c "E" then
        let '(sg, u) := split_sign t in
        match take_digits u with
        | ([], _) => 0
        | (ds, _) => sg * digits_value 10 ds
        end
      else 0
  | EmptyString => 0
  end.

(** An unsigned decimal literal: [Infinity], or [n * 10 ^ x]. *)
Inductive decimal : Type :=
  | DecInf
  | DecVal (n x : Z).

Definition unsigned_literal (s : string) : option decimal :=
  if String.prefix "Infinity" s then Some DecInf else
  let '(ip, r1) := take_digits s in
  let '(fp, r2) :=
    match r1 with
    | String "."%char t => take_digits t
    | _ => ([], r1)
    end in
  match ip, fp with
  | [], [] => None
  | _, _ => Some (DecVal (digits_value 10 (ip ++ fp)) (exponent_part r2 - Z.of_nat (List.length fp)))
  end.

Definition round_decimal (neg : bool) (n x : Z) : double :=
  if 0 <=? x then round_rat neg (n * 10 ^ x) 1 else round_rat neg n (10 ^ (- x)).

(** The sign of a StrDecimalLiteral: whether it is negative, and the rest. *)
Definition float_sign (s : string) : bool * string :=
  match s with
  | String "-"%char u => (true, u)
  | String "+"%char u => (false, u)
  | u => (false, u)
  end.

(** [parseFloat(string)] on ASCII strings. *)
Definition parseFloat (s : string) : double :=
  let '(sg, t) := float_sign (skip_ws s) in
  match unsigned_literal t with
  | None => DNaN
  | Some DecInf => DInf sg
  | Some (DecVal n x) => round_decimal sg n x
  end.

(** ** Comparison *)

(** [m1 * 2 ^ e1 <= m2 * 2 ^ e2], shifted to the smaller exponent. *)
Definition fin_cmp (m1 e1 m2 e2 : Z) : comparison :=
  let e := Z.min e1 e2 in
  Z.compare (m1 * 2 ^ (e1 - e)) (m2 * 2 ^ (e2 - e)).

(** [a < b] on numbers. *)
Definition dlt (a b : double) : bool :=
  match a, b with
  | DNaN, _ | _, DNaN => false
  | DInf n1, DInf n2 => n1 && negb n2
  | DInf n1, DFin _ _ => n1
  | DFin _ _, DInf n2 => negb n2
  | DFin m1 e1, DFin m2 e2 => match fin_cmp m1 e1 m2 e2 with Lt => true | _ => false end
  end.

(** [a > b] on numbers. *)
Definition dgt (a b : double) : bool := dlt b a.

Definition isNaN (a : double) : bool := match a with DNaN => true | _ => false end.

(** ** Rounding to an integer *)

Section Rne.
Context (n d : Z) (Hd : 0 < d).

(** [rne n d] is within a half of [n / d]. *)
Lemma rne_spec : d * (2 * rne n d - 1) <= 2 * n <= d * (2 * rne n d + 1).
Proof.
  unfold rne. pose proof (Z.div_mod n d ltac:(lia)). pose proof (Z.mod_pos_bound n d Hd).
  set (q := n / d) in *. set (r := n mod d) in *.
  destruct (Z.compare_spec (2 * r) d); [destruct (Z.even q)|..]; nia.
Qed.

(** Exactly between two integers, it is the even one. *)
Lemma rne_tie : 2 * n = d * (2 * rne n d - 1) \/ 2 * n = d * (2 * rne n d + 1) ->
  Z.even (rne n d) = true.
Proof.
  unfold rne. pose proof (Z.div_mod n d ltac:(lia)). pose proof (Z.mod_pos_bound n d Hd).
  set (q := n / d) in *. set (r := n mod d) in *.
  destruct (Z.compare_spec (2 * r) d); [|nia|nia].
  destruct (Z.even q) eqn:E; [done|]. intros _. by rewrite Z.even_add, E.
Qed.

Lemma rne_nonneg : 0 <= n -> 0 <= rne n d.
Proof. pose proof rne_spec. nia. Qed.

(** Below an integer bound [p], the rounding is at most [p]. *)
Lemma rne_le p : n < p * d -> rne n d <= p.
Proof. pose proof rne_spec. nia. Qed.

(** From an integer bound [p] on, the rounding is at least [p]. *)
Lemma rne_ge p : p * d <= n -> p <= rne n d.
Proof. pose proof rne_spec. nia. Qed.
End Rne.

(** Rounding to an integer is monotone: [n1 / d1 <= n2 / d2] gives
    [rne n1 d1 <= rne n2 d2].  Were it not, both quotients would be the
    same half-integer, rounded to two consecutive integers that are both
    even. *)
Lemma rne_mono n1 d1 n2 d2 :
  0 < d1 -> 0 < d2 -> n1 * d2 <= n2 * d1 -> rne n1 d1 <= rne n2 d2.
Proof.
  intros H1 H2 Hle. destruct (Z.le_gt_cases (rne n1 d1) (rne n2 d2)) as [|Hgt]; [done|].
  exfalso. pose proof (rne_spec n1 d1 H1) as S1. pose proof (rne_spec n2 d2 H2) as S2.
  set (k1 := rne n1 d1) in *. set (k2 := rne n2 d2) in *.
  assert (A : d2 * (d1 * (2 * k1 - 1)) <= d2 * (2 * n1)) by (apply Z.mul_le_mono_nonneg_l; lia).
  assert (B : d1 * (2 * n2) <= d1 * (d2 * (2 * k2 + 1))) by (apply Z.mul_le_mono_nonneg_l; lia).
  assert (C : d1 * d2 * (2 * k2 + 1) <= d1 * d2 * (2 * k1 - 1))
    by (apply Z.mul_le_mono_nonneg_l; lia).
  assert (Ek : k1 = k2 + 1) by nia.
  assert (T1 : 2 * n1 = d1 * (2 * k1 - 1)) by nia.
  assert (T2 : 2 * n2 = d2 * (2 * k2 + 1)) by nia.
  pose proof (rne_tie n1 d1 H1 (or_introl T1)) as E1.
  pose proof (rne_tie n2 d2 H2 (or_intror T2)) as E2.
  fold k1 in E1. fold k2 in E2. rewrite Ek, Z.even_add, E2 in E1. discriminate.
Qed.

(** ** The exponent *)

Lemma pow2_pos k : 0 <= k -> 0 < 2 ^ k.
Proof. intros. by apply Z.pow_pos_nonneg. Qed.

Lemma pow2_split a b : 0 <= a -> 0 <= b -> 2 ^ (a + b) = 2 ^ a * 2 ^ b.
Proof. intros. by apply Z.pow_add_r. Qed.

(** The exponent is non-negative, the scaled quotient stays below
    [2 ^ 53], and above [2 ^ 52] when the exponent is positive. *)
Lemma fexp_range n d : 0 <= n -> 0 < d ->
  0 <= fexp n d /\ n * 2 ^ 1074 < 2 ^ 53 * (d * 2 ^ fexp n d) /\
  (0 < fexp n d -> 2 ^ 52 * (d * 2 ^ fexp n d) <= n * 2 ^ 1074).
Proof.
  intros Hn Hd. unfold fexp. set (N := n * 2 ^ 1074).
  assert (P53 : 2 ^ 53 = 2 * 2 ^ 52) by reflexivity.
  assert (P52 : 0 < 2 ^ 52) by reflexivity.
  destruct (Z.ltb_spec N (2 ^ 53 * d)) as [Hlt|Hge].
  { rewrite Z.mul_1_r. lia. }
  assert (HN : 0 < N) by nia.
  destruct (Z.log2_spec N HN) as [N1 N2]. destruct (Z.log2_spec d Hd) as [D1 D2].
  pose proof (Z.log2_nonneg N). pose proof (Z.log2_nonneg d).
  set (lN := Z.log2 N) in *. set (ld := Z.log2 d) in *.
  rewrite Z.pow_succ_r in N2, D2 by lia.
  assert (Hg : 1 <= lN - ld - 52).
  { assert (2 ^ (53 + ld) < 2 ^ (Z.succ lN)) as Hp.
    { rewrite pow2_split, Z.pow_succ_r by lia. nia. }
    apply Z.pow_lt_mono_r_iff in Hp; lia. }
  set (g := lN - ld - 52) in *.
  assert (Hsplit : 2 ^ lN = 2 ^ 52 * (2 ^ ld * 2 ^ g)).
  { rewrite <- !pow2_split by lia. f_equal. lia. }
  pose proof (pow2_pos g ltac:(lia)).
  destruct (Z.ltb_spec N (2 ^ 52 * (d * 2 ^ g))) as [Hl|Hl].
  - assert (Hg1 : 2 ^ g = 2 * 2 ^ (g - 1)).
    { rewrite <- Z.pow_succ_r by lia. f_equal. lia. }
    rewrite Hg1 in *. pose proof (pow2_pos (g - 1) ltac:(lia)).
    split; [lia|]. split; [nia|]. intros _. nia.
  - split; [lia|]. split; [nia | intros _; lia].
Qed.

Lemma pow2_le a b : 0 <= a <= b -> 2 ^ b = 2 ^ a * 2 ^ (b - a).
Proof. intros. rewrite <- pow2_split by lia. f_equal. lia. Qed.

(** A larger quotient has a larger exponent. *)
Lemma fexp_mono n1 d1 n2 d2 :
  0 <= n1 -> 0 < d1 -> 0 < d2 -> n1 * d2 <= n2 * d1 -> fexp n1 d1 <= fexp n2 d2.
Proof.
  intros Hn Hd1 Hd2 Hle. assert (Hn2 : 0 <= n2) by nia.
  destruct (fexp_range n1 d1 Hn Hd1) as (F1 & _ & L1).
  destruct (fexp_range n2 d2 Hn2 Hd2) as (F2 & U2 & _).
  set (f1 := fexp n1 d1) in *. set (f2 := fexp n2 d2) in *.
  destruct (Z.le_gt_cases f1 f2) as [|Hgt]; [done|]. exfalso.
  specialize (L1 ltac:(lia)). rewrite (pow2_le (f2 + 1) f1) in L1 by lia.
  rewrite pow2_split, Z.pow_1_r in L1 by lia.
  pose proof (pow2_pos f2 F2). pose proof (pow2_pos (f1 - (f2 + 1)) ltac:(lia)).
  replace (2 ^ 53) with (2 * 2 ^ 52) in U2 by reflexivity.
  set (A := 2 ^ f2) in *. set (B := 2 ^ (f1 - (f2 + 1))) in *.
  set (P := 2 ^ 52) in *. set (T := 2 ^ 1074) in *.
  assert (0 < P) by reflexivity. assert (0 < T) by reflexivity.
  assert (X1 : P * (d1 * (A * 2 * B)) * d2 <= n1 * T * d2) by (apply Z.mul_le_mono_nonneg_r; lia).
  assert (X2 : n2 * T * d1 < 2 * P * (d2 * A) * d1) by (apply Z.mul_lt_mono_pos_r; lia).
  assert (X3 : n1 * d2 * T <= n2 * d1 * T) by (apply Z.mul_le_mono_nonneg_r; lia).
  assert (X4 : (P * d1 * A * 2 * d2) * 1 <= (P * d1 * A * 2 * d2) * B)
    by (apply Z.mul_le_mono_nonneg_l; nia).
  lia.
Qed.

(** The value [significand * 2 ^ fexp], in units of [2 ^ -1074], is
    monotone. *)
Lemma significand_mono n1 d1 n2 d2 :
  0 <= n1 -> 0 < d1 -> 0 < d2 -> n1 * d2 <= n2 * d1 ->
  significand n1 d1 * 2 ^ fexp n1 d1 <= significand n2 d2 * 2 ^ fexp n2 d2.
Proof.
  intros Hn Hd1 Hd2 Hle. assert (Hn2 : 0 <= n2) by nia.
  pose proof (fexp_mono n1 d1 n2 d2 Hn Hd1 Hd2 Hle) as Hf.
  destruct (fexp_range n1 d1 Hn Hd1) as (F1 & U1 & _).
  destruct (fexp_range n2 d2 Hn2 Hd2) as (F2 & _ & L2).
  unfold significand. set (f1 := fexp n1 d1) in *. set (f2 := fexp n2 d2) in *.
  pose proof (pow2_pos f1 F1). pose proof (pow2_pos f2 F2).
  assert (0 < 2 ^ 1074) by reflexivity.
  destruct (Z.eq_dec f1 f2) as [E|Hlt].
  - rewrite E in *. apply Z.mul_le_mono_nonneg_r; [lia|]. apply rne_mono; nia.
  - specialize (L2 ltac:(lia)).
    assert (Q1 : 0 < d1 * 2 ^ f1) by nia. assert (Q2 : 0 < d2 * 2 ^ f2) by nia.
    pose proof (rne_le _ _ Q1 _ U1) as M1. pose proof (rne_ge _ _ Q2 _ L2) as M2.
    rewrite (pow2_le (f1 + 1) f2), pow2_split, Z.pow_1_r in * by lia.
    pose proof (pow2_pos (f2 - (f1 + 1)) ltac:(lia)).
    replace (2 ^ 53) with (2 * 2 ^ 52) in M1 by reflexivity.
    set (A := 2 ^ f1) in *. set (B := 2 ^ (f2 - (f1 + 1))) in *. set (P := 2 ^ 52) in *.
    set (m1 := rne (n1 * 2 ^ 1074) (d1 * A)) in *.
    set (m2 := rne (n2 * 2 ^ 1074) (d2 * (A * 2 * B))) in *.
    assert (X1 : m1 * A <= 2 * P * A) by (apply Z.mul_le_mono_nonneg_r; lia).
    assert (X2 : P * (A * 2 * B) <= m2 * (A * 2 * B))
      by (apply Z.mul_le_mono_nonneg_r; [apply Z.mul_nonneg_nonneg|]; lia).
    assert (X3 : (2 * P * A) * 1 <= (2 * P * A) * B)
      by (assert (0 < P) by reflexivity; apply Z.mul_le_mono_nonneg_l; [apply Z.mul_nonneg_nonneg|]; lia).
    lia.
Qed.

(** The significand is at most [2 ^ 53], and at least [2 ^ 52] when the
    exponent is positive. *)
Lemma significand_range n d : 0 <= n -> 0 < d ->
  0 <= significand n d <= 2 ^ 53 /\ (0 < fexp n d -> 2 ^ 52 <= significand n d).
Proof.
  intros Hn Hd. destruct (fexp_range n d Hn Hd) as (F & U & L). unfold significand.
  assert (Q : 0 < d * 2 ^ fexp n d) by (pose proof (pow2_pos _ F); nia).
  split; [split; [apply rne_nonneg; nia | exact (rne_le _ _ Q _ U)]|].
  intros Hf. exact (rne_ge _ _ Q _ (L Hf)).
Qed.

(** Normalisation keeps the value and brings the significand below
    [2 ^ 53]. *)
Lemma normalize_spec m f : 0 <= f -> 0 <= m <= 2 ^ 53 -> (0 < f -> 2 ^ 52 <= m) ->
  let '(m', f') := normalize m f in
  m' * 2 ^ f' = m * 2 ^ f /\ 0 <= m' < 2 ^ 53 /\ 0 <= f' /\ (0 < f' -> 2 ^ 52 <= m').
Proof.
  intros Hf Hm Hl. unfold normalize. destruct (Z.eqb_spec m (2 ^ 53)) as [->|Hne].
  - rewrite Z.pow_add_r, Z.pow_1_r by lia. split; [|lia]. ring_simplify. reflexivity.
  - lia.
Qed.

(** A double's value in units of [2 ^ -1074] decides the comparison. *)
Lemma fin_cmp_ge m1 f1 m2 f2 c : 0 <= f1 -> 0 <= f2 -> m1 * 2 ^ f1 <= m2 * 2 ^ f2 ->
  fin_cmp m2 (f2 - c) m1 (f1 - c) <> Lt.
Proof.
  intros F1 F2 Hle. unfold fin_cmp. rewrite Z.sub_min_distr_r.
  replace (f2 - c - (Z.min f2 f1 - c)) with (f2 - Z.min f2 f1) by lia.
  replace (f1 - c - (Z.min f2 f1 - c)) with (f1 - Z.min f2 f1) by lia.
  rewrite (pow2_le (Z.min f2 f1) f1), (pow2_le (Z.min f2 f1) f2) in Hle by lia.
  pose proof (pow2_pos (Z.min f2 f1) ltac:(lia)).
  rewrite Z.compare_lt_iff. intros Hlt.
  apply (Z.mul_lt_mono_pos_l (2 ^ Z.min f2 f1)) in Hlt; [lia | done].
Qed.

(** The normalised double of [n / d], with its value and bounds. *)
Lemma round_view n d : 0 <= n -> 0 < d ->
  exists m f, normalize (significand n d) (fexp n d) = (m, f) /\
  m * 2 ^ f = significand n d * 2 ^ fexp n d /\ 0 <= m < 2 ^ 53 /\ 0 <= f /\
  (0 < f -> 2 ^ 52 <= m).
Proof.
  intros Hn Hd. destruct (fexp_range n d Hn Hd) as (F & _).
  destruct (significand_range n d Hn Hd) as [R L].
  pose proof (normalize_spec _ _ F R L) as N.
  destruct (normalize _ _) as [m f]. by exists m, f.
Qed.

(** Rounding is monotone: a larger non-negative rational never reads as
    a smaller double ([>] is false on the results). *)
Theorem round_rat_mono n1 d1 n2 d2 :
  0 <= n1 -> 0 < d1 -> 0 < d2 -> n1 * d2 <= n2 * d1 ->
  dgt (round_rat false n1 d1) (round_rat false n2 d2) = false.
Proof.
  intros Hn Hd1 Hd2 Hle. assert (Hn2 : 0 <= n2) by nia.
  pose proof (significand_mono n1 d1 n2 d2 Hn Hd1 Hd2 Hle) as V.
  destruct (round_view n1 d1 Hn Hd1) as (m1 & f1 & E1 & V1 & M1 & F1 & L1).
  destruct (round_view n2 d2 Hn2 Hd2) as (m2 & f2 & E2 & V2 & M2 & F2 & L2).
  rewrite <- V1, <- V2 in V. unfold round_rat, dgt. rewrite E1, E2.
  destruct (Z.ltb_spec 2045 f2); [by destruct (2045 <? f1)|]. destruct (Z.ltb_spec 2045 f1).
  - exfalso. specialize (L1 ltac:(lia)).
    rewrite (pow2_le f2 f1) in V by lia.
    assert (X : 2 <= 2 ^ (f1 - f2)).
    { rewrite (pow2_le 1 (f1 - f2)), Z.pow_1_r by lia. pose proof (pow2_pos (f1 - f2 - 1)); lia. }
    pose proof (pow2_pos f2 F2). replace (2 ^ 53) with (2 * 2 ^ 52) in M2 by reflexivity.
    set (A := 2 ^ f2) in *. set (B := 2 ^ (f1 - f2)) in *. set (P := 2 ^ 52) in *.
    assert (Y1 : P * (A * 2) <= m1 * (A * B))
      by (apply Z.mul_le_mono_nonneg; [lia | lia | lia | apply Z.mul_le_mono_nonneg_l; lia]).
    assert (Y2 : m2 * A < 2 * P * A) by (apply Z.mul_lt_mono_pos_r; lia).
    lia.
  - simpl. pose proof (fin_cmp_ge m1 f1 m2 f2 1074 F1 F2 V). by destruct (fin_cmp _ _ _ _).
Qed.

(** The comparison of finite doubles, at any exponent below both. *)
Lemma fin_cmp_at m1 e1 m2 e2 c : c <= e1 -> c <= e2 ->
  fin_cmp m1 e1 m2 e2 = Z.compare (m1 * 2 ^ (e1 - c)) (m2 * 2 ^ (e2 - c)).
Proof.
  intros H1 H2. unfold fin_cmp. set (e := Z.min e1 e2).
  rewrite (pow2_le (e1 - e) (e1 - c)), (pow2_le (e2 - e) (e2 - c)) by lia.
  replace (e1 - c - (e1 - e)) with (e - c) by lia. replace (e2 - c - (e2 - e)) with (e - c) by lia.
  rewrite !Z.mul_assoc. pose proof (pow2_pos (e - c) ltac:(lia)).
  rewrite <- Zmult_compare_compat_r; [reflexivity | lia].
Qed.

(** [x <= y < z] gives [x < z], for [x] a number. *)
Lemma dle_lt_trans x y z :
  isNaN x = false -> dgt x y = false -> dlt y z = true -> dlt x z = true.
Proof.
  unfold dgt. destruct x as [|nx|mx ex], y as [|ny|my ey], z as [|nz|mz ez]; simpl;
    try done; try (destruct nx; done); try (destruct ny, nz; done); try (destruct nx, ny; done);
    try (destruct nx, nz; done); [intros _ -> ?; discriminate|].
  rewrite !(fin_cmp_at _ _ _ _ (Z.min ex (Z.min ey ez))) by lia.
  pose proof (pow2_pos (ex - Z.min ex (Z.min ey ez)) ltac:(lia)).
  destruct (Z.compare_spec (my * 2 ^ (ey - Z.min ex (Z.min ey ez))) (mx * 2 ^ (ex - Z.min ex (Z.min ey ez)))),
    (Z.compare_spec (my * 2 ^ (ey - Z.min ex (Z.min ey ez))) (mz * 2 ^ (ez - Z.min ex (Z.min ey ez))));
    try done; destruct (Z.compare_spec (mx * 2 ^ (ex - Z.min ex (Z.min ey ez))) (mz * 2 ^ (ez - Z.min ex (Z.min ey ez)))); try done; lia.
Qed.

(** Rounding never yields NaN. *)
Lemma round_rat_number neg n d : isNaN (round_rat neg n d) = false.
Proof. unfold round_rat. destruct (normalize _ _). by destruct (2045 <? _). Qed.
