(* ===== verification/Models.v ===== *)
(** * The data model: vaults and transactions

    [src/src/app/models/vault.model.ts] and
    [src/src/app/models/transaction.model.ts]: the enums as inductive
    types with their string values, the interfaces as records.  A
    [Vault] value of the services is either a full record or the empty
    object [{} as Vault] that [VaultService.getVaultDetails] returns on a
    failed read ([vault_val]).  Also here: the pure helpers on these
    types, [mapVaultTypeFromNumber] of the vault service and
    [getCategoryLabel] of the vault list component. *)

From S2P Require Import Prelude Js.
From Stdlib Require Import ZArith String.
Local Open Scope string_scope.

(** ** transaction.model.ts *)

Inductive TransactionType : Type :=
  | TxDeposit | TxWithdrawal | TxMetadataUpdate | TxOwnershipTransfer.

Definition TransactionType_value (t : TransactionType) : string :=
  match t with
  | TxDeposit => "Deposit"
  | TxWithdrawal => "Withdrawal"
  | TxMetadataUpdate => "MetadataUpdate"
  | TxOwnershipTransfer => "OwnershipTransfer"
  end.

Inductive TransactionStatus : Type := Pending | Confirmed | Failed.

Record Transaction : Type := mkTransaction {
  tx_id : string;
  tx_type : TransactionType;
  tx_status : TransactionStatus;
  tx_timestamp : Z;
  tx_amount : option string;
  tx_from : string;
  tx_to : option string;
  tx_vault : string;
  tx_blockNumber : option Z;
  tx_blockHash : option string
}.

(** ** vault.model.ts *)

Inductive VaultType : Type := SingleOwner | MultiSig | Timelock | Funding.

#[export] Instance VaultType_eq_dec : EqDecision VaultType.
Proof. solve_decision. Defined.

Inductive VaultCategory : Type :=
  | Travel | Party | Medical | Emergency | Savings | Home | Family
  | Education | Entertainment | Sport | Other.

(** The string value of each member ([Travel = 'Viaje'], ...). *)
Definition VaultCategory_value (c : VaultCategory) : string :=
  match c with
  | Travel => "Viaje" | Party => "Fiesta" | Medical => "Médico"
  | Emergency => "Emergencia" | Savings => "Ahorro" | Home => "Hogar"
  | Family => "Familia" | Education => "Educación"
  | Entertainment => "Entretenimiento" | Sport => "Deporte" | Other => "Otro"
  end.

(** The member names, the keys of the enum object. *)
Definition VaultCategory_key (c : VaultCategory) : string :=
  match c with
  | Travel => "Travel" | Party => "Party" | Medical => "Medical"
  | Emergency => "Emergency" | Savings => "Savings" | Home => "Home"
  | Family => "Family" | Education => "Education"
  | Entertainment => "Entertainment" | Sport => "Sport" | Other => "Other"
  end.

Definition all_categories : list VaultCategory :=
  [Travel; Party; Medical; Emergency; Savings; Home; Family; Education;
   Entertainment; Sport; Other].

Record VaultMetadata : Type := mkVaultMetadata {
  md_name : string;
  md_description : string;
  md_category : string;
  md_imageURI : string;
  md_target : string;
  md_isPublic : bool
}.

(** The [Vault] interface, with the two fields [getVaultDetails] adds
    through its [as Vault] cast ([totalDeposited], [isActive]). *)
Record Vault : Type := mkVault {
  v_address : string;
  v_owner : string;
  v_balance : string;
  v_metadata : VaultMetadata;
  v_type : VaultType;
  v_createdAt : option Z;
  v_lastActivity : option Z;
  v_totalDeposited : option string;
  v_isActive : option bool
}.

(** A value of static type [Vault]: a record, or the empty object
    [{} as Vault] (every field undefined, but truthy). *)
Inductive vault_val : Type :=
  | VaultEmpty
  | VaultFull (v : Vault).

Record CreateVaultRequest : Type := mkCreateVaultRequest {
  req_metadata : VaultMetadata;
  req_type : VaultType
}.

(** ** Helpers on the model *)

(** [VaultService.mapVaultTypeFromNumber]: a [switch] on the value, whose
    [case] labels are the numbers 0 to 3, compared with [===]. *)
Definition mapVaultTypeFromNumber (vaultTypeNum : numeric) : VaultType :=
  if strict_eq vaultTypeNum (NNumber (JInt 0)) then SingleOwner
  else if strict_eq vaultTypeNum (NNumber (JInt 1)) then MultiSig
  else if strict_eq vaultTypeNum (NNumber (JInt 2)) then Timelock
  else if strict_eq vaultTypeNum (NNumber (JInt 3)) then Funding
  else SingleOwner.

(** [VaultCategory[key]]: the value of the member named [key]. *)
Definition VaultCategory_lookup (key : string) : option string :=
  VaultCategory_value <$> List.find (fun c => String.eqb (VaultCategory_key c) key) all_categories.

(** [VaultListComponent.getCategoryLabel]:
    [VaultCategory[category] || category]. *)
Definition getCategoryLabel (category : string) : string :=
  match VaultCategory_lookup category with
  | Some v => str_or v category
  | None => category
  end.
