(* ===== verification/Async.v ===== *)
(** * Asynchronous programs over a shared state

    The services are written with [async]/[await] and RxJS pipelines.  A
    JavaScript task runs to completion between two suspension points; the
    suspension points that matter are the calls that cross to the wallet
    or the chain (an account request, a network request, a contract call,
    a confirmation wait), whose answers arrive as separate events.  This
    file gives such code a shallow model:
    - [prog A]: a program that returns an [A], reads and writes the shared
      state ([Get], [Put]), throws ([Throw]), awaits the answer of an
      external request ([Call]), or starts a task it does not await
      ([Spawn]: an [async] function called without [await], or an
      observable [subscribe()]d in passing).  A spawned task may carry a
      slot: starting a task in a slot first cancels the task already in
      it, which is what [switchMap] does with its inner subscription;
    - [bind], [catch] and [finally_]: sequencing, [try]/[catch] and
      [tap(() => ...)] after [catchError];
    - [advance]: runs a program until it returns, throws or suspends on a
      [Call], running the synchronous prefix of every spawned task on the
      way and collecting the suspended ones in a task pool;
    - [exec]: the sequential run of one program against a list of answers.
    The theorems [advance_bind], [exec_bind], [advance_catch] and
    [exec_catch] make runs compositional; the components' proofs use them
    instead of unfolding the interpreter. *)

From S2P Require Import Prelude.

Section prog.
Context {S Req Resp Err : Type}.

Inductive prog (A : Type) : Type :=
  | Ret (a : A)
  | Throw (e : Err)
  | Get (k : S -> prog A)
  | Put (s : S) (k : prog A)
  | Call (r : Req) (k : Resp -> prog A)
  | Spawn (slot : option nat) (t : prog unit) (k : prog A).

Arguments Ret {A} a.
Arguments Throw {A} e.
Arguments Get {A} k.
Arguments Put {A} s k.
Arguments Call {A} r k.
Arguments Spawn {A} slot t k.

Fixpoint bind {A B : Type} (p : prog A) (f : A -> prog B) : prog B :=
  match p with
  | Ret a => f a
  | Throw e => Throw e
  | Get k => Get (fun s => bind (k s) f)
  | Put s k => Put s (bind k f)
  | Call r k => Call r (fun x => bind (k x) f)
  | Spawn sl t k => Spawn sl t (bind k f)
  end.

(** [try { p } catch (e) { h(e) }]; a spawned task's errors are its own. *)
Fixpoint catch {A : Type} (p : prog A) (h : Err -> prog A) : prog A :=
  match p with
  | Ret a => Ret a
  | Throw e => h e
  | Get k => Get (fun s => catch (k s) h)
  | Put s k => Put s (catch k h)
  | Call r k => Call r (fun x => catch (k x) h)
  | Spawn sl t k => Spawn sl t (catch k h)
  end.

#[global] Instance prog_ret : MRet prog := @Ret.
#[global] Instance prog_bind : MBind prog := fun A B f p => bind p f.
#[global] Instance prog_throw : MThrow Err prog := @Throw.

Lemma prog_mbind {A B} (f : A -> prog B) (p : prog A) : mbind f p = bind p f.
Proof. done. Qed.
Lemma prog_mret {A} (a : A) : (mret a : prog A) = Ret a.
Proof. done. Qed.

Definition gets {A} (f : S -> A) : prog A := Get (fun s => Ret (f s)).
Definition modify (f : S -> S) : prog unit := Get (fun s => Put (f s) (Ret tt)).
Definition call (r : Req) : prog Resp := Call r Ret.
Definition spawn (slot : option nat) (t : prog unit) : prog unit := Spawn slot t (Ret tt).

(** [p.pipe(tap(() => q))] after a [catchError]: [q] runs once [p]
    has produced its value. *)
Definition finally_ {A} (p : prog A) (q : prog unit) : prog A :=
  bind p (fun a => bind q (fun _ => Ret a)).

(** ** The interpreter *)

(** A suspended task, with the slot it was started in. *)
Definition task : Type := option nat * prog unit.

Inductive status (A : Type) : Type :=
  | Returned (a : A)
  | Raised (e : Err)
  | Waiting (r : Req) (k : Resp -> prog A).
Arguments Returned {A} a.
Arguments Raised {A} e.
Arguments Waiting {A} r k.

Definition is_Raised {A} (st : status A) : Prop :=
  match st with Raised _ => True | _ => False end.

Definition slot_eqb (a b : option nat) : bool :=
  match a, b with
  | Some x, Some y => Nat.eqb x y
  | _, _ => false
  end.

(** Starting a task in slot [sl] cancels the task of that slot. *)
Definition kill (sl : option nat) (pool : list task) : list task :=
  List.filter (fun t => negb (slot_eqb (fst t) sl)) pool.

(** A task started outside any slot cancels nothing. *)
Lemma kill_None pool : kill None pool = pool.
Proof.
  induction pool as [|[[n|] t] pool IH]; simpl; rewrite ?IH; done.
Qed.

Definition park (sl : option nat) (st : status unit) (pool : list task) : list task :=
  match st with
  | Waiting r k => pool ++ [(sl, Call r k)]
  | _ => pool
  end.

Fixpoint advance {A : Type} (p : prog A) (s : S) (pool : list task) : S * list task * status A :=
  match p with
  | Ret a => (s, pool, Returned a)
  | Throw e => (s, pool, Raised e)
  | Get k => advance (k s) s pool
  | Put s' k => advance k s' pool
  | Call r k => (s, pool, Waiting r k)
  | Spawn sl t k =>
      let '(s1, pool1, st) := advance t s (kill sl pool) in
      advance k s1 (park sl st pool1)
  end.

(** The result of a run: final state, suspended tasks, status of the
    program, answers left over, and the requests that were answered, in
    the order they were made. *)
Record run (A : Type) : Type := mkRun {
  run_state : S;
  run_pool : list task;
  run_status : status A;
  run_rest : list Resp;
  run_calls : list Req
}.
Arguments mkRun {A}.
Arguments run_state {A}.
Arguments run_pool {A}.
Arguments run_status {A}.
Arguments run_rest {A}.
Arguments run_calls {A}.

Definition add_calls {A} (tr : list Req) (r : run A) : run A :=
  mkRun (run_state r) (run_pool r) (run_status r) (run_rest r) (tr ++ run_calls r).

(** Run [p] to the end, answering its calls with [rs] in order. *)
Fixpoint exec {A : Type} (rs : list Resp) (p : prog A) (s : S) (pool : list task) : run A :=
  let '(s1, pool1, st) := advance p s pool in
  match st, rs with
  | Waiting r k, x :: rs' => add_calls [r] (exec rs' (k x) s1 pool1)
  | _, _ => mkRun s1 pool1 st rs []
  end.

(** ** Compositional lemmas *)

Lemma add_calls_nil {A} (r : run A) : add_calls [] r = r.
Proof. by destruct r. Qed.

Lemma add_calls_app {A} tr1 tr2 (r : run A) :
  add_calls tr1 (add_calls tr2 r) = add_calls (tr1 ++ tr2) r.
Proof. destruct r. unfold add_calls. simpl. by rewrite app_assoc. Qed.

Definition status_bind {A B} (st : status A) : (A -> prog B) -> status B + A :=
  fun f => match st with
  | Returned a => inr a
  | Raised e => inl (Raised e)
  | Waiting r k => inl (Waiting r (fun x => bind (k x) f))
  end.

Lemma advance_bind {A B} (p : prog A) (f : A -> prog B) s pool :
  advance (bind p f) s pool =
    let '(s1, pool1, st) := advance p s pool in
    match st with
    | Returned a => advance (f a) s1 pool1
    | Raised e => (s1, pool1, Raised e)
    | Waiting r k => (s1, pool1, Waiting r (fun x => bind (k x) f))
    end.
Proof.
  revert f s pool. induction p as [A a|A e|A k IH|A s' k IH|A r k IH|A sl t _ k IH];
    intros f s pool; simpl; try done.
  destruct (advance t s (kill sl pool)) as [[s1 pool1] st]. apply IH.
Qed.

Lemma exec_bind {A B} rs (p : prog A) (f : A -> prog B) s pool :
  exec rs (bind p f) s pool =
    let 'mkRun s1 pool1 st rs1 tr1 := exec rs p s pool in
    match st with
    | Returned a => add_calls tr1 (exec rs1 (f a) s1 pool1)
    | Raised e => mkRun s1 pool1 (Raised e) rs1 tr1
    | Waiting r k => mkRun s1 pool1 (Waiting r (fun x => bind (k x) f)) rs1 tr1
    end.
Proof.
  revert p s pool. induction rs as [|x rs IH]; intros p s pool; simpl;
    rewrite advance_bind; destruct (advance p s pool) as [[s1 pool1] [a|e|r k]];
    simpl; rewrite ?add_calls_nil; try done.
  rewrite IH. destruct (exec rs (k x) s1 pool1) as [? ? [| |] ? ?]; simpl;
    rewrite ?add_calls_app; done.
Qed.

Lemma advance_catch {A} (p : prog A) (h : Err -> prog A) s pool :
  advance (catch p h) s pool =
    let '(s1, pool1, st) := advance p s pool in
    match st with
    | Returned a => (s1, pool1, Returned a)
    | Raised e => advance (h e) s1 pool1
    | Waiting r k => (s1, pool1, Waiting r (fun x => catch (k x) h))
    end.
Proof.
  revert h s pool. induction p as [A a|A e|A k IH|A s' k IH|A r k IH|A sl t _ k IH];
    intros h s pool; simpl; try done.
  destruct (advance t s (kill sl pool)) as [[s1 pool1] st]. apply IH.
Qed.

Lemma exec_catch {A} rs (p : prog A) (h : Err -> prog A) s pool :
  exec rs (catch p h) s pool =
    let 'mkRun s1 pool1 st rs1 tr1 := exec rs p s pool in
    match st with
    | Returned a => mkRun s1 pool1 (Returned a) rs1 tr1
    | Raised e => add_calls tr1 (exec rs1 (h e) s1 pool1)
    | Waiting r k => mkRun s1 pool1 (Waiting r (fun x => catch (k x) h)) rs1 tr1
    end.
Proof.
  revert p s pool. induction rs as [|x rs IH]; intros p s pool; simpl;
    rewrite advance_catch; destruct (advance p s pool) as [[s1 pool1] [a|e|r k]];
    simpl; rewrite ?add_calls_nil; try done.
  rewrite IH. destruct (exec rs (k x) s1 pool1) as [? ? [| |] ? ?]; simpl;
    rewrite ?add_calls_app; done.
Qed.

(** The unfolding of [exec] that does not look at the answers before
    the program suspends. *)
Lemma exec_unfold {A} rs (p : prog A) s pool :
  exec rs p s pool =
    let '(s1, pool1, st) := advance p s pool in
    match st with
    | Waiting r k =>
        match rs with
        | [] => mkRun s1 pool1 st [] []
        | x :: rs' => add_calls [r] (exec rs' (k x) s1 pool1)
        end
    | _ => mkRun s1 pool1 st rs []
    end.
Proof. destruct rs; simpl; by destruct (advance p s pool) as [[? ?] [| |]]. Qed.

Lemma exec_ret {A} rs (a : A) s pool : exec rs (Ret a) s pool = mkRun s pool (Returned a) rs [].
Proof. by destruct rs. Qed.

Lemma exec_throw {A} rs e s pool : exec rs (Throw (A:=A) e) s pool = mkRun s pool (Raised e) rs [].
Proof. by destruct rs. Qed.

Lemma exec_get {A} rs (k : S -> prog A) s pool : exec rs (Get k) s pool = exec rs (k s) s pool.
Proof. by destruct rs. Qed.

Lemma exec_put {A} rs s' (k : prog A) s pool : exec rs (Put s' k) s pool = exec rs k s' pool.
Proof. by destruct rs. Qed.

Lemma exec_call {A} x rs r (k : Resp -> prog A) s pool :
  exec (x :: rs) (Call r k) s pool = add_calls [r] (exec rs (k x) s pool).
Proof. reflexivity. Qed.

Lemma exec_call_nil {A} r (k : Resp -> prog A) s pool :
  exec [] (Call r k) s pool = mkRun s pool (Waiting r k) [] [].
Proof. reflexivity. Qed.

Lemma exec_spawn {A} rs sl t (k : prog A) s pool :
  exec rs (Spawn sl t k) s pool =
    let '(s1, pool1, st) := advance t s (kill sl pool) in
    exec rs k s1 (park sl st pool1).
Proof.
  destruct rs; simpl; by destruct (advance t s (kill sl pool)) as [[s1 pool1] st].
Qed.

Lemma exec_gets {A B} rs (f : S -> A) (k : A -> prog B) s pool :
  exec rs (bind (gets f) k) s pool = exec rs (k (f s)) s pool.
Proof. by destruct rs. Qed.

Lemma exec_modify {B} rs (f : S -> S) (k : unit -> prog B) s pool :
  exec rs (bind (modify f) k) s pool = exec rs (k tt) (f s) pool.
Proof. by destruct rs. Qed.

Lemma exec_finally {A} rs (p : prog A) q s pool :
  exec rs (finally_ p q) s pool = exec rs (bind p (fun a => bind q (fun _ => Ret a))) s pool.
Proof. reflexivity. Qed.

(** A program without [Call] returns whatever answers it is given. *)
Lemma exec_nil_irrelevant {A} rs (p : prog A) s pool :
  (forall s pool, match advance p s pool with (_, _, Waiting _ _) => False | _ => True end) ->
  exec rs p s pool = let '(s1, pool1, st) := advance p s pool in mkRun s1 pool1 st rs [].
Proof.
  intros H. specialize (H s pool). destruct rs; simpl;
    destruct (advance p s pool) as [[s1 pool1] [| |]]; done.
Qed.
End prog.

Arguments prog : clear implicits.
Arguments Ret {S Req Resp Err A} a.
Arguments Throw {S Req Resp Err A} e.
Arguments Get {S Req Resp Err A} k.
Arguments Put {S Req Resp Err A} s k.
Arguments Call {S Req Resp Err A} r k.
Arguments Spawn {S Req Resp Err A} slot t k.
Arguments status : clear implicits.
Arguments Returned {S Req Resp Err A} a.
Arguments Raised {S Req Resp Err A} e.
Arguments Waiting {S Req Resp Err A} r k.
Arguments run : clear implicits.
Arguments is_Raised {S Req Resp Err A} _.
Arguments mkRun {S Req Resp Err A}.
Arguments add_calls {S Req Resp Err A}.
Arguments run_state {S Req Resp Err A} _.
Arguments run_pool {S Req Resp Err A} _.
Arguments run_status {S Req Resp Err A} _.
Arguments run_rest {S Req Resp Err A} _.
Arguments run_calls {S Req Resp Err A} _.

(** [x <- c ;; k]: the [await] of [c] bound to [x] in [k] (the program
    [c] is elaborated first, so [x] needs no annotation). *)
Notation "x <- c ;; k" := (bind c (fun x => k))
  (at level 100, c at next level, k at level 200, right associativity) : tims_scope.

(** [c ;; k]: sequencing (the same reading as stdpp's, through [bind]). *)
Notation "c ;; k" := (bind c (fun _ => k))
  (at level 100, k at level 200, right associativity) : tims_scope.

(** Unfold [exec] on an unknown list of answers. *)
Ltac exec_step :=
  match goal with
  | |- context [exec ?rs ?p ?s ?pool] => is_var rs; rewrite (exec_unfold rs p s pool)
  end.

(** Run a program as far as the answers go, rewriting with [tac] the
    conditions that block it as soon as they appear. *)
Ltac run_session_using tac :=
  repeat (first [progress simpl | progress tac | exec_step]).
Ltac run_session := run_session_using idtac.

#[export] Hint Rewrite @exec_ret @exec_throw @exec_get @exec_put @exec_call
  @exec_call_nil @exec_gets @exec_modify : tims_rw.
