(* ===== verification/Provider.v ===== *)
(** * The boundary with the wallet and the chain

    What the services send to the injected EIP-1193 provider
    ([window.ethereum.request]), to ethers ([BrowserProvider.getSigner],
    [getNetwork], [getBalance], contract methods, [tx.wait()]), what comes
    back, and the provider's notifications.  The wallet and the chain are
    not modelled beyond this interface: a run of a service is checked
    against every sequence of answers, so what is proved holds whatever
    the user approves and whatever the chain returns.
    - [req]: one suspension point of the code, with the exact parameters
      the code passes (method names, the chain id string, the fixed
      [wallet_addEthereumChain] parameters, contract method names and
      arguments, the [value] of a payable call);
    - [resp]: the answer, or [RError] for a rejected promise;
    - [err]: the thrown value, with its [code] (EIP-1193 codes such as 4001
      and 4902) and its [message];
    - [event]: [accountsChanged], [chainChanged], [disconnect] with their
      payloads (declared [unknown] in the code, hence the option types). *)

From S2P Require Import Prelude Js Models.
From Stdlib Require Import ZArith String.
Local Open Scope string_scope.

(** ** Errors *)

Record err : Type := mkErr {
  err_code : option Z;
  err_message : string
}.

(** [new Error(msg)]. *)
Definition Error (msg : string) : err := mkErr None msg.

(** [`${error.message || error}`]: an [Error] whose message is empty
    prints as ["Error"]. *)
Definition err_text (e : err) : string := str_or (err_message e) "Error".

(** ** Contracts *)

Inductive abi : Type := VaultFactoryAbi | SingleOwnerVaultAbi.

#[export] Instance abi_eq_dec : EqDecision abi.
Proof. solve_decision. Defined.

(** [new ethers.Contract(target, abi, runner)]; the runner is the signer. *)
Record contract : Type := mkContract {
  c_target : string;
  c_abi : abi;
  c_runner : string
}.

#[export] Instance contract_eq_dec : EqDecision contract.
Proof. solve_decision. Defined.

Inductive abi_val : Type :=
  | AStr (s : string)
  | ABool (b : bool)
  | AUint (z : Z)
  | AAddr (a : string).

(** [wallet_addEthereumChain] parameters. *)
Record chain_params : Type := mkChainParams {
  cp_chainId : string;
  cp_chainName : string;
  cp_currencyName : string;
  cp_currencySymbol : string;
  cp_currencyDecimals : Z;
  cp_rpcUrls : list string;
  cp_blockExplorerUrls : list string
}.

(** ** Requests *)

Inductive req : Type :=
  | EthAccounts                          (* request({method: 'eth_accounts'}) *)
  | EthRequestAccounts                   (* request({method: 'eth_requestAccounts'}) *)
  | WalletSwitchChain (chainId : string) (* wallet_switchEthereumChain *)
  | WalletAddChain (p : chain_params)    (* wallet_addEthereumChain *)
  | GetSigner                            (* provider.getSigner() *)
  | GetNetwork                           (* provider.getNetwork() *)
  | GetBalance (addr : string)           (* provider.getBalance(addr) *)
  | ContractCall (c : contract) (meth : string) (args : list abi_val) (value : option Z)
  | TxWait (hash : string).              (* tx.wait() *)

(** ** Answers *)

(** What [factory.interface.parseLog(log)] gives for one receipt log. *)
Inductive parsed_log : Type :=
  | ParseThrows
  | ParseNull
  | Parsed (name : string) (vaultAddress : option string).

Record receipt : Type := mkReceipt {
  rc_hash : string;
  rc_blockNumber : Z;
  rc_blockHash : string;
  rc_logs : list parsed_log
}.

(** The tuple returned by [getVaultInfo()], indices 0 to 10. *)
Record vault_info : Type := mkVaultInfo {
  vi_owner : string;
  vi_name : string;
  vi_description : string;
  vi_category : string;
  vi_imageURI : string;
  vi_isPublic : bool;
  vi_balance : Z;
  vi_target : Z;
  vi_totalDeposited : Z;
  vi_vaultType : numeric;
  vi_isActive : bool
}.

Inductive resp : Type :=
  | RAccounts (accounts : option (list string)) (* None: not an array *)
  | RNull
  | RSigner (address : string)
  | RNetwork (chainId : Z)
  | RBalance (wei : Z)
  | RAddresses (l : list string)
  | RTx (hash : string)
  | RReceipt (r : receipt)
  | RVaultInfo (i : vault_info)
  | RBool (b : bool)
  | RError (e : err).

(** ** Provider notifications *)

Inductive event : Type :=
  | AccountsChanged (accounts : option (list string))
  | ChainChanged (chainIdHex : option string)   (* None: not a string *)
  | Disconnect.

(** ** JS checks on answers *)

(** [accounts && Array.isArray(accounts) && accounts.length > 0], and
    then [accounts[0]]. *)
Definition first_account (a : option (list string)) : option string :=
  match a with
  | Some (x :: _) => Some x
  | _ => None
  end.

(** Whether an answer is a rejection. *)
Definition is_error (x : resp) : bool :=
  match x with RError _ => true | _ => false end.
