(* ===== verification/Ethers.v ===== *)
(** * Unit conversions of ethers, as the vault service uses them

    [VaultService] converts between decimal ether strings and wei with
    [ethers.parseEther] (deposit and withdraw amounts, the target of a new
    vault) and [ethers.formatEther] (balances, targets and totals read
    from a vault).  These belong to the ethers library, not to the
    repository, so the service is written against the interface
    [EtherUnits] and its theorems hold for any implementation; a failed
    parse is the thrown error ([inl]).

    [ethers_units] implements the interface after ethers v6's
    [parseUnits(value, 18)] and [formatUnits(value, 18)]
    ([FixedNumber.fromString] and [FixedNumber.toString]): a decimal
    string [-?[0-9]*\.?[0-9]*] with at least one digit, whose digits past
    the 18th decimal must be zeros, within the signed 512-bit range; the
    printed form keeps one digit before the point and at least one after
    it. *)

From S2P Require Import Prelude Js Provider.
From Stdlib Require Import ZArith String Ascii.
Local Open Scope string_scope.

Class EtherUnits : Type := {
  parseEther : string -> err + Z;
  formatEther : Z -> string
}.

Module EthersV6.
Definition decimals : nat := 18.

Definition string_rev (s : string) : string :=
  string_of_list_ascii (rev (list_ascii_of_string s)).

(** [while (str[0] === "0" && str[1] !== ".") str = str.substring(1)] *)
Fixpoint strip_lead (s : string) : string :=
  match s with
  | String "0"%char t =>
      match t with
      | String "."%char _ => s
      | _ => strip_lead t
      end
  | _ => s
  end.

Fixpoint zeros (n : nat) : string :=
  match n with O => "" | S k => String "0"%char (zeros k) end.

(** [FixedNumber]'s [toString(val, decimals)] with 18 decimals. *)
Definition formatUnits18 (v : Z) : string :=
  let negative := if (v <? 0)%Z then "-" else "" in
  let str := num_to_string (JInt (Z.abs v)) in
  let str := zeros (S decimals - String.length str) ++ str in
  let index := String.length str - decimals in
  let str := substring 0 index str ++ "." ++ substring index decimals str in
  let str := strip_lead str in
  let str := string_rev (strip_lead (string_rev str)) in
  negative ++ str.

Definition is_digit (c : ascii) : bool := bool_decide (is_Some (digit_in 10 c)).

Fixpoint all_digits (s : string) : bool :=
  match s with EmptyString => true | String c t => is_digit c && all_digits t end.

Fixpoint all_zeros (s : string) : bool :=
  match s with EmptyString => true | String c t => Ascii.eqb c "0" && all_zeros t end.

(** The longest prefix of decimal digits. *)
Fixpoint digits_span (s : string) : string :=
  match s with
  | EmptyString => ""
  | String c t => if is_digit c then String c (digits_span t) else ""
  end.

(** The regular expression of [FixedNumber.fromString]: an optional
    minus sign, digits, an optional point and digits; the result is the
    sign, whole and decimal groups. *)
Definition fixed_sign (s : string) : string * string :=
  match s with String "-"%char t => ("-", t) | _ => ("", s) end.

Definition match_fixed (s : string) : option (string * string * string) :=
  let '(sign, body) := fixed_sign s in
  let whole := digits_span body in
  let rest := substring (String.length whole) (String.length body) body in
  match rest with
  | EmptyString => Some (sign, whole, "")
  | String "."%char t => if all_digits t then Some (sign, whole, t) else None
  | _ => None
  end.

(** [checkValue] for a signed 512-bit format: the value is wrapped to
    the width ([fromTwos(mask(val, width), width)]). *)
Definition fromTwos512 (v : Z) : Z :=
  let m := Z.modulo v (2 ^ 512) in
  if (m <? 2 ^ 511)%Z then m else (m - 2 ^ 512)%Z.

Definition checkValue512 (v : Z) : Z :=
  if (0 <? v)%Z then fromTwos512 v else (- fromTwos512 (- v))%Z.

(** [FixedNumber.fromString(value, {decimals: 18, width: 512}).value] *)
Definition parseUnits18 (s : string) : err + Z :=
  match match_fixed s with
  | None => inl (Error "invalid FixedNumber string value")
  | Some (sign, whole, decimal) =>
      if decide (String.length whole + String.length decimal = 0)%nat
      then inl (Error "invalid FixedNumber string value") else
      let whole := str_or whole "0" in
      let decimal := decimal ++ zeros (decimals - String.length decimal) in
      if negb (all_zeros (substring decimals (String.length decimal) decimal))
      then inl (Error "too many decimals for format") else
      let decimal := substring 0 decimals decimal in
      let value := digits_value 10 (digits_prefix 10 (whole ++ decimal)) in
      inr (checkValue512 (if String.eqb sign "-" then - value else value)%Z)
  end.
End EthersV6.

#[export] Instance ethers_units : EtherUnits := {|
  parseEther := EthersV6.parseUnits18;
  formatEther := EthersV6.formatUnits18
|}.

(** ** Sanity of the implementation *)

Lemma ethers_units_examples :
  parseEther "1.5" = inr 1500000000000000000%Z /\ parseEther "0" = inr 0%Z /\
  parseEther ".5" = inr 500000000000000000%Z /\
  parseEther "abc" = inl (Error "invalid FixedNumber string value") /\
  parseEther "" = inl (Error "invalid FixedNumber string value") /\
  parseEther "0.0000000000000000001" = inl (Error "too many decimals for format") /\
  formatEther 1500000000000000000 = "1.5" /\ formatEther 0 = "0.0" /\
  formatEther (-20000000000000000) = "-0.02" /\ formatEther 1000000000000000000000 = "1000.0".
Proof. vm_compute. repeat split. Qed.
