(* ===== verification/State.v ===== *)
(** * The state the services share

    One record per service, with the fields of the TypeScript class:
    - [W3]: the fields of [Web3Service] ([web3.service.ts] lines 19-51):
      [provider] (whether a [BrowserProvider] is held), [signer] (the
      signer's address), [vaultFactoryContract], and the current value of
      each [BehaviorSubject] ([isConnected$], [account$], [networkId$],
      [vaultContract$], [isCorrectNetwork$], [networkName$],
      [walletModalVisible$]);
    - [VS]: the [BehaviorSubject]s of [VaultService]
      ([vault.service.ts] lines 24-29);
    - [Sys]: both services, the page's [localStorage] (a map from keys to
      strings), whether [window.ethereum] is injected, whether the provider
      event handlers are registered, and the clock read by [Date.now()].
    Every update replaces a whole field, as [BehaviorSubject.next] does.
    [M] is the program monad of [Async] over this state and the provider
    boundary of [Provider]; the awaiting helpers turn a rejected answer
    into a thrown error and an answer of the wrong shape into a
    [TypeError]-like error. *)

From S2P Require Import Prelude Js Models Provider Async.
From Stdlib Require Import ZArith String.
Local Open Scope string_scope.

Record W3 : Type := mkW3 {
  provider : bool;
  signer : option string;
  vaultFactoryContract : option contract;
  isConnected : bool;
  account : string;
  networkId : jsnum;
  vaultContract : option contract;
  isCorrectNetwork : bool;
  networkName : string;
  walletModalVisible : bool
}.

Definition set_provider (v : bool) (x : W3) : W3 := mkW3 v (signer x) (vaultFactoryContract x) (isConnected x) (account x) (networkId x) (vaultContract x) (isCorrectNetwork x) (networkName x) (walletModalVisible x).
Definition set_signer (v : option string) (x : W3) : W3 := mkW3 (provider x) v (vaultFactoryContract x) (isConnected x) (account x) (networkId x) (vaultContract x) (isCorrectNetwork x) (networkName x) (walletModalVisible x).
Definition set_vaultFactoryContract (v : option contract) (x : W3) : W3 := mkW3 (provider x) (signer x) v (isConnected x) (account x) (networkId x) (vaultContract x) (isCorrectNetwork x) (networkName x) (walletModalVisible x).
Definition set_isConnected (v : bool) (x : W3) : W3 := mkW3 (provider x) (signer x) (vaultFactoryContract x) v (account x) (networkId x) (vaultContract x) (isCorrectNetwork x) (networkName x) (walletModalVisible x).
Definition set_account (v : string) (x : W3) : W3 := mkW3 (provider x) (signer x) (vaultFactoryContract x) (isConnected x) v (networkId x) (vaultContract x) (isCorrectNetwork x) (networkName x) (walletModalVisible x).
Definition set_networkId (v : jsnum) (x : W3) : W3 := mkW3 (provider x) (signer x) (vaultFactoryContract x) (isConnected x) (account x) v (vaultContract x) (isCorrectNetwork x) (networkName x) (walletModalVisible x).
Definition set_vaultContract (v : option contract) (x : W3) : W3 := mkW3 (provider x) (signer x) (vaultFactoryContract x) (isConnected x) (account x) (networkId x) v (isCorrectNetwork x) (networkName x) (walletModalVisible x).
Definition set_isCorrectNetwork (v : bool) (x : W3) : W3 := mkW3 (provider x) (signer x) (vaultFactoryContract x) (isConnected x) (account x) (networkId x) (vaultContract x) v (networkName x) (walletModalVisible x).
Definition set_networkName (v : string) (x : W3) : W3 := mkW3 (provider x) (signer x) (vaultFactoryContract x) (isConnected x) (account x) (networkId x) (vaultContract x) (isCorrectNetwork x) v (walletModalVisible x).
Definition set_walletModalVisible (v : bool) (x : W3) : W3 := mkW3 (provider x) (signer x) (vaultFactoryContract x) (isConnected x) (account x) (networkId x) (vaultContract x) (isCorrectNetwork x) (networkName x) v.

Record VS : Type := mkVS {
  userVaults : list vault_val;
  publicVaults : list vault_val;
  currentVault : option vault_val;
  transactions : list Transaction;
  loading : bool;
  error : option string
}.

Definition set_userVaults (v : list vault_val) (x : VS) : VS := mkVS v (publicVaults x) (currentVault x) (transactions x) (loading x) (error x).
Definition set_publicVaults (v : list vault_val) (x : VS) : VS := mkVS (userVaults x) v (currentVault x) (transactions x) (loading x) (error x).
Definition set_currentVault (v : option vault_val) (x : VS) : VS := mkVS (userVaults x) (publicVaults x) v (transactions x) (loading x) (error x).
Definition set_transactions (v : list Transaction) (x : VS) : VS := mkVS (userVaults x) (publicVaults x) (currentVault x) v (loading x) (error x).
Definition set_loading (v : bool) (x : VS) : VS := mkVS (userVaults x) (publicVaults x) (currentVault x) (transactions x) v (error x).
Definition set_error (v : option string) (x : VS) : VS := mkVS (userVaults x) (publicVaults x) (currentVault x) (transactions x) (loading x) v.

Record Sys : Type := mkSys {
  w3 : W3;
  vs : VS;
  ls : gmap string string;
  ethereum : bool;
  listening : bool;
  clock : Z
}.

Definition with_w3 (v : W3) (x : Sys) : Sys := mkSys v (vs x) (ls x) (ethereum x) (listening x) (clock x).
Definition with_vs (v : VS) (x : Sys) : Sys := mkSys (w3 x) v (ls x) (ethereum x) (listening x) (clock x).
Definition with_ls (v : gmap string string) (x : Sys) : Sys := mkSys (w3 x) (vs x) v (ethereum x) (listening x) (clock x).
Definition with_ethereum (v : bool) (x : Sys) : Sys := mkSys (w3 x) (vs x) (ls x) v (listening x) (clock x).
Definition with_listening (v : bool) (x : Sys) : Sys := mkSys (w3 x) (vs x) (ls x) (ethereum x) v (clock x).
Definition with_clock (v : Z) (x : Sys) : Sys := mkSys (w3 x) (vs x) (ls x) (ethereum x) (listening x) v.

(** ** Initial values ([new BehaviorSubject(...)] and field initialisers) *)

Definition W3_init : W3 := mkW3 false None None false "" (JInt 0) None false "" false.
Definition VS_init : VS := mkVS [] [] None [] false None.

(** ** The program monad *)

Abbreviation M := (prog Sys req resp err).
Abbreviation Task := (@task Sys req resp err).

Definition upd_w3 (f : W3 -> W3) : M unit := modify (fun s => with_w3 (f (w3 s)) s).
Definition upd_vs (f : VS -> VS) : M unit := modify (fun s => with_vs (f (vs s)) s).
Definition get_w3 {A} (f : W3 -> A) : M A := gets (fun s => f (w3 s)).
Definition get_vs {A} (f : VS -> A) : M A := gets (fun s => f (vs s)).

(** ** localStorage *)

Definition getItem (k : string) : M (option string) := gets (fun s => ls s !! k).
Definition setItem (k v : string) : M unit := modify (fun s => with_ls (<[k := v]> (ls s)) s).
Definition removeItem (k : string) : M unit := modify (fun s => with_ls (delete k (ls s)) s).

(** ** Awaiting an answer *)

Definition bad_answer : err := Error "unexpected answer".

(** [await p]: a rejected promise throws its error. *)
Definition await (r : req) : M resp :=
  bind (call r) (fun x => match x with RError e => Throw e | _ => Ret x end).

Definition await_accounts (r : req) : M (option (list string)) :=
  bind (await r) (fun x => match x with RAccounts a => Ret a | _ => Throw bad_answer end).

Definition await_unit (r : req) : M unit :=
  bind (await r) (fun _ => Ret tt).

Definition await_signer : M string :=
  bind (await GetSigner) (fun x => match x with RSigner a => Ret a | _ => Throw bad_answer end).

Definition await_network : M Z :=
  bind (await GetNetwork) (fun x => match x with RNetwork c => Ret c | _ => Throw bad_answer end).

Definition await_balance (addr : string) : M Z :=
  bind (await (GetBalance addr)) (fun x => match x with RBalance b => Ret b | _ => Throw bad_answer end).

(** ** Getters of [Web3Service] (lines 482-516) *)

Definition getProvider : M bool := get_w3 provider.
Definition getSigner : M (option string) := get_w3 signer.
Definition getAccount : M string := get_w3 account.
Definition getNetworkId : M jsnum := get_w3 networkId.
Definition getVaultFactoryContract : M (option contract) := get_w3 vaultFactoryContract.

(** [this.provider.<meth>()] after an [await]: the field may have been
    reset to [null] meanwhile ([resetState]); the call then throws a
    [TypeError] before any request. *)
Definition null_provider (meth : string) : err :=
  Error ("Cannot read properties of null (reading '" ++ meth ++ "')").

Definition on_provider {A} (meth : string) (k : M A) : M A :=
  bind getProvider (fun p => if p then k else Throw (null_provider meth)).

(** A fresh page: the services' initial fields, empty storage, and
    [window.ethereum] injected or not. *)
Definition page_load (eth : bool) : Sys := mkSys W3_init VS_init ∅ eth false 0.
