(* ===== verification/Gateway.v ===== *)
(** * The contract gateway of [Web3Service]

    The network-dependent part of [web3.service.ts]: the contract
    configuration per network (lines 24-42), [getNetworkName] (379-381),
    [initContracts] (285-310), [switchToTargetNetwork] (241-280),
    [ensureCorrectNetwork] (386-400), [getVaultContract] (422-437) and
    [getTargetNetworkName] (514-516).

    The configuration is a type class, [NetworkConfig], so that the
    theorems hold for any table of networks (the spec states its scenarios
    for several configurations); [tims_config] is the table of the
    repository (Sepolia and Hardhat, target Sepolia).

    Abstract contract ([resolveContracts], spec section 4.2): a network id
    resolves to the factory address configured for its decimal string, or
    fails.  [initContracts_supported] and [initContracts_unsupported] show
    how [initContracts] implements it: on success both the field and the
    observable hold a factory binding at exactly the configured address;
    on failure it throws and the observable is cleared, while the field
    keeps its previous binding. *)

From S2P Require Import Prelude Js Models Provider Async State.
From Stdlib Require Import ZArith String.
Local Open Scope string_scope.

Class NetworkConfig : Type := {
  contractConfig : gmap string string;   (* network id string -> factoryAddress *)
  targetNetworkId : Z;
  networkNames : gmap Z string
}.

(** [Web3Service.contractConfig], [targetNetworkId], [networkNames]. *)
#[export] Instance tims_config : NetworkConfig := {|
  contractConfig :=
    <["11155111" := "0xf1Da8fA04bE703cC52bc8Ac269a439111FeaD838"]>
    (<["31337" := "0x5FbDB2315678afecb367f032d93F642f64180aa3"]> ∅);
  targetNetworkId := 11155111;
  networkNames :=
    <[1%Z := "Ethereum Mainnet"]> (<[11155111%Z := "Sepolia Testnet"]>
    (<[31337%Z := "Hardhat Local"]> ∅))
|}.

Section Gateway.
Context `{NetworkConfig}.

(** The abstract contract: the configured factory of a network id. *)
Definition resolveContracts (n : jsnum) : option string :=
  contractConfig !! num_to_string n.

(** [`0x${this.targetNetworkId.toString(16)}`] *)
Definition targetChainIdHex : string :=
  "0x" ++ num_to_string_radix 16 (JInt targetNetworkId).

(** [networkNames[networkId] || `Red desconocida (${networkId})`] *)
Definition getNetworkName (n : jsnum) : string :=
  let fallback := "Red desconocida (" ++ num_to_string n ++ ")" in
  match n with
  | JInt z => match networkNames !! z with Some nm => str_or nm fallback | None => fallback end
  | JNaN => fallback
  end.

Definition getTargetNetworkName : string := getNetworkName (JInt targetNetworkId).

Definition initContracts (n : jsnum) : M unit :=
  catch
    (bind getSigner (fun sg =>
     match sg with
     | None => Throw (Error "No hay un signer disponible")
     | Some g =>
         match contractConfig !! num_to_string n with
         | None => Throw (Error ("No hay configuración para la red " ++ num_to_string n))
         | Some factoryAddress =>
             let c := mkContract factoryAddress VaultFactoryAbi g in
             bind (upd_w3 (set_vaultFactoryContract (Some c))) (fun _ =>
             upd_w3 (set_vaultContract (Some c)))
         end
     end))
    (fun e => bind (upd_w3 (set_vaultContract None)) (fun _ => Throw e)).

(** The fixed parameters of [wallet_addEthereumChain]. *)
Definition sepoliaChainParams : chain_params :=
  mkChainParams targetChainIdHex "Sepolia Test Network" "SepoliaETH" "ETH" 18
    ["https://rpc.sepolia.org"] ["https://sepolia.etherscan.io/"].

Definition switchToTargetNetwork : M unit :=
  bind (gets ethereum) (fun eth =>
  if negb eth then Ret tt else
  catch (await_unit (WalletSwitchChain targetChainIdHex))
    (fun e =>
       if decide (err_code e = Some 4902%Z) then
         catch (await_unit (WalletAddChain sepoliaChainParams)) (fun addError => Throw addError)
       else Throw e)).

Definition ensureCorrectNetwork : M bool :=
  bind getNetworkId (fun currentNetworkId =>
  if negb (num_eqb currentNetworkId (JInt targetNetworkId)) then
    catch (bind switchToTargetNetwork (fun _ => Ret true)) (fun _ => Ret false)
  else Ret true).

Definition getVaultContract (vaultAddress : string) : M (option contract) :=
  bind getSigner (fun sg =>
  match sg with
  | None => Ret None
  | Some g => Ret (Some (mkContract vaultAddress SingleOwnerVaultAbi g))
  end).
End Gateway.

Arguments getNetworkName : simpl never.

(** ** Theorems *)

Section GatewayProofs.
Context `{NetworkConfig}.

(** The binding [initContracts] installs for factory address [a]. *)
Definition bound_state (c : contract) (s : Sys) : Sys :=
  with_w3 (set_vaultContract (Some c) (set_vaultFactoryContract (Some c) (w3 s))) s.

(** C10. [initContracts] on a network whose configuration exists, with a
    signer: it returns without any request and both the factory field
    and [vaultContract$] hold a factory binding at exactly the
    configured address, bound to the signer. *)
Lemma initContracts_supported n s pool rs g a :
  signer (w3 s) = Some g -> resolveContracts n = Some a ->
  exec rs (initContracts n) s pool =
    mkRun (bound_state (mkContract a VaultFactoryAbi g) s) pool (Returned tt) rs [].
Proof.
  unfold resolveContracts. intros Hg Ha. destruct rs; simpl; by rewrite Hg, Ha.
Qed.

(** C9. [initContracts] on a network without configuration throws the
    "No hay configuración para la red" error ([UnsupportedNetwork]):
    [vaultContract$] is cleared and nothing partial is installed, but
    the factory field keeps the binding it had before. *)
Lemma initContracts_unsupported n s pool rs g :
  signer (w3 s) = Some g -> resolveContracts n = None ->
  exec rs (initContracts n) s pool =
    mkRun (with_w3 (set_vaultContract None (w3 s)) s) pool
      (Raised (Error ("No hay configuración para la red " ++ num_to_string n))) rs [].
Proof.
  unfold resolveContracts. intros Hg Ha. destruct rs; simpl; by rewrite Hg, Ha.
Qed.

Lemma initContracts_no_signer n s pool rs :
  signer (w3 s) = None ->
  exec rs (initContracts n) s pool =
    mkRun (with_w3 (set_vaultContract None (w3 s)) s) pool
      (Raised (Error "No hay un signer disponible")) rs [].
Proof. intros Hg. destruct rs; simpl; by rewrite Hg. Qed.

Lemma switch_no_ethereum s pool rs :
  ethereum s = false ->
  exec rs switchToTargetNetwork s pool = mkRun s pool (Returned tt) rs [].
Proof. intros He. destruct rs; simpl; by rewrite He. Qed.

Lemma switch_accepted s pool x rs :
  ethereum s = true -> is_error x = false ->
  exec (x :: rs) switchToTargetNetwork s pool =
    mkRun s pool (Returned tt) rs [WalletSwitchChain targetChainIdHex].
Proof. intros He Hx. simpl. rewrite He. destruct x; try done; by destruct rs. Qed.

(** C11. When the wallet does not know the target chain (error code
    4902), [switchToTargetNetwork] registers it with the fixed Sepolia
    parameters and returns once the registration is accepted: the
    switch is not retried, unlike what the spec requires. *)
Lemma switch_unknown_chain s pool e y rs :
  ethereum s = true -> err_code e = Some 4902%Z -> is_error y = false ->
  exec (RError e :: y :: rs) switchToTargetNetwork s pool =
    mkRun s pool (Returned tt) rs
      [WalletSwitchChain targetChainIdHex; WalletAddChain sepoliaChainParams].
Proof.
  intros He Hc Hy. simpl. rewrite He. simpl. rewrite decide_True by done.
  destruct y; try done; by destruct rs.
Qed.

Lemma switch_add_rejected s pool e e' rs :
  ethereum s = true -> err_code e = Some 4902%Z ->
  exec (RError e :: RError e' :: rs) switchToTargetNetwork s pool =
    mkRun s pool (Raised e') rs
      [WalletSwitchChain targetChainIdHex; WalletAddChain sepoliaChainParams].
Proof.
  intros He Hc. simpl. rewrite He. simpl. rewrite decide_True by done. by destruct rs.
Qed.

Lemma switch_rejected s pool e rs :
  ethereum s = true -> err_code e <> Some 4902%Z ->
  exec (RError e :: rs) switchToTargetNetwork s pool =
    mkRun s pool (Raised e) rs [WalletSwitchChain targetChainIdHex].
Proof.
  intros He Hc. simpl. rewrite He. simpl. rewrite decide_False by done. by destruct rs.
Qed.
End GatewayProofs.

(** ** Witnesses *)

(** A page whose signer is set. *)
Definition signed_page : Sys := with_w3 (set_signer (Some "0xA11CE") W3_init) (page_load true).

Lemma initContracts_unsupported_witness :
  resolveContracts (JInt 1) = None /\
  exec [] (initContracts (JInt 1)) signed_page [] =
    mkRun (with_w3 (set_vaultContract None (w3 signed_page)) signed_page) []
      (Raised (Error ("No hay configuración para la red " ++ num_to_string (JInt 1)))) [] [].
Proof.
  split; [reflexivity|]. apply (initContracts_unsupported (JInt 1) signed_page [] [] "0xA11CE");
  reflexivity.
Defined.

Lemma initContracts_supported_witness :
  resolveContracts (JInt 31337) = Some "0x5FbDB2315678afecb367f032d93F642f64180aa3" /\
  exec [] (initContracts (JInt 31337)) signed_page [] =
    mkRun (bound_state (mkContract "0x5FbDB2315678afecb367f032d93F642f64180aa3" VaultFactoryAbi "0xA11CE")
             signed_page) [] (Returned tt) [] [].
Proof.
  split; [reflexivity|]. apply initContracts_supported; reflexivity.
Defined.

Lemma switch_unknown_chain_witness :
  exec [RError (mkErr (Some 4902%Z) "Unrecognized chain ID"); RNull] switchToTargetNetwork
    (page_load true) [] =
    mkRun (page_load true) [] (Returned tt) []
      [WalletSwitchChain targetChainIdHex; WalletAddChain sepoliaChainParams].
Proof. apply switch_unknown_chain; reflexivity. Defined.
