(* ===== verification/Observer.v ===== *)
(** * Subscribers of [isConnected$] and simulation up to their effects

    [Web3Service] publishes [isConnected$]; [VaultService] subscribes to
    it in its constructor and reloads the vaults on every [true].  The
    session is modelled against the interface [Observer]: the program a
    [next] runs synchronously, which promises ([observers_frame]) to
    return at once and to leave the session state alone, i.e. to change
    the state only up to [sess_eq] (same [Web3Service] fields, storage and
    window; the vault service's fields and the clock may differ).

    [psim p1 p2] says that two programs behave the same up to [sess_eq]:
    run from equivalent states against the same answers, they make the
    same requests, consume the same answers, end with the same status and
    in equivalent states.  It is closed under [bind], [catch] and every
    primitive ([psim_bind], [psim_catch], ...), and a framing program
    simulates [Ret tt] ([psim_frame_ret]).  [Session] uses it to show that
    each session operation with any subscriber simulates the same
    operation with none, so that its theorems, proved by computation
    without subscriber, hold for every subscriber. *)

From S2P Require Import Prelude Js Models Provider Async State Gateway.
From Stdlib Require Import ZArith String Morphisms RelationClasses.
Local Open Scope tims_scope.

(** ** Equivalence of states up to the subscribers' effects *)

Definition sess_eq (s1 s2 : Sys) : Prop :=
  w3 s1 = w3 s2 /\ ls s1 = ls s2 /\ ethereum s1 = ethereum s2 /\ listening s1 = listening s2.

Infix "≈ₛ" := sess_eq (at level 70) : tims_scope.

#[export] Instance sess_eq_equiv : Equivalence sess_eq.
Proof.
  split.
  - intros s. repeat split.
  - intros s1 s2 (? & ? & ? & ?). repeat split; done.
  - intros s1 s2 s3 (? & ? & ? & ?) (? & ? & ? & ?). repeat split; congruence.
Qed.

#[export] Instance with_w3_proper : Proper (eq ==> sess_eq ==> sess_eq) with_w3.
Proof. intros w ? <- s1 s2 (? & ? & ? & ?). repeat split; simpl; done. Qed.

#[export] Instance with_ls_proper : Proper (eq ==> sess_eq ==> sess_eq) with_ls.
Proof. intros l ? <- s1 s2 (? & ? & ? & ?). repeat split; simpl; done. Qed.

#[export] Instance with_vs_proper v : Proper (sess_eq ==> sess_eq) (with_vs v).
Proof. intros s1 s2 (? & ? & ? & ?). repeat split; simpl; done. Qed.

#[export] Instance with_listening_proper : Proper (eq ==> sess_eq ==> sess_eq) with_listening.
Proof. intros l ? <- s1 s2 (? & ? & ? & ?). repeat split; simpl; done. Qed.

Lemma sess_eq_w3 s1 s2 : s1 ≈ₛ s2 -> w3 s1 = w3 s2.
Proof. by intros (? & ? & ? & ?). Qed.
Lemma sess_eq_ls s1 s2 : s1 ≈ₛ s2 -> ls s1 = ls s2.
Proof. by intros (? & ? & ? & ?). Qed.
Lemma sess_eq_ethereum s1 s2 : s1 ≈ₛ s2 -> ethereum s1 = ethereum s2.
Proof. by intros (? & ? & ? & ?). Qed.
Lemma sess_eq_listening s1 s2 : s1 ≈ₛ s2 -> listening s1 = listening s2.
Proof. by intros (? & ? & ? & ?). Qed.

(** ** The subscriber interface *)

(** A program that returns at once and changes the state only up to [≈ₛ]. *)
Definition frames (p : M unit) : Prop :=
  forall s pool, exists s' pool', advance p s pool = (s', pool', Returned tt) /\ s' ≈ₛ s.

Class Observer : Type := {
  isConnected_observers : bool -> M unit;
  observers_frame : forall b, frames (isConnected_observers b)
}.

(** No subscriber at all. *)
Definition no_observers : Observer.
Proof.
  refine {| isConnected_observers := fun _ => Ret tt |}.
  intros b s pool. exists s, pool. split; [done | reflexivity].
Defined.

(** ** Simulation up to [≈ₛ] *)

Definition status_rel {A} (st1 st2 : status Sys req resp err A) : Prop :=
  match st1, st2 with
  | Returned a, Returned b => a = b
  | Raised e, Raised e' => e = e'
  | Waiting r _, Waiting r' _ => r = r'
  | _, _ => False
  end.

Definition run_rel {A} (r1 r2 : run Sys req resp err A) : Prop :=
  run_state r1 ≈ₛ run_state r2 /\ status_rel (run_status r1) (run_status r2) /\
  run_rest r1 = run_rest r2 /\ run_calls r1 = run_calls r2.

Definition psim {A} (p1 p2 : M A) : Prop :=
  forall rs s1 s2 pool1 pool2, s1 ≈ₛ s2 -> run_rel (exec rs p1 s1 pool1) (exec rs p2 s2 pool2).

Section psim_lemmas.
Context {A : Type}.

Lemma run_rel_add_calls {B} tr (r1 r2 : run Sys req resp err B) :
  run_rel r1 r2 -> run_rel (add_calls tr r1) (add_calls tr r2).
Proof. intros (? & ? & ? & Hc). unfold run_rel, add_calls; simpl. by rewrite Hc. Qed.

Lemma run_rel_mk {B} s1 s2 p1 p2 (st1 st2 : status Sys req resp err B) rs tr :
  s1 ≈ₛ s2 -> status_rel st1 st2 -> run_rel (mkRun s1 p1 st1 rs tr) (mkRun s2 p2 st2 rs tr).
Proof. intros Hs Hst. split; [exact Hs|]. by split. Qed.

Lemma psim_ret (a : A) : psim (Ret a) (Ret a).
Proof. intros rs s1 s2 pool1 pool2 Hs. rewrite !exec_ret. by apply run_rel_mk. Qed.

Lemma psim_throw e : psim (Throw (A:=A) e) (Throw e).
Proof. intros rs s1 s2 pool1 pool2 Hs. rewrite !exec_throw. by apply run_rel_mk. Qed.

Lemma psim_get (k1 k2 : Sys -> M A) :
  (forall s1 s2, s1 ≈ₛ s2 -> psim (k1 s1) (k2 s2)) -> psim (Get k1) (Get k2).
Proof. intros Hk rs s1 s2 pool1 pool2 Hs. rewrite !exec_get. by apply Hk. Qed.

Lemma psim_put s1' s2' (k1 k2 : M A) :
  s1' ≈ₛ s2' -> psim k1 k2 -> psim (Put s1' k1) (Put s2' k2).
Proof. intros Hs' Hk rs s1 s2 pool1 pool2 Hs. rewrite !exec_put. by apply Hk. Qed.

Lemma psim_call r (k1 k2 : resp -> M A) :
  (forall x, psim (k1 x) (k2 x)) -> psim (Call r k1) (Call r k2).
Proof.
  intros Hk [|x rs] s1 s2 pool1 pool2 Hs.
  - rewrite !exec_call_nil. by apply run_rel_mk.
  - rewrite !exec_call. apply run_rel_add_calls. by apply Hk.
Qed.

(** The synchronous prefix of a spawned task is what [exec []] runs. *)
Lemma exec_nil_advance {B} (p : M B) s pool :
  exec [] p s pool = let '(s1, pool1, st) := advance p s pool in mkRun s1 pool1 st [] [].
Proof. simpl. by destruct (advance p s pool) as [[? ?] [| |]]. Qed.

Lemma psim_spawn sl (t1 t2 : M unit) (k1 k2 : M A) :
  psim t1 t2 -> psim k1 k2 -> psim (Spawn sl t1 k1) (Spawn sl t2 k2).
Proof.
  intros Ht Hk rs s1 s2 pool1 pool2 Hs. rewrite !exec_spawn.
  specialize (Ht [] s1 s2 (kill sl pool1) (kill sl pool2) Hs). rewrite !exec_nil_advance in Ht.
  destruct (advance t1 s1 _) as [[s1' p1'] st1], (advance t2 s2 _) as [[s2' p2'] st2].
  destruct Ht as (Hs' & _). by apply Hk.
Qed.

Lemma psim_bind {B} (p1 p2 : M B) (f1 f2 : B -> M A) :
  psim p1 p2 -> (forall b, psim (f1 b) (f2 b)) -> psim (bind p1 f1) (bind p2 f2).
Proof.
  intros Hp Hf rs s1 s2 pool1 pool2 Hs. rewrite !exec_bind.
  specialize (Hp rs s1 s2 pool1 pool2 Hs).
  destruct (exec rs p1 s1 pool1) as [s1' q1 st1 rs1 tr1],
    (exec rs p2 s2 pool2) as [s2' q2 st2 rs2 tr2].
  destruct Hp as (Hs' & Hst & Hrs & Htr); simpl in *; subst.
  destruct st1, st2; simpl in Hst; try done; subst.
  all: first [apply run_rel_add_calls; by apply Hf | by apply run_rel_mk].
Qed.

Lemma psim_catch (p1 p2 : M A) (h1 h2 : err -> M A) :
  psim p1 p2 -> (forall e, psim (h1 e) (h2 e)) -> psim (catch p1 h1) (catch p2 h2).
Proof.
  intros Hp Hh rs s1 s2 pool1 pool2 Hs. rewrite !exec_catch.
  specialize (Hp rs s1 s2 pool1 pool2 Hs).
  destruct (exec rs p1 s1 pool1) as [s1' q1 st1 rs1 tr1],
    (exec rs p2 s2 pool2) as [s2' q2 st2 rs2 tr2].
  destruct Hp as (Hs' & Hst & Hrs & Htr); simpl in *; subst.
  destruct st1, st2; simpl in Hst; try done; subst.
  all: first [apply run_rel_add_calls; by apply Hh | by apply run_rel_mk].
Qed.

(** A framing program may be erased. *)
Lemma psim_frame_ret p : frames p -> psim p (Ret tt).
Proof.
  intros Hf rs s1 s2 pool1 pool2 Hs. rewrite exec_unfold, exec_ret.
  destruct (Hf s1 pool1) as (s' & pool' & -> & Hs'). apply run_rel_mk; [by rewrite Hs' | done].
Qed.
End psim_lemmas.

(** ** Primitive operations on the session state simulate themselves *)

Lemma psim_modify (f : Sys -> Sys) :
  Proper (sess_eq ==> sess_eq) f -> psim (modify f) (modify f).
Proof.
  intros Hf. apply psim_get. intros s1 s2 Hs. apply psim_put; [by apply Hf | apply psim_ret].
Qed.

Lemma psim_gets {B} (f : Sys -> B) :
  (forall s1 s2, s1 ≈ₛ s2 -> f s1 = f s2) -> psim (gets f) (gets f).
Proof. intros Hf. apply psim_get. intros s1 s2 Hs. rewrite (Hf s1 s2 Hs). apply psim_ret. Qed.

Lemma psim_upd_w3 f : psim (upd_w3 f) (upd_w3 f).
Proof.
  apply psim_modify. intros s1 s2 Hs. rewrite (sess_eq_w3 _ _ Hs). by apply with_w3_proper.
Qed.

Lemma psim_get_w3 {B} (f : W3 -> B) : psim (get_w3 f) (get_w3 f).
Proof. apply psim_gets. intros s1 s2 Hs. by rewrite (sess_eq_w3 _ _ Hs). Qed.

Lemma psim_ethereum : psim (gets ethereum) (gets ethereum).
Proof. apply psim_gets. apply sess_eq_ethereum. Qed.

Lemma psim_getItem k : psim (getItem k) (getItem k).
Proof. apply psim_gets. intros s1 s2 Hs. by rewrite (sess_eq_ls _ _ Hs). Qed.

Lemma psim_setItem k v : psim (setItem k v) (setItem k v).
Proof.
  apply psim_modify. intros s1 s2 Hs. rewrite (sess_eq_ls _ _ Hs). by apply with_ls_proper.
Qed.

Lemma psim_removeItem k : psim (removeItem k) (removeItem k).
Proof.
  apply psim_modify. intros s1 s2 Hs. rewrite (sess_eq_ls _ _ Hs). by apply with_ls_proper.
Qed.

Lemma psim_listen : psim (modify (with_listening true)) (modify (with_listening true)).
Proof. apply psim_modify. intros s1 s2 Hs. by apply with_listening_proper. Qed.

Lemma psim_call_ret r : psim (call r) (call r).
Proof. apply psim_call. intros x. apply psim_ret. Qed.

(** A subscriber, erased. *)
Lemma psim_observers `{Observer} b :
  psim (isConnected_observers b) (@isConnected_observers no_observers b).
Proof. apply psim_frame_ret, observers_frame. Qed.

Create HintDb psim.
#[export] Hint Resolve psim_ret psim_throw psim_upd_w3 psim_get_w3 psim_ethereum
  psim_getItem psim_setItem psim_removeItem psim_listen psim_call_ret psim_observers : psim.

(** Prove [psim p1 p2] for two programs written alike, up to subscribers:
    decompose binds, handlers, spawns, requests and branches, and close
    the leaves with the [psim] hints. *)
Ltac psim_auto :=
  repeat match goal with
  | |- psim _ _ => first
      [ solve [eauto with psim]
      | apply psim_bind; [|intros ?; cbv beta iota zeta]
      | apply psim_catch; [|intros ?; cbv beta iota zeta]
      | apply psim_spawn
      | apply psim_call; intros ?; cbv beta iota zeta
      | case_match; cbv beta iota zeta ]
  end.

Lemma psim_await r : psim (await r) (await r).
Proof. unfold await. psim_auto. Qed.
#[export] Hint Resolve psim_await : psim.

Lemma psim_await_accounts r : psim (await_accounts r) (await_accounts r).
Proof. unfold await_accounts. psim_auto. Qed.
Lemma psim_await_unit r : psim (await_unit r) (await_unit r).
Proof. unfold await_unit. psim_auto. Qed.
Lemma psim_await_signer : psim await_signer await_signer.
Proof. unfold await_signer. psim_auto. Qed.
Lemma psim_await_network : psim await_network await_network.
Proof. unfold await_network. psim_auto. Qed.
Lemma psim_await_balance a : psim (await_balance a) (await_balance a).
Proof. unfold await_balance. psim_auto. Qed.
Lemma psim_getSigner : psim getSigner getSigner.
Proof. apply psim_get_w3. Qed.
Lemma psim_getProvider : psim getProvider getProvider.
Proof. apply psim_get_w3. Qed.
Lemma psim_getNetworkId : psim getNetworkId getNetworkId.
Proof. apply psim_get_w3. Qed.
Lemma psim_getAccount : psim getAccount getAccount.
Proof. apply psim_get_w3. Qed.
Lemma psim_getVaultFactoryContract : psim getVaultFactoryContract getVaultFactoryContract.
Proof. apply psim_get_w3. Qed.
#[export] Hint Resolve psim_await_accounts psim_await_unit psim_await_signer psim_await_network
  psim_await_balance psim_getSigner psim_getProvider psim_getNetworkId psim_getAccount
  psim_getVaultFactoryContract : psim.

Lemma psim_on_provider {A} m (k k' : M A) : psim k k' -> psim (on_provider m k) (on_provider m k').
Proof. intros Hk. unfold on_provider. psim_auto. Qed.
#[export] Hint Resolve psim_on_provider : psim.

(** The gateway's operations do not involve the subscribers. *)
Section GatewaySim.
Context `{NetworkConfig}.

Lemma psim_initContracts n : psim (initContracts n) (initContracts n).
Proof. unfold initContracts. psim_auto. Qed.
Lemma psim_switchToTargetNetwork : psim switchToTargetNetwork switchToTargetNetwork.
Proof. unfold switchToTargetNetwork. psim_auto. Qed.
Lemma psim_ensureCorrectNetwork : psim ensureCorrectNetwork ensureCorrectNetwork.
Proof. unfold ensureCorrectNetwork. psim_auto. Qed.
Lemma psim_getVaultContract a : psim (getVaultContract a) (getVaultContract a).
Proof. unfold getVaultContract. psim_auto. Qed.
End GatewaySim.
#[export] Hint Resolve psim_initContracts psim_switchToTargetNetwork psim_ensureCorrectNetwork
  psim_getVaultContract : psim.

(** The run of two simulating programs: same status, requests and answers
    consumed, and the same session fields, storage and window. *)
Lemma psim_run {A} (p1 p2 : M A) rs s pool1 pool2 :
  psim p1 p2 ->
  let r1 := exec rs p1 s pool1 in let r2 := exec rs p2 s pool2 in
  status_rel (run_status r1) (run_status r2) /\ run_calls r1 = run_calls r2 /\
  run_rest r1 = run_rest r2 /\ w3 (run_state r1) = w3 (run_state r2) /\
  ls (run_state r1) = ls (run_state r2) /\ ethereum (run_state r1) = ethereum (run_state r2) /\
  listening (run_state r1) = listening (run_state r2).
Proof.
  intros H. destruct (H rs s s pool1 pool2 ltac:(reflexivity)) as ((? & ? & ? & ?) & ? & ? & ?).
  done.
Qed.

Lemma status_rel_returned {A} (st : status Sys req resp err A) a :
  status_rel st (Returned a) -> st = Returned a.
Proof. destruct st; simpl; intros; subst; done. Qed.

Lemma status_rel_raised {A} (st : status Sys req resp err A) e :
  status_rel st (Raised e) -> st = Raised e.
Proof. destruct st; simpl; intros; subst; done. Qed.

Lemma status_rel_is_raised {A} (st1 st2 : status Sys req resp err A) :
  status_rel st1 st2 -> is_Raised st1 -> is_Raised st2.
Proof. destruct st1, st2; simpl; done. Qed.
