(* ===== verification/Invariant.v ===== *)
(** * Invariants at suspension points

    The page runs one synchronous segment at a time: a task runs until it
    awaits a request or ends, and only then can another task, a provider
    event or a user action run.  An invariant of the page need only hold
    between segments; inside one, the code may break it for a few
    statements (as [readNetwork] does between [networkId$.next] and
    [isCorrectNetwork$.next]).

    [ok I p s] (by recursion on [p]): run from [s], the program [p] reaches its next suspension
    or its end in a state satisfying [I], and every continuation it leaves
    behind does the same from any state satisfying [I].  [ok_inv I p]
    says it of every start state satisfying [I].  The predicate is closed
    under [bind], [catch] and [mapM] ([ok_bind], [ok_catch], [ok_mapM]);
    [advance_ok] shows that running a segment keeps [I] and leaves only
    such continuations in the task pool ([pool_ok]).

    For an invariant of the session alone ([sess_inv]: one that holds of
    a state as soon as it holds of an equivalent one), the updates of the
    vault service's fields keep it ([ok_upd_vs]). *)

From S2P Require Import Prelude Js Models Provider Async State Observer.
From Stdlib Require Import ZArith String.
Local Open Scope tims_scope.

Section Ok.
Context (I : Sys -> Prop).

Fixpoint ok {A : Type} (p : M A) (s : Sys) {struct p} : Prop :=
  match p with
  | Ret _ | Throw _ => I s
  | Get k => ok (k s) s
  | Put s' k => ok k s'
  | Call _ k => I s /\ forall x s', I s' -> ok (k x) s'
  | Spawn _ t k => ok t s /\ forall s', I s' -> ok k s'
  end.

Definition ok_inv {A} (p : M A) : Prop := forall s, I s -> ok p s.

(** A suspended task keeps the invariant from any state that has it. *)
Definition task_ok (t : task) : Prop := ok_inv (snd t).

Definition pool_ok (pool : list task) : Prop := Forall task_ok pool.

Definition status_ok {A} (st : status Sys req resp err A) : Prop :=
  match st with
  | Waiting _ k => forall x, ok_inv (k x)
  | _ => True
  end.

Lemma pool_ok_kill sl pool : pool_ok pool -> pool_ok (kill sl pool).
Proof.
  intros H. apply List.Forall_forall. intros x Hx. apply List.filter_In in Hx as [Hx _].
  by eapply List.Forall_forall in H.
Qed.

Lemma pool_ok_park sl (st : status Sys req resp err unit) pool :
  status_ok st -> pool_ok pool -> pool_ok (park sl st pool).
Proof.
  intros Hst Hp. destruct st as [| |r k]; simpl; try done.
  apply Forall_app; split; [done|]. constructor; [|done].
  intros s Hs. split; [done|]. intros x s' Hs'. by apply Hst.
Qed.

(** Running a segment keeps the invariant and the pool's. *)
Lemma advance_ok {A} (p : M A) s pool :
  ok p s -> pool_ok pool ->
  let '(s', pool', st) := advance p s pool in I s' /\ pool_ok pool' /\ status_ok st.
Proof.
  revert s pool. induction p as [A a|A e|A k IH|A s' k IH|A r k IH|A sl t IHt k IHk]; intros s pool Hp Hpool;
    simpl in *.
  - done.
  - done.
  - by apply IH.
  - by apply IH.
  - destruct Hp as [Hs Hk]. split_and!; [done|done|]. intros x s' Hs'. by apply Hk.
  - destruct Hp as [Ht Hk]. specialize (IHt s (kill sl pool) Ht (pool_ok_kill _ _ Hpool)).
    destruct (advance t s (kill sl pool)) as [[s1 pool1] st1].
    destruct IHt as (Hs1 & Hp1 & Hst1). apply IHk; [by apply Hk|]. by apply pool_ok_park.
Qed.

(** ** Closure *)

Lemma ok_bind {A B} (p : M A) (k : A -> M B) s :
  ok p s -> (forall a, ok_inv (k a)) -> ok (bind p k) s.
Proof.
  intros H Hk. revert s H. induction p as [A a|A e|A k' IH|A s' k' IH|A r k' IH|A sl t _ k' IH];
    intros s H; simpl in *.
  - by apply Hk.
  - done.
  - by apply IH.
  - by apply IH.
  - destruct H as [Hs Hk']. split; [done|]. intros x s' Hs'. by apply IH, Hk'.
  - destruct H as [Ht Hk']. split; [done|]. intros s' Hs'. by apply IH, Hk'.
Qed.

Lemma ok_inv_bind {A B} (p : M A) (k : A -> M B) :
  ok_inv p -> (forall a, ok_inv (k a)) -> ok_inv (bind p k).
Proof. intros Hp Hk s Hs. apply ok_bind; auto. Qed.

Lemma ok_catch {A} (p : M A) h s :
  ok p s -> (forall e, ok_inv (h e)) -> ok (catch p h) s.
Proof.
  intros H Hh. revert s H. induction p as [A a|A e|A k' IH|A s' k' IH|A r k' IH|A sl t _ k' IH];
    intros s H; simpl in *.
  - done.
  - by apply Hh.
  - by apply IH.
  - by apply IH.
  - destruct H as [Hs Hk']. split; [done|]. intros x s' Hs'. by apply IH, Hk'.
  - destruct H as [Ht Hk']. split; [done|]. intros s' Hs'. by apply IH, Hk'.
Qed.

Lemma ok_inv_catch {A} (p : M A) h :
  ok_inv p -> (forall e, ok_inv (h e)) -> ok_inv (catch p h).
Proof. intros Hp Hh s Hs. apply ok_catch; auto. Qed.

Lemma ok_inv_ret {A} (a : A) : ok_inv (Ret a).
Proof. by intros s Hs. Qed.

Lemma ok_inv_throw {A} e : ok_inv (Throw (A:=A) e).
Proof. by intros s Hs. Qed.

Lemma ok_inv_call r : ok_inv (call r).
Proof. intros s Hs. by split. Qed.

Lemma ok_inv_gets {A} (f : Sys -> A) : ok_inv (gets f).
Proof. by intros s Hs. Qed.

Lemma ok_inv_spawn sl t : ok_inv t -> ok_inv (spawn sl t).
Proof. intros Ht s Hs. split; [by apply Ht|]. by intros s' Hs'. Qed.

Lemma ok_inv_mapM {A B} (f : A -> M B) l :
  (forall a, ok_inv (f a)) -> ok_inv (mapM f l).
Proof.
  intros Hf. induction l as [|a l IH]; cbn [mapM].
  - apply ok_inv_ret.
  - rewrite prog_mbind. apply ok_inv_bind; [done|]. intros b.
    rewrite prog_mbind. apply ok_inv_bind; [done|]. intros bs. apply ok_inv_ret.
Qed.

(** An update that keeps the invariant. *)
Lemma ok_inv_modify f : (forall s, I s -> I (f s)) -> ok_inv (modify f).
Proof. intros Hf s Hs. simpl. by apply Hf. Qed.
End Ok.

(** ** Invariants of the session *)

Definition sess_inv (I : Sys -> Prop) : Prop := forall s1 s2, s1 ≈ₛ s2 -> I s1 -> I s2.

Lemma ok_inv_upd_vs I f : sess_inv I -> ok_inv I (upd_vs f).
Proof.
  intros HI. apply ok_inv_modify. intros s Hs. apply (HI s); [|done]. by repeat split.
Qed.

Create HintDb ok.
#[export] Hint Resolve ok_inv_ret ok_inv_throw ok_inv_call ok_inv_gets ok_inv_spawn
  ok_inv_upd_vs : ok.
#[export] Hint Unfold on_provider get_w3 get_vs getProvider getSigner getAccount getVaultFactoryContract
  getNetworkId getItem await await_accounts await_unit await_signer await_network
  await_balance : ok.

(** Follow a program's structure through binds, handlers and branches,
    closing the primitive steps with the [ok] hints. *)
Ltac ok_auto :=
  repeat first
    [ solve [eauto with ok]
    | apply ok_inv_bind; [|intros ?]
    | apply ok_inv_catch; [|intros ?]
    | apply ok_inv_mapM; intros ?
    | apply ok_inv_spawn
    | progress (autounfold with ok)
    | progress cbv zeta
    | case_match ].
