(* ===== verification/VaultSvc.v ===== *)
(** * The vault service

    [src/src/app/services/vault.service.ts]: the operations of
    [VaultService] over the fields of [State.VS] ([userVaults$],
    [publicVaults$], [currentVault$], [transactions$], [loading$],
    [error$]) and the session getters of [Web3Service].

    An operation returns an [Observable] that the components subscribe to
    at once; its model is the program of the call followed by the
    subscription: the synchronous prefix (the [setLoading(true)],
    [setError(null)], the guards and the first contract call, all run
    when the method is called), then the pipeline.  The pipeline's
    operators map to the monad: [from(promise)] and [switchMap(tx =>
    from(tx.wait()))] are awaited requests ([submit]); [map] and [tap]
    continue the program; [catchError(e => ...)] is [catch];
    [tap(() => this.setLoading(false))] after it runs on both paths
    ([settle]); [x.subscribe()] inside a pipeline starts a task that
    nobody awaits ([subscribe]).

    [forkJoin] over the detail reads: every [getVaultDetails] captures
    the provider and signer when it is created, and the reads are
    answered in the order of the addresses ([forkJoin_details]).  The
    code issues every read before any answer; the model awaits them one
    after the other, with the same requests in the same order.

    The subscription of the constructor ([switchMap] on [isConnected$])
    is [vaultService_subscription]: on every emission it cancels the
    inner pipeline still running (slot 0 of the task pool) and, on
    [true], starts [loadUserVaults]; [vault_observer] packages it as the
    [Observer] of the session.  [VaultListComponent.ngOnInit] subscribes
    to [isConnected$] too and starts another, uncancelled
    [loadUserVaults] on every [true]: that subscriber is not part of
    [vault_observer], so the page theorems hold for the routes without
    the list component. *)

From S2P Require Import Prelude Js Models Provider Ethers Async State Observer Invariant.
From Stdlib Require Import ZArith String.
Local Open Scope string_scope.
Local Open Scope tims_scope.

(** The argument [{ name, description, category, imageURI }] of
    [updateVaultMetadata]. *)
Record MetadataUpdate : Type := mkMetadataUpdate {
  mu_name : string;
  mu_description : string;
  mu_category : string;
  mu_imageURI : string
}.

(** A JS object is truthy, the empty placeholder [{}] included. *)
Definition vault_truthy (v : vault_val) : bool := true.

Section VaultService.
Context {units : EtherUnits}.

Definition setLoading (loading : bool) : M unit := upd_vs (set_loading loading).
Definition setError (error : option string) : M unit := upd_vs (set_error error).

(** The early return of a guard: [setError(msg); setLoading(false);
    return of(fallback)]. *)
Definition fail_early {A} (msg : string) (fallback : A) : M A :=
  setError (Some msg);; setLoading false;; Ret fallback.

(** [.pipe(..., catchError(error => { setError(`${prefix}${error.message
    || error}`); return of(fallback) }), tap(() => setLoading(false)))] *)
Definition settle {A} (body : M A) (prefix : string) (fallback : A) : M A :=
  v <- catch body (fun e => setError (Some (prefix ++ err_text e));; Ret fallback) ;;
  setLoading false;;
  Ret v.

(** [p.subscribe()]: a task nobody waits for. *)
Definition subscribe {A} (p : M A) : M unit := spawn None (p;; Ret tt).

(** [from(contract[meth](...args, {value}))] then
    [switchMap(tx => from(tx.wait()))]: the receipt. *)
Definition submit (c : contract) (meth : string) (args : list abi_val) (value : option Z)
    : M receipt :=
  x <- await (ContractCall c meth args value) ;;
  hash <- (match x with RTx h => Ret h | _ => Throw bad_answer end) ;;
  y <- await (TxWait hash) ;;
  match y with RReceipt rc => Ret rc | _ => Throw bad_answer end.

(** The [map] of [getVaultDetails]: the tuple of [getVaultInfo()] as a
    [Vault]. *)
Definition vault_of_info (vaultAddress : string) (info : vault_info) : Vault :=
  mkVault vaultAddress (vi_owner info) (formatEther (vi_balance info))
    (mkVaultMetadata (vi_name info) (vi_description info) (vi_category info)
       (vi_imageURI info) (formatEther (vi_target info)) (vi_isPublic info))
    (mapVaultTypeFromNumber (vi_vaultType info)) None None
    (Some (formatEther (vi_totalDeposited info))) (Some (vi_isActive info)).

(** The synchronous part of [getVaultDetails]: the vault binding, if a
    provider and a signer exist when it is called. *)
Definition getVaultDetails_start (vaultAddress : string) : M (option contract) :=
  provider <- getProvider ;;
  signer <- getSigner ;;
  match provider, signer with
  | true, Some g => Ret (Some (mkContract vaultAddress SingleOwnerVaultAbi g))
  | _, _ => Ret None
  end.

(** Its pipeline: the read, or the placeholder [{}] on any failure. *)
Definition getVaultDetails_finish (vaultAddress : string) (vault : option contract)
    : M vault_val :=
  match vault with
  | None => Ret VaultEmpty
  | Some c =>
      catch
        (x <- await (ContractCall c "getVaultInfo" [] None) ;;
         match x with
         | RVaultInfo info => Ret (VaultFull (vault_of_info vaultAddress info))
         | _ => Throw bad_answer
         end)
        (fun _ => Ret VaultEmpty)
  end.

Definition getVaultDetails (vaultAddress : string) : M vault_val :=
  c <- getVaultDetails_start vaultAddress ;;
  getVaultDetails_finish vaultAddress c.

(** [forkJoin(vaultAddresses.map(address => this.getVaultDetails(address)))] *)
Definition forkJoin_details (vaultAddresses : list string) : M (list vault_val) :=
  started <- mapM (fun a => c <- getVaultDetails_start a ;; Ret (a, c)) vaultAddresses ;;
  mapM (fun '(a, c) => getVaultDetails_finish a c) started.

(** The [switchMap] on the addresses: no detail read for none. *)
Definition details_of (vaultAddresses : list string) : M (list vault_val) :=
  match vaultAddresses with
  | [] => Ret []
  | _ => forkJoin_details vaultAddresses
  end.

Definition as_addresses (x : resp) : M (list string) :=
  match x with RAddresses l => Ret l | _ => Throw bad_answer end.

Definition loadUserVaults : M (list vault_val) :=
  setLoading true;;
  setError None;;
  account <- getAccount ;;
  if negb (str_truthy account) then fail_early "No hay una cuenta conectada" [] else
  factory <- getVaultFactoryContract ;;
  match factory with
  | None => fail_early "No se ha inicializado el contrato factory" []
  | Some f =>
      settle
        (x <- await (ContractCall f "getVaultsByOwner" [AAddr account] None) ;;
         vaultAddresses <- as_addresses x ;;
         vaults <- details_of vaultAddresses ;;
         upd_vs (set_userVaults vaults);;
         Ret vaults)
        "Error al cargar vaults: " []
  end.

Definition loadPublicVaults : M (list vault_val) :=
  setLoading true;;
  setError None;;
  factory <- getVaultFactoryContract ;;
  match factory with
  | None => fail_early "No se ha inicializado el contrato factory" []
  | Some f =>
      settle
        (x <- await (ContractCall f "getPublicVaults" [] None) ;;
         vaultAddresses <- as_addresses x ;;
         vaults <- details_of vaultAddresses ;;
         upd_vs (set_publicVaults vaults);;
         Ret vaults)
        "Error al cargar vaults públicos: " []
  end.

(** [loadVaultTransactions]: a placeholder that publishes no
    transaction when a provider exists. *)
Definition loadVaultTransactions (vaultAddress : string) : M (list Transaction) :=
  provider <- getProvider ;;
  if negb provider then Ret [] else
  upd_vs (set_transactions []);;
  Ret [].

Definition loadVaultDetails (vaultAddress : string) : M (option vault_val) :=
  setLoading true;;
  setError None;;
  settle
    (vault <- getVaultDetails vaultAddress ;;
     (if vault_truthy vault then
        upd_vs (set_currentVault (Some vault));;
        subscribe (loadVaultTransactions vaultAddress)
      else Ret tt);;
     Ret (Some vault))
    "Error al cargar detalles: " None.

Definition is_vaultCreated (parsedLog : parsed_log) : bool :=
  match parsedLog with Parsed name _ => String.eqb name "VaultCreated" | _ => false end.

(** [receipt.logs.map(log => parseLog(log) or null).find(parsedLog =>
    parsedLog && parsedLog.name === 'VaultCreated')], then
    [event.args.vaultAddress] when truthy. *)
Definition vaultCreated_address (logs : list parsed_log) : option string :=
  match List.find is_vaultCreated logs with
  | Some (Parsed _ (Some vaultAddress)) =>
      if str_truthy vaultAddress then Some vaultAddress else None
  | _ => None
  end.

Definition createSingleOwnerVault (request : CreateVaultRequest) : M string :=
  setLoading true;;
  setError None;;
  factory <- getVaultFactoryContract ;;
  match factory with
  | None => fail_early "No se ha inicializado el contrato factory" ""
  | Some f =>
      let md := req_metadata request in
      match parseEther (str_or (md_target md) "0") with
      | inl e => Throw e
      | inr targetAmount =>
          settle
            (receipt <- submit f "createSingleOwnerVault"
                [AStr (md_name md); AStr (md_description md); AStr (md_category md);
                 AStr (md_imageURI md); ABool (md_isPublic md); AUint targetAmount] None ;;
             match vaultCreated_address (rc_logs receipt) with
             | Some vaultAddress =>
                 subscribe loadUserVaults;;
                 Ret vaultAddress
             | None => Throw (Error "No se pudo obtener la dirección del vault creado")
             end)
            "Error al crear vault: " ""
      end
  end.

Definition depositToVault (vaultAddress amount : string) : M (option Transaction) :=
  setLoading true;;
  setError None;;
  signer <- getSigner ;;
  match signer with
  | None => fail_early "No hay un signer disponible" None
  | Some g =>
      match parseEther amount with
      | inl error => fail_early ("Error al preparar el depósito: " ++ err_text error) None
      | inr amountWei =>
          let vault := mkContract vaultAddress SingleOwnerVaultAbi g in
          settle
            (receipt <- submit vault "deposit" [] (Some amountWei) ;;
             now <- gets clock ;;
             from <- getAccount ;;
             let transaction :=
               mkTransaction (rc_hash receipt) TxDeposit Confirmed (now / 1000) (Some amount)
                 from None vaultAddress (Some (rc_blockNumber receipt))
                 (Some (rc_blockHash receipt)) in
             subscribe (loadVaultDetails vaultAddress);;
             Ret (Some transaction))
            "Error al depositar: " None
      end
  end.

Definition withdrawFromVault (vaultAddress recipient amount : string) : M (option Transaction) :=
  setLoading true;;
  setError None;;
  signer <- getSigner ;;
  match signer with
  | None => fail_early "No hay un signer disponible" None
  | Some g =>
      match parseEther amount with
      | inl error => fail_early ("Error al preparar el retiro: " ++ err_text error) None
      | inr amountWei =>
          let vault := mkContract vaultAddress SingleOwnerVaultAbi g in
          settle
            (receipt <- submit vault "withdraw" [AAddr recipient; AUint amountWei] None ;;
             now <- gets clock ;;
             from <- getAccount ;;
             let transaction :=
               mkTransaction (rc_hash receipt) TxWithdrawal Confirmed (now / 1000) (Some amount)
                 from (Some recipient) vaultAddress (Some (rc_blockNumber receipt))
                 (Some (rc_blockHash receipt)) in
             subscribe (loadVaultDetails vaultAddress);;
             Ret (Some transaction))
            "Error al retirar: " None
      end
  end.

(** The pattern of the five boolean operations: signer guard, submit,
    wait, refresh of the vault's details ([refresh]) and [true]; on a
    failure the message with [prefix] and [false]. *)
Definition vault_mutation (vaultAddress meth : string) (args : list abi_val)
    (refresh : bool) (prefix : string) : M bool :=
  setLoading true;;
  setError None;;
  signer <- getSigner ;;
  match signer with
  | None => fail_early "No hay un signer disponible" false
  | Some g =>
      let vault := mkContract vaultAddress SingleOwnerVaultAbi g in
      settle
        (submit vault meth args None;;
         (if refresh then subscribe (loadVaultDetails vaultAddress) else Ret tt);;
         Ret true)
        prefix false
  end.

Definition updateVaultMetadata (vaultAddress : string) (metadata : MetadataUpdate) : M bool :=
  vault_mutation vaultAddress "updateVaultConfig"
    [AStr (mu_name metadata); AStr (mu_description metadata); AStr (mu_category metadata);
     AStr (mu_imageURI metadata)] true "Error al actualizar metadatos: ".

Definition setVaultActive (vaultAddress : string) (isActive : bool) : M bool :=
  vault_mutation vaultAddress "setActive" [ABool isActive] true
    "Error al cambiar estado activo: ".

Definition setVaultPublic (vaultAddress : string) (isPublic : bool) : M bool :=
  vault_mutation vaultAddress "setPublic" [ABool isPublic] true
    "Error al cambiar visibilidad: ".

Definition addAllowedDepositor (vaultAddress depositor : string) : M bool :=
  vault_mutation vaultAddress "addAllowedDepositor" [AAddr depositor] false
    "Error al agregar depositante: ".

Definition removeAllowedDepositor (vaultAddress depositor : string) : M bool :=
  vault_mutation vaultAddress "removeAllowedDepositor" [AAddr depositor] false
    "Error al eliminar depositante: ".

Definition canDeposit (vaultAddress depositor : string) : M bool :=
  signer <- getSigner ;;
  match signer with
  | None => Ret false
  | Some g =>
      let vault := mkContract vaultAddress SingleOwnerVaultAbi g in
      catch
        (x <- await (ContractCall vault "canDeposit" [AAddr depositor] None) ;;
         match x with RBool b => Ret b | _ => Throw bad_answer end)
        (fun _ => Ret false)
  end.

(** The constructor's subscription: [getIsConnected$().pipe(switchMap(
    isConnected => isConnected ? this.loadUserVaults() : of(null)))
    .subscribe()]; the inner pipeline runs in slot 0. *)
Definition vaultService_subscription (isConnected : bool) : M unit :=
  spawn (Some 0%nat) (if isConnected then loadUserVaults;; Ret tt else Ret tt).
End VaultService.


(** ** The subscription as a subscriber of the session *)

(** The subscription returns at once and changes the vault service's
    fields only: whatever [loadUserVaults] does before its first request
    ([setLoading], [setError], its guards). *)
Lemma vaultService_subscription_frames `{EtherUnits} b :
  frames (vaultService_subscription b).
Proof.
  intros s pool. unfold vaultService_subscription, loadUserVaults, fail_early, settle.
  destruct b; simpl;
    [destruct (str_truthy (account (w3 s))); simpl;
     [destruct (vaultFactoryContract (w3 s)); simpl|]|];
    eexists _, _; (split; [reflexivity|]); repeat split.
Qed.

#[export] Instance vault_observer `{EtherUnits} : Observer := {|
  isConnected_observers := vaultService_subscription;
  observers_frame := vaultService_subscription_frames
|}.

(** ** Postconditions of runs

    [ends_with P p]: whatever the answers and the starting state, a run
    of [p] does not throw, and if it returns, its final state satisfies
    [P].  [never_raises p] is [ends_with] of the true predicate.  Both
    are closed under the program's constructors and [bind] / [catch], so
    that the operations' proofs follow their structure ([ends_auto]). *)

Definition ends_with {A} (P : Sys -> Prop) (p : M A) : Prop :=
  forall rs s pool,
    match run_status (exec rs p s pool) with
    | Returned _ => P (run_state (exec rs p s pool))
    | Raised _ => False
    | Waiting _ _ => True
    end.

Abbreviation never_raises := (ends_with (fun _ => True)).

Section EndsWith.
Context (P : Sys -> Prop).

Lemma ends_with_get {A} (k : Sys -> M A) :
  (forall s, ends_with P (k s)) -> ends_with P (Get k).
Proof. intros Hk rs s pool. rewrite exec_get. apply Hk. Qed.

Lemma ends_with_put {A} s' (k : M A) : ends_with P k -> ends_with P (Put s' k).
Proof. intros Hk rs s pool. rewrite exec_put. apply Hk. Qed.

Lemma ends_with_call {A} r (k : resp -> M A) :
  (forall x, ends_with P (k x)) -> ends_with P (Call r k).
Proof.
  intros Hk [|x rs] s pool; [by rewrite exec_call_nil|]. rewrite exec_call. apply Hk.
Qed.

Lemma ends_with_spawn {A} sl t (k : M A) : ends_with P k -> ends_with P (Spawn sl t k).
Proof.
  intros Hk rs s pool. rewrite exec_spawn.
  destruct (advance t s (kill sl pool)) as [[s1 pool1] st]. apply Hk.
Qed.

Lemma ends_with_throw_never {A} e : ~ ends_with (A:=A) P (Throw e).
Proof. intros H. specialize (H [] (page_load false) []). by rewrite exec_throw in H. Qed.

(** A program that ends with an update establishing [P]. *)
Lemma ends_with_modify_ret {A} f (a : A) :
  (forall s, P (f s)) -> ends_with P (modify f;; Ret a).
Proof. intros Hf rs s pool. destruct rs; simpl; apply Hf. Qed.

(** Sequencing after a program that does not throw. *)
Lemma ends_with_bind {A B} (p : M A) (k : A -> M B) :
  never_raises p -> (forall a, ends_with P (k a)) -> ends_with P (bind p k).
Proof.
  intros Hp Hk rs s pool. rewrite exec_bind. specialize (Hp rs s pool).
  destruct (exec rs p s pool) as [s1 pool1 [a|e|r k'] rs1 tr]; simpl in *; try done.
  apply Hk.
Qed.

(** A continuation that only returns. *)
Lemma ends_with_bind_ret {A B} (p : M A) (f : A -> B) :
  ends_with P p -> ends_with P (bind p (fun a => Ret (f a))).
Proof.
  intros Hp rs s pool. rewrite exec_bind. specialize (Hp rs s pool).
  destruct (exec rs p s pool) as [s1 pool1 [a|e|r k'] rs1 tr]; simpl in *; try done.
  by rewrite exec_ret.
Qed.

Lemma ends_with_catch {A} (p : M A) h :
  (forall e, ends_with P (h e)) -> (forall rs s pool a,
    run_status (exec rs p s pool) = Returned a -> P (run_state (exec rs p s pool))) ->
  ends_with P (catch p h).
Proof.
  intros Hh Hp rs s pool. rewrite exec_catch. specialize (Hp rs s pool).
  destruct (exec rs p s pool) as [s1 pool1 [a|e|r k'] rs1 tr]; simpl in *; try done.
  - by apply (Hp a).
  - apply Hh.
Qed.
End EndsWith.

Lemma never_raises_catch {A} (p : M A) h :
  (forall e, never_raises (h e)) -> never_raises (catch p h).
Proof. intros Hh. by apply ends_with_catch. Qed.

Lemma never_raises_ret {A} (a : A) : never_raises (Ret a).
Proof. intros rs s pool. by rewrite exec_ret. Qed.

Lemma never_raises_modify f : never_raises (modify f).
Proof. intros rs s pool. by destruct rs. Qed.

Lemma never_raises_gets {A} (f : Sys -> A) : never_raises (gets f).
Proof. intros rs s pool. by destruct rs. Qed.

Lemma never_raises_spawn sl t : never_raises (spawn sl t).
Proof. apply ends_with_spawn, never_raises_ret. Qed.

Create HintDb ends.
#[export] Hint Resolve never_raises_ret never_raises_modify never_raises_gets
  never_raises_spawn : ends.
#[export] Hint Unfold upd_vs upd_w3 get_w3 get_vs getProvider getSigner getAccount
  getVaultFactoryContract setLoading setError subscribe spawn : ends.

(** The state a loading operation promises to leave: [loading$] false. *)
Definition loading_off (s : Sys) : Prop := loading (vs s) = false.

Arguments details_of : simpl never.

Section Settle.
Context `{EtherUnits}.

Lemma settle_ends {A} body prefix (fallback : A) :
  ends_with loading_off (settle body prefix fallback).
Proof.
  unfold settle. apply ends_with_bind.
  - apply never_raises_catch. intros e. apply ends_with_bind; eauto with ends.
  - intros a. by apply ends_with_modify_ret.
Qed.

Lemma fail_early_ends {A} msg (fallback : A) : ends_with loading_off (fail_early msg fallback).
Proof.
  unfold fail_early. apply ends_with_bind; [eauto with ends|]. intros _.
  by apply ends_with_modify_ret.
Qed.
End Settle.

#[export] Hint Resolve settle_ends fail_early_ends : ends.

(** Follow an operation's structure down to its [settle] or early return. *)
Ltac ends_auto :=
  repeat first
    [ solve [eauto with ends]
    | apply ends_with_bind_ret
    | apply ends_with_bind; [solve [autounfold with ends; eauto with ends] | intros ?]
    | progress cbv zeta
    | case_match ].

(** ** The operations the components call *)

(** A call of a component to the vault service, subscribed at once. *)
Inductive vault_op : Type :=
  | LoadUserVaults
  | LoadPublicVaults
  | LoadVaultDetails (vaultAddress : string)
  | CreateSingleOwnerVault (request : CreateVaultRequest)
  | DepositToVault (vaultAddress amount : string)
  | WithdrawFromVault (vaultAddress recipient amount : string)
  | UpdateVaultMetadata (vaultAddress : string) (metadata : MetadataUpdate)
  | SetVaultActive (vaultAddress : string) (isActive : bool)
  | SetVaultPublic (vaultAddress : string) (isPublic : bool)
  | AddAllowedDepositor (vaultAddress depositor : string)
  | RemoveAllowedDepositor (vaultAddress depositor : string).

Definition vault_op_prog `{EtherUnits} (op : vault_op) : M unit :=
  match op with
  | LoadUserVaults => loadUserVaults;; Ret tt
  | LoadPublicVaults => loadPublicVaults;; Ret tt
  | LoadVaultDetails a => loadVaultDetails a;; Ret tt
  | CreateSingleOwnerVault r => createSingleOwnerVault r;; Ret tt
  | DepositToVault a amount => depositToVault a amount;; Ret tt
  | WithdrawFromVault a recipient amount => withdrawFromVault a recipient amount;; Ret tt
  | UpdateVaultMetadata a m => updateVaultMetadata a m;; Ret tt
  | SetVaultActive a b => setVaultActive a b;; Ret tt
  | SetVaultPublic a b => setVaultPublic a b;; Ret tt
  | AddAllowedDepositor a d => addAllowedDepositor a d;; Ret tt
  | RemoveAllowedDepositor a d => removeAllowedDepositor a d;; Ret tt
  end.

(** The one synchronous failure: a vault creation whose target does not
    parse, thrown by [ethers.parseEther] before the pipeline exists. *)
Definition bad_target `{EtherUnits} (op : vault_op) : Prop :=
  match op with
  | CreateSingleOwnerVault r =>
      match parseEther (str_or (md_target (req_metadata r)) "0") with inl _ => True | inr _ => False end
  | _ => False
  end.

(** ** The vault service leaves the session alone *)

(** Every operation of the vault service, and its subscription, keeps
    every invariant of the session at its suspension points: it writes
    only the vault service's fields. *)
Section VaultOk.
Context `{EtherUnits} (I : Sys -> Prop) (HI : sess_inv I).

#[local] Hint Unfold setLoading setError fail_early settle subscribe submit as_addresses
  getVaultDetails getVaultDetails_start getVaultDetails_finish forkJoin_details : ok.

Lemma ok_loadUserVaults : ok_inv I loadUserVaults.
Proof. unfold loadUserVaults, details_of. ok_auto. Qed.

Lemma ok_loadVaultDetails a : ok_inv I (loadVaultDetails a).
Proof. unfold loadVaultDetails, loadVaultTransactions. ok_auto. Qed.

#[local] Hint Resolve ok_loadUserVaults ok_loadVaultDetails : ok.

Lemma ok_vault_op op : ok_inv I (vault_op_prog op).
Proof.
  destruct op; cbv beta iota delta [vault_op_prog];
  unfold loadPublicVaults, createSingleOwnerVault, depositToVault,
    withdrawFromVault, updateVaultMetadata, setVaultActive, setVaultPublic,
    addAllowedDepositor, removeAllowedDepositor, vault_mutation, details_of; ok_auto.
Qed.

Lemma ok_vaultService_subscription b : ok_inv I (vaultService_subscription b).
Proof. unfold vaultService_subscription. ok_auto. Qed.
End VaultOk.

(** ** Theorems *)

Section VaultTheorems.
Context `{EtherUnits}.

(** C24. Every vault operation a component calls settles the loading
    flag: whatever the wallet and the chain answer, its run does not
    throw, and once it has returned [loading$] is false, on the success,
    the failure and the early-return paths alike; the one exception is a
    creation whose target does not parse. *)
Theorem vault_op_settles_loading op :
  ~ bad_target op -> ends_with loading_off (vault_op_prog op).
Proof.
  intros Hb. destruct op; simpl in Hb; apply ends_with_bind_ret;
    unfold loadUserVaults, loadPublicVaults, loadVaultDetails, createSingleOwnerVault,
      depositToVault, withdrawFromVault, updateVaultMetadata, setVaultActive, setVaultPublic,
      addAllowedDepositor, removeAllowedDepositor, vault_mutation;
    ends_auto.
  all: exfalso; by apply Hb.
Qed.

(** The entry of one address in a listing, after the answer [x] to its
    read. *)
Definition detail_of (vaultAddress : string) (x : resp) : vault_val :=
  match x with RVaultInfo info => VaultFull (vault_of_info vaultAddress info) | _ => VaultEmpty end.

Lemma exec_start a rs s pool g :
  provider (w3 s) = true -> signer (w3 s) = Some g ->
  exec rs (c <- getVaultDetails_start a ;; Ret (a, c)) s pool =
  mkRun s pool (Returned (a, Some (mkContract a SingleOwnerVaultAbi g))) rs [].
Proof.
  intros Hp Hg. unfold getVaultDetails_start. simpl. rewrite !exec_get, Hp, Hg. apply exec_ret.
Qed.

Lemma exec_mapM_start l rs s pool g :
  provider (w3 s) = true -> signer (w3 s) = Some g ->
  exec rs (mapM (fun a => c <- getVaultDetails_start a ;; Ret (a, c)) l) s pool =
  mkRun s pool (Returned (map (fun a => (a, Some (mkContract a SingleOwnerVaultAbi g))) l)) rs [].
Proof.
  intros Hp Hg. set (f := fun a => c <- getVaultDetails_start a ;; Ret (a, c)).
  induction l as [|a l IH]; cbn [mapM].
  - apply exec_ret.
  - rewrite prog_mbind, exec_bind. unfold f at 1. rewrite (exec_start a _ _ _ g) by done.
    cbn beta iota. rewrite ?prog_mbind, ?prog_mret. rewrite add_calls_nil, exec_bind, IH.
    cbn beta iota. rewrite ?prog_mret, ?add_calls_nil, exec_ret. done.
Qed.

Lemma exec_finish a c x rs s pool :
  exec (x :: rs) (getVaultDetails_finish a (Some c)) s pool =
  mkRun s pool (Returned (detail_of a x)) rs [ContractCall c "getVaultInfo" [] None].
Proof. destruct x, rs; reflexivity. Qed.

Lemma exec_mapM_finish l xs rs s pool g :
  List.length xs = List.length l ->
  exec (xs ++ rs) (mapM (fun '(a, c) => getVaultDetails_finish a c)
     (map (fun a => (a, Some (mkContract a SingleOwnerVaultAbi g))) l)) s pool =
  mkRun s pool (Returned (zip_with detail_of l xs)) rs
    (map (fun a => ContractCall (mkContract a SingleOwnerVaultAbi g) "getVaultInfo" [] None) l).
Proof.
  revert xs. induction l as [|a l IH]; intros [|x xs] Hlen; simpl in Hlen; try lia.
  - apply exec_ret.
  - cbn [mapM map]. rewrite prog_mbind, exec_bind. cbn [app]; cbn beta iota. rewrite exec_finish.
    cbn beta iota. rewrite ?prog_mbind, ?prog_mret. rewrite exec_bind, IH by lia.
    cbn beta iota. rewrite ?prog_mret, ?add_calls_nil, exec_ret.
    unfold add_calls; simpl. by rewrite app_nil_r.
Qed.

Lemma exec_details_of l xs rs s pool g :
  provider (w3 s) = true -> signer (w3 s) = Some g -> l <> [] ->
  List.length xs = List.length l ->
  exec (xs ++ rs) (details_of l) s pool =
  mkRun s pool (Returned (zip_with detail_of l xs)) rs
    (map (fun a => ContractCall (mkContract a SingleOwnerVaultAbi g) "getVaultInfo" [] None) l).
Proof.
  intros Hp Hg Hl Hlen. destruct l as [|a l]; [done|]. unfold details_of, forkJoin_details.
  rewrite exec_bind, (exec_mapM_start _ _ _ _ g) by done. cbn beta iota.
  rewrite add_calls_nil. by apply exec_mapM_finish.
Qed.

(** C27. [loadUserVaults] for an owner of [l] (not empty) vaults, with
    a provider and a signer: one [getVaultsByOwner] request, then one
    [getVaultInfo] read per address, in the order of the addresses; the
    published list has one entry per address, the vault read or, for a
    read that failed, the placeholder [{}] (the partial-failure policy of
    the code: placeholders, never a failed listing); the flag is off and
    no error is shown. *)
Theorem loadUserVaults_details f g l xs rs s pool :
  str_truthy (account (w3 s)) = true -> vaultFactoryContract (w3 s) = Some f ->
  provider (w3 s) = true -> signer (w3 s) = Some g -> l <> [] ->
  List.length xs = List.length l ->
  let r := exec (RAddresses l :: xs ++ rs) loadUserVaults s pool in
  run_status r = Returned (zip_with detail_of l xs) /\
  run_calls r = ContractCall f "getVaultsByOwner" [AAddr (account (w3 s))] None ::
     map (fun a => ContractCall (mkContract a SingleOwnerVaultAbi g) "getVaultInfo" [] None) l /\
  userVaults (vs (run_state r)) = zip_with detail_of l xs /\
  loading (vs (run_state r)) = false /\ error (vs (run_state r)) = None.
Proof.
  intros Ha Hf Hp Hg Hl Hlen. unfold loadUserVaults, settle, as_addresses.
  run_session_using ltac:(rewrite ?Ha, ?Hf).
  rewrite exec_bind, exec_catch, exec_bind, (exec_details_of _ _ _ _ _ g) by done.
  cbn beta iota. run_session. destruct rs; simpl; rewrite ?app_nil_r; done.
Qed.

(** C25. A vault creation whose target [ethers.parseEther] rejects (for
    instance ["1e+21"], the [toString()] of the number [1e21], which
    the form's [Validators.min(0.0001)] accepts) throws to the component
    after [setLoading(true)] and before any request: nothing is sent,
    no error message is published, and [loading$] stays true, which
    keeps the form's submit guard [this.isLoading] closed. *)
Theorem createSingleOwnerVault_bad_target request e f rs s pool :
  vaultFactoryContract (w3 s) = Some f ->
  parseEther (str_or (md_target (req_metadata request)) "0") = inl e ->
  let r := exec rs (createSingleOwnerVault request) s pool in
  run_status r = Raised e /\ run_calls r = [] /\
  loading (vs (run_state r)) = true /\ error (vs (run_state r)) = None.
Proof.
  intros Hf He. unfold createSingleOwnerVault.
  run_session_using ltac:(rewrite ?Hf, ?He). destruct rs; simpl; done.
Qed.

(** C26. [loadUserVaults] for an owner of no vault: the single
    [getVaultsByOwner] request, no detail read at all, an empty list
    published and returned, the flag off and no error. *)
Theorem loadUserVaults_no_addresses f rs s pool :
  str_truthy (account (w3 s)) = true -> vaultFactoryContract (w3 s) = Some f ->
  let r := exec (RAddresses [] :: rs) loadUserVaults s pool in
  run_status r = Returned [] /\
  run_calls r = [ContractCall f "getVaultsByOwner" [AAddr (account (w3 s))] None] /\
  userVaults (vs (run_state r)) = [] /\
  loading (vs (run_state r)) = false /\ error (vs (run_state r)) = None.
Proof.
  intros Ha Hf. unfold loadUserVaults, settle, as_addresses, details_of.
  run_session_using ltac:(rewrite ?Ha, ?Hf). destruct rs; done.
Qed.

(** C28. A rejected [getVaultsByOwner] leaves the published list as it
    was (the previous account's vaults stay on screen), publishes the
    error message and returns the empty list. *)
Theorem loadUserVaults_rejected f e rs s pool :
  str_truthy (account (w3 s)) = true -> vaultFactoryContract (w3 s) = Some f ->
  let r := exec (RError e :: rs) loadUserVaults s pool in
  run_status r = Returned [] /\
  userVaults (vs (run_state r)) = userVaults (vs s) /\
  error (vs (run_state r)) = Some ("Error al cargar vaults: " ++ err_text e) /\
  loading (vs (run_state r)) = false.
Proof.
  intros Ha Hf. unfold loadUserVaults, settle.
  run_session_using ltac:(rewrite ?Ha, ?Hf). destruct rs; done.
Qed.

(** The arguments of the creation call. *)
Definition creation_args (md : VaultMetadata) (targetAmount : Z) : list abi_val :=
  [AStr (md_name md); AStr (md_description md); AStr (md_category md);
   AStr (md_imageURI md); ABool (md_isPublic md); AUint targetAmount].

(** C29. A creation confirmed on chain whose receipt carries no
    [VaultCreated] event with an address: the component gets [''], the
    message is the dedicated one ([CreationEventMissing] of the spec),
    no refresh of the owned vaults is started (the task pool is as it
    was) and the published list is unchanged. *)
Theorem createSingleOwnerVault_event_missing request f w h rc rs s pool :
  vaultFactoryContract (w3 s) = Some f ->
  parseEther (str_or (md_target (req_metadata request)) "0") = inr w ->
  vaultCreated_address (rc_logs rc) = None ->
  let r := exec (RTx h :: RReceipt rc :: rs) (createSingleOwnerVault request) s pool in
  run_status r = Returned "" /\
  run_calls r = [ContractCall f "createSingleOwnerVault" (creation_args (req_metadata request) w) None;
                 TxWait h] /\
  run_pool r = pool /\ userVaults (vs (run_state r)) = userVaults (vs s) /\
  error (vs (run_state r)) =
    Some "Error al crear vault: No se pudo obtener la dirección del vault creado" /\
  loading (vs (run_state r)) = false.
Proof.
  intros Hf Hw Hev. unfold createSingleOwnerVault, settle, submit.
  run_session_using ltac:(rewrite ?Hf, ?Hw, ?Hev). destruct rs; done.
Qed.

(** C30. A creation whose receipt carries the [VaultCreated] event: the
    component gets the new address, and a reload of the owned vaults is
    started and left running (its [getVaultsByOwner] request is pending
    in the task pool) while [loading$] is already false. *)
Theorem createSingleOwnerVault_created request f w h rc a rs s pool :
  vaultFactoryContract (w3 s) = Some f ->
  parseEther (str_or (md_target (req_metadata request)) "0") = inr w ->
  vaultCreated_address (rc_logs rc) = Some a -> str_truthy (account (w3 s)) = true ->
  let r := exec (RTx h :: RReceipt rc :: rs) (createSingleOwnerVault request) s pool in
  run_status r = Returned a /\
  run_calls r = [ContractCall f "createSingleOwnerVault" (creation_args (req_metadata request) w) None;
                 TxWait h] /\
  (exists k, run_pool r =
     (pool ++ [(None, Call (ContractCall f "getVaultsByOwner" [AAddr (account (w3 s))] None) k)])%list) /\
  loading (vs (run_state r)) = false.
Proof.
  intros Hf Hw Hev Ha. unfold createSingleOwnerVault, settle, submit, subscribe, loadUserVaults.
  run_session_using ltac:(rewrite ?Hf, ?Hw, ?Hev, ?Ha, ?kill_None). destruct rs; simpl; eauto.
Qed.

(** The cached collections of the vault service. *)
Definition vault_cache (v : VS) : list vault_val * list vault_val * option vault_val * list Transaction :=
  (userVaults v, publicVaults v, currentVault v, transactions v).

(** C31. A deposit the wallet rejects, or whose transaction fails on
    chain, returns [null] with the error message and leaves every cached
    collection (owned and public vaults, current vault, transactions)
    as it was. *)
Theorem depositToVault_failure_keeps_cache a amount g w e h ans rs s pool :
  signer (w3 s) = Some g -> parseEther amount = inr w ->
  ans = [RError e] \/ ans = [RTx h; RError e] ->
  let r := exec (ans ++ rs)%list (depositToVault a amount) s pool in
  run_status r = Returned None /\ vault_cache (vs (run_state r)) = vault_cache (vs s) /\
  error (vs (run_state r)) = Some ("Error al depositar: " ++ err_text e) /\
  loading (vs (run_state r)) = false.
Proof.
  intros Hg Hw [-> | ->]; unfold depositToVault, settle, submit;
    run_session_using ltac:(rewrite ?Hg, ?Hw); destruct rs; done.
Qed.

(** C32. A confirmed deposit returns the record of the transaction: the
    receipt's hash and block, type [Deposit], status [Confirmed], the
    clock in seconds, the amount as typed, the connected account; the
    wallet saw the [deposit] call carrying the parsed amount as value,
    then the wait; a refresh of the vault's details is pending. *)
Theorem depositToVault_confirmed a amount g w h rc rs s pool :
  signer (w3 s) = Some g -> parseEther amount = inr w -> provider (w3 s) = true ->
  let r := exec (RTx h :: RReceipt rc :: rs) (depositToVault a amount) s pool in
  run_status r = Returned (Some (mkTransaction (rc_hash rc) TxDeposit Confirmed (clock s / 1000)
    (Some amount) (account (w3 s)) None a (Some (rc_blockNumber rc)) (Some (rc_blockHash rc)))) /\
  run_calls r = [ContractCall (mkContract a SingleOwnerVaultAbi g) "deposit" [] (Some w); TxWait h] /\
  (exists k, run_pool r =
     (pool ++ [(None, Call (ContractCall (mkContract a SingleOwnerVaultAbi g) "getVaultInfo" [] None) k)])%list).
Proof.
  intros Hg Hw Hp. unfold depositToVault, settle, submit, subscribe, loadVaultDetails,
    getVaultDetails, getVaultDetails_start.
  run_session_using ltac:(rewrite ?Hg, ?Hw, ?Hp, ?kill_None). destruct rs; simpl; eauto.
Qed.


(** C34. A failed read in [loadVaultDetails] is not reported: the
    placeholder [{}] becomes the current vault, no error message is
    published and the component receives the placeholder, not [null]
    (the [catchError] of [loadVaultDetails] is never reached). *)
Theorem loadVaultDetails_failure_placeholder a g e rs s pool :
  provider (w3 s) = true -> signer (w3 s) = Some g ->
  let r := exec (RError e :: rs) (loadVaultDetails a) s pool in
  run_status r = Returned (Some VaultEmpty) /\
  currentVault (vs (run_state r)) = Some VaultEmpty /\
  error (vs (run_state r)) = None /\ loading (vs (run_state r)) = false.
Proof.
  intros Hp Hg. unfold loadVaultDetails, settle, getVaultDetails, getVaultDetails_start,
    subscribe, loadVaultTransactions.
  run_session_using ltac:(rewrite ?Hg, ?Hp). destruct rs; simpl; rewrite ?Hp; done.
Qed.

(** C35. The vault type of a listing is decided by
    [mapVaultTypeFromNumber(info[9])], whose [case] labels are numbers
    compared with [===]: when the contract's integer comes back as a
    [bigint] (as ethers v6 decodes integer fields), no label matches and
    every vault is reported as [SingleOwner], whatever its type. *)
Theorem vault_of_info_bigint_type a info z :
  vi_vaultType info = NBigInt z -> v_type (vault_of_info a info) = SingleOwner.
Proof. intros Ht. unfold vault_of_info. simpl. by rewrite Ht. Qed.
End VaultTheorems.

(** ** Witnesses, with the ethers implementation of the units *)

Section VaultWitnesses.
(** A page connected on Sepolia with the factory bound. *)
Definition factory_c : contract := mkContract "0xF" VaultFactoryAbi "0xA11CE".
Definition vault_page : Sys :=
  with_w3 (mkW3 true (Some "0xA11CE") (Some factory_c) true "0xA11CE" (JInt 11155111)
             (Some factory_c) true "Sepolia Testnet" false) (page_load true).
Definition travel_md (target : string) : VaultMetadata :=
  mkVaultMetadata "Viaje" "Ahorro para viajar" "Viaje" "ipfs://img" target true.
Definition sample_info : vault_info :=
  mkVaultInfo "0xA11CE" "Viaje" "Ahorro" "Viaje" "ipfs://img" true 1500000000000000000
    2000000000000000000 1500000000000000000 (NBigInt 0) true.
Definition sample_receipt (logs : list parsed_log) : receipt := mkReceipt "0xH" 7 "0xB" logs.

Lemma vault_op_settles_loading_witness :
  ~ bad_target (CreateSingleOwnerVault (mkCreateVaultRequest (travel_md "1.5") SingleOwner)) /\
  ends_with loading_off (vault_op_prog (CreateSingleOwnerVault (mkCreateVaultRequest (travel_md "1.5") SingleOwner))).
Proof.
  split; [vm_compute; intros []|].
  apply vault_op_settles_loading. vm_compute. intros [].
Defined.

Lemma createSingleOwnerVault_bad_target_witness :
  loading (vs (run_state (exec [] (createSingleOwnerVault
    (mkCreateVaultRequest (travel_md "1e+21") SingleOwner)) vault_page []))) = true.
Proof.
  exact (proj1 (proj2 (proj2 (createSingleOwnerVault_bad_target
    (mkCreateVaultRequest (travel_md "1e+21") SingleOwner)
    (Error "invalid FixedNumber string value") factory_c [] vault_page []
    ltac:(reflexivity) ltac:(vm_compute; reflexivity))))).
Defined.

Lemma loadUserVaults_no_addresses_witness :
  userVaults (vs (run_state (exec [RAddresses []] loadUserVaults vault_page []))) = [].
Proof.
  exact (proj1 (proj2 (proj2 (loadUserVaults_no_addresses factory_c [] vault_page []
    ltac:(reflexivity) ltac:(reflexivity))))).
Defined.

Lemma loadUserVaults_details_witness :
  userVaults (vs (run_state (exec
    ([RAddresses ["0xV1"; "0xV2"]] ++ [RVaultInfo sample_info; RError (Error "revert")] ++ [])
    loadUserVaults vault_page []))) =
  zip_with detail_of ["0xV1"; "0xV2"] [RVaultInfo sample_info; RError (Error "revert")].
Proof.
  exact (proj1 (proj2 (proj2 (loadUserVaults_details factory_c "0xA11CE" ["0xV1"; "0xV2"]
    [RVaultInfo sample_info; RError (Error "revert")] [] vault_page []
    ltac:(reflexivity) ltac:(reflexivity) ltac:(reflexivity) ltac:(reflexivity)
    ltac:(discriminate) ltac:(reflexivity))))).
Defined.

Lemma loadUserVaults_rejected_witness :
  userVaults (vs (run_state (exec [RError (Error "revert")] loadUserVaults vault_page [])))
    = userVaults (vs vault_page).
Proof.
  exact (proj1 (proj2 (loadUserVaults_rejected factory_c (Error "revert") [] vault_page []
    ltac:(reflexivity) ltac:(reflexivity)))).
Defined.

Lemma createSingleOwnerVault_event_missing_witness :
  run_status (exec [RTx "0xH"; RReceipt (sample_receipt [ParseThrows; Parsed "Transfer" None])]
    (createSingleOwnerVault (mkCreateVaultRequest (travel_md "1.5") SingleOwner)) vault_page [])
    = Returned "".
Proof.
  exact (proj1 (createSingleOwnerVault_event_missing
    (mkCreateVaultRequest (travel_md "1.5") SingleOwner) factory_c 1500000000000000000 "0xH"
    (sample_receipt [ParseThrows; Parsed "Transfer" None]) [] vault_page []
    ltac:(reflexivity) ltac:(vm_compute; reflexivity) ltac:(reflexivity))).
Defined.

Lemma createSingleOwnerVault_created_witness :
  run_status (exec [RTx "0xH"; RReceipt (sample_receipt [ParseNull; Parsed "VaultCreated" (Some "0xV9")])]
    (createSingleOwnerVault (mkCreateVaultRequest (travel_md "1.5") SingleOwner)) vault_page [])
    = Returned "0xV9".
Proof.
  exact (proj1 (createSingleOwnerVault_created
    (mkCreateVaultRequest (travel_md "1.5") SingleOwner) factory_c 1500000000000000000 "0xH"
    (sample_receipt [ParseNull; Parsed "VaultCreated" (Some "0xV9")]) "0xV9" [] vault_page []
    ltac:(reflexivity) ltac:(vm_compute; reflexivity) ltac:(reflexivity) ltac:(reflexivity))).
Defined.

Lemma depositToVault_failure_keeps_cache_witness :
  vault_cache (vs (run_state (exec ([RTx "0xH"; RError (Error "reverted")] ++ [])%list
    (depositToVault "0xV1" "0.5") vault_page []))) = vault_cache (vs vault_page).
Proof.
  exact (proj1 (proj2 (depositToVault_failure_keeps_cache "0xV1" "0.5" "0xA11CE"
    500000000000000000 (Error "reverted") "0xH" [RTx "0xH"; RError (Error "reverted")] []
    vault_page [] ltac:(reflexivity) ltac:(vm_compute; reflexivity) ltac:(right; reflexivity)))).
Defined.

Lemma depositToVault_confirmed_witness :
  run_calls (exec [RTx "0xH"; RReceipt (sample_receipt [])] (depositToVault "0xV1" "0.5") vault_page [])
    = [ContractCall (mkContract "0xV1" SingleOwnerVaultAbi "0xA11CE") "deposit" []
         (Some 500000000000000000%Z); TxWait "0xH"].
Proof.
  exact (proj1 (proj2 (depositToVault_confirmed "0xV1" "0.5" "0xA11CE" 500000000000000000 "0xH"
    (sample_receipt []) [] vault_page [] ltac:(reflexivity) ltac:(vm_compute; reflexivity)
    ltac:(reflexivity)))).
Defined.


Lemma loadVaultDetails_failure_placeholder_witness :
  currentVault (vs (run_state (exec [RError (Error "revert")] (loadVaultDetails "0xV1") vault_page [])))
    = Some VaultEmpty.
Proof.
  exact (proj1 (proj2 (loadVaultDetails_failure_placeholder "0xV1" "0xA11CE" (Error "revert") []
    vault_page [] ltac:(reflexivity) ltac:(reflexivity)))).
Defined.

Lemma vault_of_info_bigint_type_witness :
  v_type (vault_of_info "0xV1"
    (mkVaultInfo "0xA11CE" "Viaje" "Ahorro" "Viaje" "ipfs://img" true 0 0 0 (NBigInt 2) true))
  = SingleOwner.
Proof.
  exact (vault_of_info_bigint_type "0xV1"
    (mkVaultInfo "0xA11CE" "Viaje" "Ahorro" "Viaje" "ipfs://img" true 0 0 0 (NBigInt 2) true) 2
    ltac:(reflexivity)).
Defined.
End VaultWitnesses.
