(* ===== verification/Dialogs.v ===== *)
(** * The deposit and withdraw dialogs

    [src/src/app/dialogs/deposit-dialog/deposit-dialog.component.ts] and
    [withdraw-dialog/withdraw-dialog.component.ts]: an Angular reactive
    form over the text typed in the amount (and recipient) input, checked
    by Angular's validators, then a call of [VaultService.depositToVault]
    or [withdrawFromVault].

    - The validators are those of [@angular/forms] ([required], [min],
      [max], [pattern]), a library: written after its source, each is
      [true] when the control has no error.  [min] and [max] read the
      value with [parseFloat] and compare doubles ([Float]).
    - The two regular expressions of the forms are recognisers over
      strings ([amount_pattern], [recipient_pattern]).
    - A handler's result is what it does ([dialog_action]): nothing (the
      form is invalid), a snack bar before any call, or the service call
      it subscribes to, as a [vault_op] of [VaultSvc].

    The theorems relate the two readings of an amount: the dialog's
    [parseFloat], a rounded double, and the service's
    [ethers.parseEther], exact wei.  On the strings the pattern accepts,
    [parseEther] gives the exact value ([parseEther_amount]); the
    deposit dialog therefore never sends less than 0.000001 ETH
    ([deposit_sends_at_least_min]); the withdraw dialog never refuses an
    amount within the balance ([withdraw_within_balance]); it may let
    through an amount above the balance that rounds to the same double
    (on a balance of 0.100000000000000001 ETH it sends
    0.100000000000000002), which the contract then refuses.

    The forms' templates are not under src/: the inputs are read as
    strings, as the validators and [parseFloat] receive them. *)

From S2P Require Import Prelude Js Float Models Provider Ethers VaultSvc.
From Stdlib Require Import ZArith Lia Ascii String.
Local Open Scope string_scope.

(** ** Angular's validators *)

Module Validators.
(** [isEmptyInputValue] on a text control: [null] or [''] *)
Definition isEmptyInputValue (v : string) : bool := String.eqb v "".

Definition required (v : string) : bool := negb (isEmptyInputValue v).

(** [Validators.min(min)]: [!isNaN(value) && value < min] is the error. *)
Definition min (m : double) (v : string) : bool :=
  isEmptyInputValue v ||
  (let value := parseFloat v in negb (negb (isNaN value) && dlt value m)).

(** [Validators.max(max)]: [!isNaN(value) && value > max] is the error. *)
Definition max (m : double) (v : string) : bool :=
  isEmptyInputValue v ||
  (let value := parseFloat v in negb (negb (isNaN value) && dgt value m)).

(** [Validators.pattern(regex)]: [regex.test(value)] unless empty. *)
Definition pattern (re : string -> bool) (v : string) : bool :=
  isEmptyInputValue v || re v.
End Validators.

(** ** The regular expressions *)

(** [/^\d+(\.\d{1,18})?$/] *)
Definition amount_pattern (s : string) : bool :=
  match take_digits s with
  | ([], _) => false
  | (_, EmptyString) => true
  | (_, String c t) =>
      Ascii.eqb c "." &&
      match take_digits t with
      | (fp, EmptyString) => (1 <=? List.length fp)%nat && (List.length fp <=? 18)%nat
      | _ => false
      end
  end.

Fixpoint hex_digits (n : nat) (s : string) : bool :=
  match n, s with
  | O, EmptyString => true
  | S n', String c t => bool_decide (is_Some (digit_in 16 c)) && hex_digits n' t
  | _, _ => false
  end.

(** [/^0x[a-fA-F0-9]{40}$/] *)
Definition recipient_pattern (s : string) : bool :=
  match s with
  | String "0"%char (String "x"%char t) => hex_digits 40 t
  | _ => false
  end.

(** ** The forms *)

(** [Validators.min(0.000001)]: the double of the literal. *)
Definition min_amount : double := parseFloat "0.000001".

(** The deposit form: [amount: ['', [Validators.required,
    Validators.min(0.000001), Validators.pattern(...)]]].  The control's
    value is taken as the string typed (the template is not under src/). *)
Definition depositForm_valid (amount : string) : bool :=
  Validators.required amount && Validators.min min_amount amount &&
  Validators.pattern amount_pattern amount.

(** The withdraw form, with [Validators.max(parseFloat(this.maxAmount))]
    and the recipient control. *)
Definition withdrawForm_valid (maxAmount amount recipient : string) : bool :=
  (Validators.required amount && Validators.min min_amount amount &&
   Validators.max (parseFloat maxAmount) amount && Validators.pattern amount_pattern amount) &&
  (Validators.required recipient && Validators.pattern recipient_pattern recipient).

(** ** The handlers *)

Inductive dialog_action : Type :=
  | DialogIgnored
  | DialogSnack (message : string)
  | DialogCall (op : vault_op).

(** [DepositDialogComponent.deposit()] on the dialog's vault. *)
Definition deposit (vault : Vault) (amount : string) : dialog_action :=
  if negb (depositForm_valid amount) then DialogIgnored
  else DialogCall (DepositToVault (v_address vault) amount).

(** [WithdrawDialogComponent.withdraw()]: [maxAmount] is the vault's
    balance as the dialog received it. *)
Definition withdraw (vault : Vault) (amount recipient : string) : dialog_action :=
  let maxAmount := v_balance vault in
  if negb (withdrawForm_valid maxAmount amount recipient) then DialogIgnored
  else if dgt (parseFloat amount) (parseFloat maxAmount) then
    DialogSnack ("El monto excede el balance disponible (" ++ maxAmount ++ " ETH)")
  else DialogCall (WithdrawFromVault (v_address vault) recipient amount).

(** [useMaxAmount()]: the amount control takes the balance string. *)
Definition useMaxAmount (vault : Vault) : string := v_balance vault.

(** [validateAmount()]: whether it sets the [max] error on the amount. *)
Definition validateAmount (maxAmount amount : string) : bool :=
  Validators.required amount && dgt (parseFloat amount) (parseFloat maxAmount).

(** The [next] callback of both subscriptions: a transaction closes the
    dialog with [true] (after the success snack bar); [null] leaves it
    open. *)
Definition closes_on (result : option Transaction) : bool :=
  match result with Some _ => true | None => false end.

(** ** Decimal strings *)

(** The exact value in wei of an amount the pattern accepts: its digits,
    shifted to 18 decimals. *)
Definition amount_wei (s : string) : Z :=
  let '(ip, r) := take_digits s in
  let fp := match r with String c t => if Ascii.eqb c "." then fst (take_digits t) else [] | _ => [] end in
  (digits_value 10 (ip ++ fp) * 10 ^ (18 - Z.of_nat (List.length fp)))%Z.

Abbreviation is_digits ds := (Forall (fun d => 0 <= d < 10)%Z ds).

(** The string of integer digits [ip] and decimals [fp]. *)
Definition dec_string (ip fp : list Z) : string :=
  string_of_digits ip ++ match fp with [] => "" | _ => String "." (string_of_digits fp) end.

Lemma digit_char_in c d : digit_in 10 c = Some d -> digit_char d = c.
Proof.
  unfold digit_in, digit_val, digit_char. intros H.
  destruct (Z.leb_spec 48 (Z.of_nat (nat_of_ascii c))), (Z.leb_spec (Z.of_nat (nat_of_ascii c)) 57);
    simpl in H; [|repeat case_match; simplify_eq; lia..].
  destruct (Z.ltb_spec (Z.of_nat (nat_of_ascii c) - 48) 10); simplify_eq.
  destruct (Z.ltb_spec (Z.of_nat (nat_of_ascii c) - 48) 10); [|lia].
  rewrite <- (ascii_nat_embedding c) at 2. f_equal. lia.
Qed.

Lemma take_digits_spec s ds r :
  take_digits s = (ds, r) ->
  s = string_of_digits ds ++ r /\ is_digits ds /\
  (forall c t, r = String c t -> digit_in 10 c = None).
Proof.
  revert ds r. induction s as [|c s IH]; intros ds r H; simpl in H.
  - simplify_eq. split_and!; [done | constructor | done].
  - destruct (digit_in 10 c) as [d|] eqn:E.
    + destruct (take_digits s) as [ds' r'] eqn:Et. simplify_eq.
      destruct (IH ds' r eq_refl) as (-> & Hd & Hr).
      pose proof (digit_char_in c d E) as Ec. apply digit_in_val in E as [E Hlt].
      split_and!; [by rewrite <- Ec | |done].
      constructor; [|done]. split; [|lia]. revert E. unfold digit_val. repeat case_match; intros; simplify_eq; lia.
    + simplify_eq. split_and!; [done | constructor | by intros ?? [= <- _]].
Qed.

Lemma take_digits_of_digits ds r :
  is_digits ds -> (forall c t, r = String c t -> digit_in 10 c = None) ->
  take_digits (string_of_digits ds ++ r) = (ds, r).
Proof.
  intros Hds Hr. induction Hds as [|d ds Hd _ IH]; simpl.
  - destruct r as [|c t]; [done|]. simpl. by rewrite (Hr c t eq_refl).
  - rewrite digit_in_char by lia. by rewrite IH.
Qed.

(** A decimal digit at the head of a string is no white space, sign or
    [Infinity]. *)
Lemma digit_head d t : (0 <= d < 10)%Z ->
  skip_ws (String (digit_char d) t) = String (digit_char d) t /\
  float_sign (String (digit_char d) t) = (false, String (digit_char d) t) /\
  String.prefix "Infinity" (String (digit_char d) t) = false /\
  EthersV6.fixed_sign (String (digit_char d) t) = ("", String (digit_char d) t).
Proof.
  intros Hd. assert (d = 0 \/ d = 1 \/ d = 2 \/ d = 3 \/ d = 4 \/ d = 5 \/ d = 6 \/ d = 7 \/
    d = 8 \/ d = 9)%Z by lia.
  destruct_or!; subst; split_and!; reflexivity.
Qed.

Lemma append_String c x y : (String c x ++ y) = String c (x ++ y).
Proof. reflexivity. Qed.

Lemma no_digit_dot t c u : String "."%char t = String c u -> digit_in 10 c = None.
Proof. by intros [= <- _]. Qed.

Lemma no_digit_end c u : "" = String c u -> digit_in 10 c = None.
Proof. done. Qed.

Lemma take_digits_all ds : is_digits ds -> take_digits (string_of_digits ds) = (ds, "").
Proof.
  intros Hds. rewrite <- (string_app_nil_r (string_of_digits ds)).
  apply take_digits_of_digits; [done | apply no_digit_end].
Qed.

(** The strings the amount pattern accepts: digits, and one to 18
    decimals after a point. *)
Lemma amount_pattern_shape s :
  amount_pattern s = true ->
  exists ip fp, s = dec_string ip fp /\ ip <> [] /\ is_digits ip /\ is_digits fp /\
    (List.length fp <= 18)%nat.
Proof.
  unfold amount_pattern. destruct (take_digits s) as [ip r] eqn:E.
  apply take_digits_spec in E as (-> & Hip & _).
  destruct ip as [|i ip]; [done|]. destruct r as [|c t]; intros H.
  - exists (i :: ip), []. unfold dec_string. split_and!; [done | done | done | constructor | simpl; lia].
  - apply andb_prop in H as [Hc H]. apply Ascii.eqb_eq in Hc as ->.
    destruct (take_digits t) as [fp r2] eqn:E2. apply take_digits_spec in E2 as (-> & Hfp & _).
    destruct r2; [|done]. apply andb_prop in H as [H1 H2].
    apply Nat.leb_le in H1, H2. destruct fp as [|f fp]; [simpl in H1; lia|].
    exists (i :: ip), (f :: fp). unfold dec_string. rewrite string_app_nil_r. split_and!; done.
Qed.

Lemma amount_wei_dec ip fp : is_digits ip -> is_digits fp ->
  amount_wei (dec_string ip fp) =
  (digits_value 10 (ip ++ fp) * 10 ^ (18 - Z.of_nat (List.length fp)))%Z.
Proof.
  intros Hip Hfp. unfold amount_wei, dec_string. destruct fp as [|f fp]; simpl.
  - rewrite take_digits_of_digits by first [done | apply no_digit_end]. reflexivity.
  - rewrite take_digits_of_digits; [|done | apply no_digit_dot].
    cbn -[take_digits string_of_digits].
    change (String (digit_char f) (string_of_digits fp)) with (string_of_digits (f :: fp)).
    by rewrite take_digits_all.
Qed.

(** [parseFloat] of a string that starts with a decimal digit: the
    literal read from its head, unsigned. *)
Lemma parseFloat_head d t : (0 <= d < 10)%Z ->
  parseFloat (String (digit_char d) t) =
  let '(ip, r1) := take_digits (String (digit_char d) t) in
  let '(fp, r2) := match r1 with String "."%char u => take_digits u | _ => ([], r1) end in
  match ip, fp with
  | [], [] => DNaN
  | _, _ => round_decimal false (digits_value 10 (ip ++ fp))
              (exponent_part r2 - Z.of_nat (List.length fp))
  end.
Proof.
  intros Hd. destruct (digit_head d t Hd) as (H1 & H2 & H3 & _).
  unfold parseFloat. rewrite H1, H2. unfold unsigned_literal. rewrite H3.
  destruct (take_digits _) as [ip r1]. cbv beta iota.
  generalize (match r1 with String "."%char u => take_digits u | _ => ([], r1) end).
  intros [fp r2]. by destruct ip, fp.
Qed.

(** [parseFloat] of a decimal string: its exact value, rounded. *)
Lemma parseFloat_dec ip fp : ip <> [] -> is_digits ip -> is_digits fp ->
  parseFloat (dec_string ip fp) =
  round_rat false (digits_value 10 (ip ++ fp)) (10 ^ Z.of_nat (List.length fp)).
Proof.
  intros Hne Hip Hfp. destruct ip as [|d ip]; [done|].
  inversion Hip as [|? ? Hd _]; subst.
  unfold dec_string. cbn [string_of_digits]. rewrite append_String, (parseFloat_head d _ Hd).
  change (String (digit_char d) (string_of_digits ip ++ ?t)) with (string_of_digits (d :: ip) ++ t).
  destruct fp as [|f fp].
  - rewrite take_digits_of_digits; [|done | apply no_digit_end].
    change (exponent_part "" - Z.of_nat (List.length []))%Z with 0%Z.
    change (10 ^ Z.of_nat (List.length []))%Z with 1%Z.
    unfold round_decimal. change (0 <=? 0)%Z with true. cbv beta iota.
    by rewrite Z.pow_0_r, Z.mul_1_r.
  - rewrite take_digits_of_digits; [|done | apply no_digit_dot]. cbv beta iota.
    rewrite take_digits_all by done. cbv beta iota. unfold round_decimal.
    change (exponent_part "") with 0%Z.
    destruct (Z.leb_spec 0 (0 - Z.of_nat (List.length (f :: fp)))) as [Hc|]; [simpl in Hc; lia|].
    do 2 f_equal; lia.
Qed.

(** *** Strings of digits under ethers' parser *)

Lemma string_length_app (a b : string) : String.length (a ++ b) = (String.length a + String.length b)%nat.
Proof. induction a as [|c a IH]; simpl; [done | by rewrite IH]. Qed.

Lemma string_of_digits_length ds : String.length (string_of_digits ds) = List.length ds.
Proof. induction ds; simpl; congruence. Qed.

Lemma string_of_digits_app a b : string_of_digits (a ++ b) = (string_of_digits a ++ string_of_digits b).
Proof. induction a as [|d a IH]; simpl; [done | by rewrite IH]. Qed.

Lemma zeros_digits k : EthersV6.zeros k = string_of_digits (repeat 0%Z k).
Proof. induction k as [|k IH]; simpl; [done | by rewrite IH]. Qed.

Lemma substring_nil n s : substring n 0 s = "".
Proof. revert s. induction n; intros [|c s]; simpl; auto. Qed.

Lemma substring_long s m : (String.length s <= m)%nat -> substring 0 m s = s.
Proof.
  revert m. induction s as [|c s IH]; intros [|m] Hm; simpl in *; try done; [lia|].
  rewrite IH; [done | lia].
Qed.

Lemma substring_all s : substring 0 (String.length s) s = s.
Proof. by apply substring_long. Qed.

Lemma substring_app a b m : (String.length b <= m)%nat -> substring (String.length a) m (a ++ b) = b.
Proof. intros Hm. induction a as [|c a IH]; simpl; [by apply substring_long | exact IH]. Qed.

Lemma digits_span_digits ds r : is_digits ds ->
  EthersV6.digits_span (string_of_digits ds ++ r) = (string_of_digits ds ++ EthersV6.digits_span r).
Proof.
  induction 1 as [|d ds Hd _ IH]; [done|]. cbn [string_of_digits]. rewrite !append_String.
  simpl. unfold EthersV6.is_digit. rewrite digit_in_char by lia. simpl. by rewrite IH.
Qed.

Lemma all_digits_digits ds : is_digits ds -> EthersV6.all_digits (string_of_digits ds) = true.
Proof.
  induction 1 as [|d ds Hd _ IH]; [done|]. simpl. unfold EthersV6.is_digit.
  rewrite digit_in_char by lia. simpl. exact IH.
Qed.

Lemma digits_value_acc (r : Z) (b : list Z) (acc : Z) :
  fold_left (fun acc d => acc * r + d)%Z b acc =
  (acc * r ^ Z.of_nat (List.length b) + digits_value r b)%Z.
Proof.
  unfold digits_value. revert acc. induction b as [|d b IH]; intros acc; simpl; [lia|].
  rewrite IH, (IH (0 * r + d)%Z), Nat2Z.inj_succ, Z.pow_succ_r by lia. lia.
Qed.

Lemma digits_value_app r a b :
  digits_value r (a ++ b) = (digits_value r a * r ^ Z.of_nat (List.length b) + digits_value r b)%Z.
Proof. unfold digits_value at 1. rewrite fold_left_app. apply digits_value_acc. Qed.

Lemma digits_value_zeros r k : digits_value r (repeat 0%Z k) = 0%Z.
Proof.
  unfold digits_value. induction k as [|k IH]; [done|]. simpl.
  replace (0 * r + 0)%Z with 0%Z by lia. exact IH.
Qed.

Lemma digits_value_nonneg ds : is_digits ds -> (0 <= digits_value 10 ds)%Z.
Proof.
  intros H. rewrite <- (rev_involutive ds), digits_value_rev. apply Forall_rev in H.
  induction H as [|d ds0 Hd _ IH]; simpl; lia.
Qed.

Lemma digits_prefix_digits ds : is_digits ds -> digits_prefix 10 (string_of_digits ds) = ds.
Proof.
  intros H. rewrite <- (string_app_nil_r (string_of_digits ds)), digits_prefix_of_digits; [|lia|done].
  apply app_nil_r.
Qed.

Lemma checkValue512_small v : (0 <= v < 2 ^ 511)%Z -> EthersV6.checkValue512 v = v.
Proof.
  intros Hv. unfold EthersV6.checkValue512, EthersV6.fromTwos512.
  destruct (Z.ltb_spec 0 v).
  - rewrite Z.mod_small by lia. destruct (Z.ltb_spec v (2 ^ 511)); lia.
  - assert (v = 0)%Z as -> by lia. reflexivity.
Qed.

Lemma substring_beyond s n m : (String.length s <= n)%nat -> substring n m s = "".
Proof.
  revert n m. induction s as [|c s IH]; intros [|n] m Hn; simpl in *; try lia.
  - by destruct m.
  - by destruct m.
  - apply IH. lia.
Qed.

Lemma fixed_sign_head d t : (0 <= d < 10)%Z ->
  EthersV6.fixed_sign (String (digit_char d) t) = ("", String (digit_char d) t).
Proof. intros Hd. apply (digit_head d t Hd). Qed.

(** ethers' regular expression splits a decimal string into its integer
    digits and its decimals. *)
Lemma match_fixed_dec ip fp : ip <> [] -> is_digits ip -> is_digits fp ->
  EthersV6.match_fixed (dec_string ip fp) = Some ("", string_of_digits ip, string_of_digits fp).
Proof.
  intros Hne Hip Hfp. destruct ip as [|d ip]; [done|]. inversion Hip as [|? ? Hd _]; subst.
  unfold EthersV6.match_fixed, dec_string. cbn [string_of_digits]. rewrite append_String.
  rewrite (fixed_sign_head d _ Hd).
  change (String (digit_char d) (string_of_digits ip ++ ?t)) with (string_of_digits (d :: ip) ++ t).
  rewrite digits_span_digits by done.
  destruct fp as [|f fp]; cbn [EthersV6.digits_span]; rewrite string_app_nil_r.
  - rewrite substring_beyond by lia. reflexivity.
  - rewrite substring_app by (rewrite string_length_app; lia).
    cbv beta iota. by rewrite all_digits_digits.
Qed.

(** [parseEther] of a decimal string with at most 18 decimals: its exact
    value in wei, while it fits the signed 512-bit format. *)
Lemma parseEther_dec ip fp : ip <> [] -> is_digits ip -> is_digits fp -> (List.length fp <= 18)%nat ->
  (digits_value 10 (ip ++ fp) * 10 ^ (18 - Z.of_nat (List.length fp)) < 2 ^ 511)%Z ->
  parseEther (dec_string ip fp) =
  inr (digits_value 10 (ip ++ fp) * 10 ^ (18 - Z.of_nat (List.length fp)))%Z.
Proof.
  intros Hne Hip Hfp Hk Hb. cbn [parseEther ethers_units]. unfold EthersV6.parseUnits18.
  rewrite match_fixed_dec by done. cbv zeta. rewrite !string_of_digits_length.
  destruct (decide _) as [E|_]; [destruct ip; simpl in E; [done | lia]|].
  assert (Hw : str_or (string_of_digits ip) "0" = string_of_digits ip) by (by destruct ip).
  rewrite Hw, zeros_digits, <- string_of_digits_app.
  set (dec := (fp ++ repeat 0%Z (EthersV6.decimals - List.length fp))%list).
  assert (Hl : List.length dec = 18%nat)
    by (unfold dec, EthersV6.decimals; rewrite List.length_app, repeat_length; lia).
  rewrite string_of_digits_length, Hl, substring_beyond
    by (rewrite string_of_digits_length; unfold EthersV6.decimals; lia).
  simpl (negb (EthersV6.all_zeros "")). cbv beta iota.
  rewrite substring_long by (rewrite string_of_digits_length; unfold EthersV6.decimals; lia).
  rewrite <- string_of_digits_app, digits_prefix_digits by (apply Forall_app; split; [done|];
    apply Forall_app; split; [done|]; apply List.Forall_forall; intros x Hx; apply repeat_spec in Hx; lia).
  simpl (String.eqb "" "-"). cbv beta iota. f_equal.
  assert (Hv : digits_value 10 (ip ++ dec) = (digits_value 10 (ip ++ fp) * 10 ^ (18 - Z.of_nat (List.length fp)))%Z).
  { unfold dec. rewrite List.app_assoc, digits_value_app, digits_value_zeros, repeat_length.
    unfold EthersV6.decimals. rewrite Nat2Z.inj_sub by lia. lia. }
  rewrite Hv. apply checkValue512_small. split; [|done].
  apply Z.mul_nonneg_nonneg; [|apply Z.pow_nonneg; lia].
  apply digits_value_nonneg, Forall_app; split; done.
Qed.

(** An inequality of wei values as an inequality of the decimal
    fractions [n / 10 ^ k]. *)
Lemma wei_cross n1 k1 n2 k2 : (0 <= k1 <= 18)%Z -> (0 <= k2 <= 18)%Z ->
  (n1 * 10 ^ (18 - k1) <= n2 * 10 ^ (18 - k2))%Z -> (n1 * 10 ^ k2 <= n2 * 10 ^ k1)%Z.
Proof.
  intros H1 H2 Hle.
  assert (E1 : (10 ^ 18 = 10 ^ (18 - k1) * 10 ^ k1)%Z) by (rewrite <- Z.pow_add_r by lia; f_equal; lia).
  assert (E2 : (10 ^ 18 = 10 ^ (18 - k2) * 10 ^ k2)%Z) by (rewrite <- Z.pow_add_r by lia; f_equal; lia).
  assert (P : (0 < 10 ^ k1 * 10 ^ k2)%Z) by (apply Z.mul_pos_pos; apply Z.pow_pos_nonneg; lia).
  apply (Z.mul_le_mono_pos_r _ _ (10 ^ 18)); [reflexivity|].
  apply (Z.mul_le_mono_nonneg_r _ _ (10 ^ k1 * 10 ^ k2)) in Hle; [|lia].
  rewrite E1 at 1. rewrite E2. lia.
Qed.

(** The shape of an amount the pattern accepts, with [parseFloat] and
    [amount_wei] on it. *)
Lemma amount_view s : amount_pattern s = true ->
  exists n k, parseFloat s = round_rat false n (10 ^ k) /\
    amount_wei s = (n * 10 ^ (18 - k))%Z /\ (0 <= n)%Z /\ (0 <= k <= 18)%Z /\
    (amount_wei s < 2 ^ 511 -> parseEther s = inr (amount_wei s))%Z.
Proof.
  intros H. destruct (amount_pattern_shape s H) as (ip & fp & -> & Hne & Hip & Hfp & Hk).
  exists (digits_value 10 (ip ++ fp)), (Z.of_nat (List.length fp)).
  rewrite parseFloat_dec, amount_wei_dec by done. split_and!; [done | done | | lia | lia |].
  - apply digits_value_nonneg, Forall_app. by split.
  - intros Hb. by apply parseEther_dec.
Qed.

(** ** Theorems *)

(** The double of the largest amount below the form's minimum is below
    it. *)
Lemma below_min_amount : dlt (round_rat false (10 ^ 12 - 1) (10 ^ 18)) min_amount = true.
Proof. vm_compute. reflexivity. Qed.

(** C17. On every string the dialogs' amount pattern accepts,
    [ethers.parseEther] succeeds and gives the exact decimal value in
    wei (within the signed 512-bit range of ethers' format): the pattern
    of the forms refines the grammar of ethers' parser, so the service
    never throws on an amount a dialog lets through. *)
Theorem parseEther_amount s :
  amount_pattern s = true -> (amount_wei s < 2 ^ 511)%Z -> parseEther s = inr (amount_wei s).
Proof. intros H Hb. destruct (amount_view s H) as (n & k & _ & _ & _ & _ & He). by apply He. Qed.

(** C15. When the deposit dialog submits, it calls [depositToVault] on
    its vault with the typed amount, and that amount is at least the
    form's minimum 0.000001 ETH exactly, 10^12 wei: [Validators.min]
    compares rounded doubles, yet no amount of at most 18 decimals below
    the minimum rounds up to it.  In particular a deposit of 0 is never
    sent. *)
Theorem deposit_sends_at_least_min vault amount op :
  deposit vault amount = DialogCall op ->
  op = DepositToVault (v_address vault) amount /\ (10 ^ 12 <= amount_wei amount)%Z /\
  ((amount_wei amount < 2 ^ 511)%Z -> parseEther amount = inr (amount_wei amount)).
Proof.
  unfold deposit. destruct (depositForm_valid amount) eqn:Hv; [|done]. intros [= <-]. split; [done|].
  unfold depositForm_valid, Validators.required, Validators.min, Validators.pattern in Hv.
  destruct (Validators.isEmptyInputValue amount); [done|]. rewrite !orb_false_l in Hv.
  apply andb_prop in Hv as [Hmin Hpat]. apply andb_prop in Hmin as [_ Hmin].
  destruct (amount_view amount Hpat) as (n & k & Hf & Hw & Hn & Hk & He). split; [|done].
  rewrite Hw. destruct (Z.le_gt_cases (10 ^ 12) (n * 10 ^ (18 - k))) as [|Hlt]; [done|]. exfalso.
  assert (Hm : dgt (round_rat false n (10 ^ k)) (round_rat false (10 ^ 12 - 1) (10 ^ 18)) = false).
  { apply round_rat_mono; [lia | apply Z.pow_pos_nonneg; lia | reflexivity |].
    apply (wei_cross n k (10 ^ 12 - 1) 18); [lia | lia |]. rewrite Z.sub_diag, Z.pow_0_r. lia. }
  pose proof (dle_lt_trans _ _ _ (round_rat_number _ _ _) Hm below_min_amount) as Hx.
  cbv zeta in Hmin. rewrite Hf, round_rat_number, Hx in Hmin. discriminate Hmin.
Qed.

(** C16. The withdraw dialog never refuses an amount within the vault's
    balance: when the amount is at most the balance in wei, neither
    [Validators.max(parseFloat(maxAmount))] nor the explicit
    [parseFloat(amount) > parseFloat(maxAmount)] check rejects it
    (rounding to doubles is monotone). *)
Theorem withdraw_within_balance vault amount recipient :
  amount_pattern amount = true -> amount_pattern (v_balance vault) = true ->
  (amount_wei amount <= amount_wei (v_balance vault))%Z ->
  Validators.max (parseFloat (v_balance vault)) amount = true /\
  forall m, withdraw vault amount recipient <> DialogSnack m.
Proof.
  intros Ha Hb Hle.
  destruct (amount_view _ Ha) as (n1 & k1 & F1 & W1 & N1 & K1 & _).
  destruct (amount_view _ Hb) as (n2 & k2 & F2 & W2 & N2 & K2 & _).
  rewrite W1, W2 in Hle.
  assert (Hgt : dgt (parseFloat amount) (parseFloat (v_balance vault)) = false).
  { rewrite F1, F2. apply round_rat_mono; [lia | apply Z.pow_pos_nonneg; lia.. |].
    by apply wei_cross. }
  split.
  - unfold Validators.max. rewrite Hgt, andb_false_r. apply orb_true_r.
  - intros m. unfold withdraw. rewrite Hgt. by destruct (negb _).
Qed.

(** A vault holding [0.100000000000000001] ETH, as the detail page shows
    it ([formatEther] of its balance in wei). *)
Definition tight_vault : Vault :=
  mkVault "0x5FbDB2315678afecb367f032d93F642f64180aa3" "0xB0B"
    (formatEther 100000000000000001)
    (mkVaultMetadata "Trip" "Savings" "Travel" "ipfs://trip" "1.0" true)
    SingleOwner None None None None.

Definition tight_recipient : string := "0x1234567890abcdefABCDEF1234567890abcdef12".

(** ** Witnesses *)

Lemma parseEther_amount_witness :
  amount_pattern "1.5" = true /\ (amount_wei "1.5" < 2 ^ 511)%Z /\
  parseEther "1.5" = inr (amount_wei "1.5").
Proof.
  assert (H1 : amount_pattern "1.5" = true) by (vm_compute; reflexivity).
  assert (H2 : (amount_wei "1.5" < 2 ^ 511)%Z) by (vm_compute; reflexivity).
  split; [exact H1|]. split; [exact H2|]. exact (parseEther_amount "1.5" H1 H2).
Defined.

Lemma deposit_sends_at_least_min_witness :
  deposit tight_vault "0.000001" = DialogCall (DepositToVault (v_address tight_vault) "0.000001") /\
  DepositToVault (v_address tight_vault) "0.000001" = DepositToVault (v_address tight_vault) "0.000001" /\
  (10 ^ 12 <= amount_wei "0.000001")%Z.
Proof.
  assert (H : deposit tight_vault "0.000001" =
    DialogCall (DepositToVault (v_address tight_vault) "0.000001")) by (vm_compute; reflexivity).
  split; [exact H|].
  destruct (deposit_sends_at_least_min tight_vault "0.000001" _ H) as (E & B & _).
  split; [exact E | exact B].
Defined.

Lemma withdraw_within_balance_witness :
  amount_pattern "0.1" = true /\ amount_pattern (v_balance tight_vault) = true /\
  (amount_wei "0.1" <= amount_wei (v_balance tight_vault))%Z /\
  Validators.max (parseFloat (v_balance tight_vault)) "0.1" = true.
Proof.
  assert (H1 : amount_pattern "0.1" = true) by (vm_compute; reflexivity).
  assert (H2 : amount_pattern (v_balance tight_vault) = true) by (vm_compute; reflexivity).
  assert (H3 : (amount_wei "0.1" <= amount_wei (v_balance tight_vault))%Z)
    by (vm_compute; discriminate).
  split_and!; [exact H1 | exact H2 | exact H3 |].
  exact (proj1 (withdraw_within_balance tight_vault "0.1" tight_recipient H1 H2 H3)).
Defined.
