(* ===== verification/Session.v ===== *)
(** * The wallet session of [Web3Service]

    [src/src/app/services/web3.service.ts], the session part: the
    constructor (lines 53-59), [checkForSavedSession] (64-72),
    [silentlyReconnect] (77-93), [initializeWeb3WithAccount] (98-134), the
    three provider handlers registered by [setupGlobalEventListeners]
    (139-182), [initWeb3] (187-236), [connectWallet] (315-352),
    [disconnectWallet] (357-361), [resetState] (366-374) and the wallet
    modal (469-478).  Each is a program of [Async] over [State]; an
    [await] is a [Call], a call without [await] a [Spawn], a [try]/[catch]
    a [catch].

    [isConnected$.next(b)] notifies the subscribers of [isConnected$]
    synchronously.  The subscribers live in other components (the vault
    service reloads the vaults on [true]), so the session is written
    against an interface, the class [Observer]: a program run on each
    emission, which promises ([observers_frame]) to leave the session
    fields, the storage and the window alone and never to block its
    caller.  [App] instantiates it with the vault service's subscription.

    The abstract session of the spec (section 4.1) is [session]:
    [Disconnected] or [Connected n]; [session_of] reads it off the
    fields. *)

From S2P Require Import Prelude Js Models Provider Async State Gateway Observer.
From Stdlib Require Import ZArith String.
Local Open Scope string_scope.
Local Open Scope tims_scope.

(** [getItem(k)] used as a condition: [null] and [''] are falsy. *)
Definition item_truthy (o : option string) : bool :=
  match o with Some v => str_truthy v | None => false end.

Section Web3Session.
Context {cfg : NetworkConfig} {obs : Observer}.

Definition next_isConnected (b : bool) : M unit :=
  upd_w3 (set_isConnected b);; isConnected_observers b.

Definition resetState : M unit :=
  upd_w3 (set_account "");;
  next_isConnected false;;
  upd_w3 (set_signer None);;
  upd_w3 (set_provider false);;
  upd_w3 (set_vaultFactoryContract None);;
  upd_w3 (set_vaultContract None);;
  upd_w3 (set_isCorrectNetwork false).

Definition disconnectWallet : M unit :=
  resetState;;
  removeItem "walletAddress";;
  removeItem "networkId".

(** The network part shared by [initializeWeb3WithAccount] and
    [initWeb3]: read the chain id, publish it, its check and its name. *)
Definition readNetwork : M jsnum :=
  c <- await_network ;;
  let n := Number_of_bigint c in
  upd_w3 (set_networkId n);;
  upd_w3 (set_isCorrectNetwork (num_eqb n (JInt targetNetworkId)));;
  upd_w3 (set_networkName (getNetworkName n));;
  Ret n.

Definition initializeWeb3WithAccount (acct : string) : M unit :=
  catch
    (upd_w3 (set_provider true);;
     upd_w3 (set_account acct);;
     g <- await_signer ;;
     upd_w3 (set_signer (Some g));;
     n <- on_provider "getNetwork" readNetwork ;;
     (if num_eqb n (JInt targetNetworkId) then initContracts n else Ret tt);;
     next_isConnected true;;
     setItem "walletAddress" acct;;
     setItem "networkId" (num_to_string n))
    (fun _ => resetState).

Definition silentlyReconnect : M unit :=
  eth <- gets ethereum ;;
  if eth then
    catch
      (accounts <- await_accounts EthAccounts ;;
       match first_account accounts with
       | Some a => initializeWeb3WithAccount a
       | None => Ret tt
       end)
      (fun _ => Ret tt)
  else Ret tt.

Definition checkForSavedSession : M unit :=
  savedAccount <- getItem "walletAddress" ;;
  savedNetwork <- getItem "networkId" ;;
  if item_truthy savedAccount && item_truthy savedNetwork
  then spawn None silentlyReconnect
  else Ret tt.

Definition setupGlobalEventListeners : M unit :=
  eth <- gets ethereum ;;
  if eth then modify (with_listening true) else Ret tt.

(** [new Web3Service()]. *)
Definition Web3Service_new : M unit :=
  checkForSavedSession;;
  setupGlobalEventListeners.

(** The [accountsChanged] handler. *)
Definition onAccountsChanged (accounts : option (list string)) : M unit :=
  match first_account accounts with
  | Some a => upd_w3 (set_account a);; setItem "walletAddress" a
  | None => disconnectWallet
  end.

(** The [chainChanged] handler. *)
Definition onChainChanged (chainIdHex : option string) : M unit :=
  match chainIdHex with
  | None => Ret tt
  | Some hex =>
      let n := parseInt hex 16 in
      upd_w3 (set_networkId n);;
      let ok := num_eqb n (JInt targetNetworkId) in
      upd_w3 (set_isCorrectNetwork ok);;
      upd_w3 (set_networkName (getNetworkName n));;
      sg <- getSigner ;;
      (if ok && bool_decide (is_Some sg) then initContracts n
       else upd_w3 (set_vaultContract None));;
      setItem "networkId" (num_to_string n)
  end.

(** The [disconnect] handler. *)
Definition onDisconnect : M unit := disconnectWallet.

Definition handleEvent (ev : event) : M unit :=
  match ev with
  | AccountsChanged a => onAccountsChanged a
  | ChainChanged c => onChainChanged c
  | Disconnect => onDisconnect
  end.

Definition initWeb3 : M unit :=
  eth <- gets ethereum ;;
  if negb eth then
    Throw (Error "MetaMask no está instalado. Por favor instala MetaMask para usar esta aplicación.")
  else
    catch
      (upd_w3 (set_provider true);;
       accounts <- await_accounts EthRequestAccounts ;;
       match first_account accounts with
       | None => Throw (Error "No se pudo obtener acceso a las cuentas de MetaMask")
       | Some a =>
           upd_w3 (set_account a);;
           setItem "walletAddress" a;;
           g <- on_provider "getSigner" await_signer ;;
           upd_w3 (set_signer (Some g));;
           n <- on_provider "getNetwork" readNetwork ;;
           (if negb (num_eqb n (JInt targetNetworkId)) then switchToTargetNetwork else Ret tt);;
           current <- getNetworkId ;;
           initContracts current;;
           next_isConnected true;;
           setItem "networkId" (num_to_string n)
       end)
      (fun e => resetState;; Throw e).

Definition connectWallet : M unit :=
  upd_w3 (set_walletModalVisible false);;
  catch
    (p <- getProvider ;;
     if negb p then initWeb3 else
     eth <- gets ethereum ;;
     accounts <- (if eth then await_accounts EthRequestAccounts else Ret None) ;;
     match first_account accounts with
     | None => Ret tt
     | Some a =>
         upd_w3 (set_account a);;
         next_isConnected true;;
         setItem "walletAddress" a;;
         sg <- getSigner ;;
         match sg with
         | Some _ => Ret tt
         | None =>
             g <- on_provider "getSigner" await_signer ;;
             upd_w3 (set_signer (Some g));;
             n <- getNetworkId ;;
             (if negb (num_eqb n (JInt targetNetworkId)) then switchToTargetNetwork else Ret tt);;
             current <- getNetworkId ;;
             initContracts current
         end
     end)
    (fun e => upd_w3 (set_walletModalVisible true);; Throw e).

Definition openConnectWalletModal : M unit := upd_w3 (set_walletModalVisible true).
Definition closeConnectWalletModal : M unit := upd_w3 (set_walletModalVisible false).
End Web3Session.

(** ** The abstract session (spec section 4.1) *)

Inductive session : Type :=
  | Disconnected
  | Connected (n : jsnum).

Definition session_of (w : W3) : session :=
  if isConnected w then Connected (networkId w) else Disconnected.

(** ** Erasing the subscribers

    Each operation with any subscriber simulates the same operation with
    none ([psim], [Observer]): the theorems below are proved on the run
    without subscriber, which computes, and carried over by [erase]. *)

Section Erasure.
Context {cfg : NetworkConfig} {obs : Observer}.

Lemma psim_resetState : psim resetState (resetState (obs:=no_observers)).
Proof. unfold resetState, next_isConnected. psim_auto. Qed.
#[local] Hint Resolve psim_resetState : psim.

Lemma psim_disconnectWallet : psim disconnectWallet (disconnectWallet (obs:=no_observers)).
Proof. unfold disconnectWallet. psim_auto. Qed.
#[local] Hint Resolve psim_disconnectWallet : psim.

Lemma psim_readNetwork : psim readNetwork readNetwork.
Proof. unfold readNetwork. psim_auto. Qed.
#[local] Hint Resolve psim_readNetwork : psim.

Lemma psim_initializeWeb3WithAccount a :
  psim (initializeWeb3WithAccount a) (initializeWeb3WithAccount (obs:=no_observers) a).
Proof. unfold initializeWeb3WithAccount, next_isConnected. psim_auto. Qed.
#[local] Hint Resolve psim_initializeWeb3WithAccount : psim.

Lemma psim_silentlyReconnect : psim silentlyReconnect (silentlyReconnect (obs:=no_observers)).
Proof. unfold silentlyReconnect. psim_auto. Qed.
#[local] Hint Resolve psim_silentlyReconnect : psim.

Lemma psim_Web3Service_new : psim Web3Service_new (Web3Service_new (obs:=no_observers)).
Proof. unfold Web3Service_new, checkForSavedSession, setupGlobalEventListeners. psim_auto. Qed.

Lemma psim_handleEvent ev : psim (handleEvent ev) (handleEvent (obs:=no_observers) ev).
Proof.
  unfold handleEvent, onAccountsChanged, onChainChanged, onDisconnect. psim_auto.
Qed.

Lemma psim_initWeb3 : psim initWeb3 (initWeb3 (obs:=no_observers)).
Proof. unfold initWeb3, next_isConnected. psim_auto. Qed.
#[local] Hint Resolve psim_initWeb3 : psim.

Lemma psim_connectWallet : psim connectWallet (connectWallet (obs:=no_observers)).
Proof. unfold connectWallet, next_isConnected. psim_auto. Qed.
End Erasure.

(** Replace, in the goal, the run of [p1] by the run of [p2] given
    [E : psim p1 p2]; the status of the first is kept as [st], related to
    the second's by the hypothesis the goal now starts with. *)
Ltac erase E :=
  cbv zeta;
  lazymatch type of E with
  | psim ?p1 _ =>
    lazymatch goal with
    | |- context [exec ?rs p1 ?s ?pool] =>
      let HH := fresh "HH" in
      pose proof (psim_run _ _ rs s pool pool E) as HH; cbv zeta in HH;
      let Hst := fresh "Hst" in let Hc := fresh "Ec" in let Hr := fresh "Er" in
      let Hw := fresh "Ew" in let Hl := fresh "El" in let He := fresh "Ee" in
      let Hli := fresh "Eli" in
      destruct HH as (Hst & Hc & Hr & Hw & Hl & He & Hli);
      rewrite ?Hc, ?Hr, ?Hw, ?Hl, ?He, ?Hli; clear Hc Hr Hw Hl He Hli; revert Hst;
      generalize (run_status (exec rs p1 s pool)); intros ?st
    end
  end.


(** Close the goals a run leaves: projections, map lookups, equalities. *)
Ltac finish_run :=
  unfold session_of in *; simpl in *; repeat split; try done; simplify_map_eq; try done.

(** Close a goal left by [erase] and a run: the status of the run with
    subscribers is the one computed without. *)
Ltac finish_erased :=
  let Hst := fresh "Hst" in
  intros Hst;
  first [apply status_rel_returned in Hst | apply status_rel_raised in Hst | idtac];
  subst; finish_run.

(** The fields [resetState] clears. *)
Definition session_cleared (w : W3) : Prop :=
  isConnected w = false /\ account w = "" /\ signer w = None /\ provider w = false /\
  vaultFactoryContract w = None /\ vaultContract w = None /\ isCorrectNetwork w = false.

Section SessionProofs.
Context {cfg : NetworkConfig} {obs : Observer}.

(** What [resetState] leaves behind, from any state. *)
Lemma exec_resetState rs s pool :
  let r := exec rs resetState s pool in
  run_status r = Returned tt /\ run_calls r = [] /\ run_rest r = rs /\
  session_cleared (w3 (run_state r)) /\ ls (run_state r) = ls s /\
  ethereum (run_state r) = ethereum s /\ listening (run_state r) = listening s /\
  networkId (w3 (run_state r)) = networkId (w3 s) /\
  networkName (w3 (run_state r)) = networkName (w3 s) /\
  walletModalVisible (w3 (run_state r)) = walletModalVisible (w3 s).
Proof.
  erase psim_resetState. unfold resetState, next_isConnected.
  destruct rs; run_session; finish_erased.
Qed.

(** What [disconnectWallet] leaves behind, from any state. *)
Lemma exec_disconnectWallet rs s pool :
  exists s' pool',
    exec rs disconnectWallet s pool = mkRun s' pool' (Returned tt) rs [] /\
    session_cleared (w3 s') /\
    ls s' = delete "networkId" (delete "walletAddress" (ls s)) /\
    ethereum s' = ethereum s /\ listening s' = listening s /\
    networkId (w3 s') = networkId (w3 s) /\ networkName (w3 s') = networkName (w3 s).
Proof.
  unfold disconnectWallet. rewrite exec_bind.
  destruct (exec_resetState rs s pool) as (Hst & Hc & Hr & Hcl & Hl & He & Hli & Hn & Hnn & _).
  destruct (exec rs resetState s pool) as [s1 pool1 st rs1 tr]; simpl in *; subst.
  destruct rs; simpl; eexists _, _; (split; [reflexivity|]); simpl; by rewrite Hl.
Qed.

(** Both persisted keys are gone after [disconnectWallet]. *)
Lemma disconnectWallet_keys_removed (l : gmap string string) :
  delete "networkId" (delete "walletAddress" l) !! "walletAddress" = None /\
  delete "networkId" (delete "walletAddress" l) !! "networkId" = None.
Proof. split; [rewrite lookup_delete_ne by done|]; apply lookup_delete_eq. Qed.

(** C1. [disconnectWallet] always succeeds without calling the wallet,
    clears the session (not connected, no account, signer, provider or
    contract binding, not on the target network) and removes both
    persisted keys. *)
Theorem disconnectWallet_clears rs s pool :
  let r := exec rs disconnectWallet s pool in
  run_status r = Returned tt /\ run_calls r = [] /\
  session_cleared (w3 (run_state r)) /\
  ls (run_state r) !! "walletAddress" = None /\ ls (run_state r) !! "networkId" = None.
Proof.
  destruct (exec_disconnectWallet rs s pool) as (s' & pool' & -> & Hc & Hl & _).
  simpl. rewrite Hl. split_and!; try done; apply disconnectWallet_keys_removed.
Qed.

(** C21. [disconnectWallet] does not reset [networkId$] nor
    [networkName$]: after a disconnection the last network id is still
    published, although the spec says the network id is only valid
    while connected. *)
Theorem disconnectWallet_keeps_network rs s pool :
  let r := exec rs disconnectWallet s pool in
  isConnected (w3 (run_state r)) = false /\
  networkId (w3 (run_state r)) = networkId (w3 s) /\
  networkName (w3 (run_state r)) = networkName (w3 s).
Proof.
  destruct (exec_disconnectWallet rs s pool) as (s' & pool' & -> & Hc & _ & _ & _ & Hn & Hnn).
  simpl. split; [apply Hc | done].
Qed.

(** C2. An [accountsChanged] event whose payload is not a non-empty array
    disconnects: the session is cleared and both persisted keys are
    removed. *)
Theorem accountsChanged_empty_disconnects accounts rs s pool :
  first_account accounts = None ->
  let r := exec rs (onAccountsChanged accounts) s pool in
  run_status r = Returned tt /\ run_calls r = [] /\
  session_cleared (w3 (run_state r)) /\
  ls (run_state r) !! "walletAddress" = None /\ ls (run_state r) !! "networkId" = None.
Proof.
  intros Ha. unfold onAccountsChanged. rewrite Ha.
  destruct (exec_disconnectWallet rs s pool) as (s' & pool' & -> & Hc & Hl & _).
  simpl. rewrite Hl. split_and!; try done; apply disconnectWallet_keys_removed.
Qed.

(** A [catch] whose handler cannot throw does not throw. *)
Lemma exec_catch_total {A} rs (p : M A) h s pool :
  (forall e rs s pool, ~ is_Raised (run_status (exec rs (h e) s pool))) ->
  ~ is_Raised (run_status (exec rs (catch p h) s pool)).
Proof.
  intros Hh. rewrite exec_catch. destruct (exec rs p s pool) as [s1 pool1 [a|e|r k] rs1 tr1];
    simpl; try (by intros []).
  apply Hh.
Qed.

(** C4. [silentlyReconnect] never throws to its caller, whatever the
    wallet answers: every failure is swallowed. *)
Theorem silentlyReconnect_never_throws rs s pool :
  ~ is_Raised (run_status (exec rs silentlyReconnect s pool)).
Proof.
  unfold silentlyReconnect. rewrite exec_gets. destruct (ethereum s).
  - apply exec_catch_total. intros e rs' s' pool'. destruct rs'; simpl; by intros [].
  - rewrite exec_ret. by intros [].
Qed.

(** C3. Disconnecting and then attempting a silent reconnection while the
    wallet grants no account (an empty or malformed account list, or a
    rejection) leaves the session disconnected with no account. *)
Theorem disconnect_then_silentReconnect_no_access x rs s pool :
  match x with RAccounts a => first_account a = None | RError _ => True | _ => False end ->
  let r1 := exec rs disconnectWallet s pool in
  let r2 := exec (x :: rs) silentlyReconnect (run_state r1) (run_pool r1) in
  session_of (w3 (run_state r2)) = Disconnected /\ account (w3 (run_state r2)) = "".
Proof.
  intros Hx.
  destruct (exec_disconnectWallet rs s pool) as (s1 & pool1 & -> & Hc & _).
  destruct Hc as (Hcon & Hacc & _). cbn [run_state run_pool]. unfold silentlyReconnect, session_of.
  rewrite exec_gets. destruct (ethereum s1); [|rewrite exec_ret; simpl; by rewrite Hcon, Hacc].
  destruct x as [a| | | | | | | | | |e]; try done; simpl.
  - rewrite Hx. destruct rs; simpl; by rewrite Hcon, Hacc.
  - destruct rs; simpl; by rewrite Hcon, Hacc.
Qed.

(** C5. A silent reconnection to a wallet that still authorises an
    account, on the target network, restores the session without any
    permission prompt: connected on the target network with that
    account, the configured factory bound to the returned signer, both
    keys persisted; the wallet sees [eth_accounts], [getSigner] and
    [getNetwork] only. *)
Theorem silentlyReconnect_restores a more g rs s pool addr :
  ethereum s = true -> resolveContracts (JInt targetNetworkId) = Some addr ->
  let r := exec (RAccounts (Some (a :: more)) :: RSigner g :: RNetwork targetNetworkId :: rs)
             silentlyReconnect s pool in
  run_status r = Returned tt /\ run_calls r = [EthAccounts; GetSigner; GetNetwork] /\
  session_of (w3 (run_state r)) = Connected (JInt targetNetworkId) /\
  account (w3 (run_state r)) = a /\
  vaultFactoryContract (w3 (run_state r)) = Some (mkContract addr VaultFactoryAbi g) /\
  ls (run_state r) !! "walletAddress" = Some a /\
  ls (run_state r) !! "networkId" = Some (num_to_string (JInt targetNetworkId)).
Proof.
  intros He Ha. erase psim_silentlyReconnect.
  unfold silentlyReconnect, initializeWeb3WithAccount, readNetwork,
    next_isConnected, initContracts, resolveContracts, Number_of_bigint in *.
  run_session_using ltac:(rewrite ?He, ?Ha, ?Z.eqb_refl). finish_erased.
Qed.

(** C6. [initWeb3] on a wallet already on the target network: the
    account is requested, the session is connected on the target network
    with the first account, the configured factory is bound to the
    signer and both keys are persisted. *)
Theorem initWeb3_connects_on_target a more g rs s pool addr :
  ethereum s = true -> resolveContracts (JInt targetNetworkId) = Some addr ->
  let r := exec (RAccounts (Some (a :: more)) :: RSigner g :: RNetwork targetNetworkId :: rs)
             initWeb3 s pool in
  run_status r = Returned tt /\ run_calls r = [EthRequestAccounts; GetSigner; GetNetwork] /\
  session_of (w3 (run_state r)) = Connected (JInt targetNetworkId) /\
  account (w3 (run_state r)) = a /\
  vaultFactoryContract (w3 (run_state r)) = Some (mkContract addr VaultFactoryAbi g) /\
  ls (run_state r) !! "walletAddress" = Some a /\
  ls (run_state r) !! "networkId" = Some (num_to_string (JInt targetNetworkId)).
Proof.
  intros He Ha. erase psim_initWeb3.
  unfold initWeb3, readNetwork, next_isConnected, initContracts,
    resolveContracts, Number_of_bigint in *.
  run_session_using ltac:(rewrite ?He, ?Ha, ?Z.eqb_refl). finish_erased.
Qed.

(** C18. [initWeb3] on a wallet on another configured network [n]: after
    the wallet accepts the switch to the target network, the contracts
    are still initialised for [n] ([networkId$] is read again, but no
    [chainChanged] event has updated it), so the factory of the network
    the wallet has just left is bound, the session is connected with
    [isCorrectNetwork] false, and [n] is persisted. *)
Theorem initWeb3_binds_left_network a more g n x rs s pool addr :
  ethereum s = true -> n <> targetNetworkId -> is_error x = false ->
  resolveContracts (JInt n) = Some addr ->
  let r := exec (RAccounts (Some (a :: more)) :: RSigner g :: RNetwork n :: x :: rs)
             initWeb3 s pool in
  run_status r = Returned tt /\
  run_calls r = [EthRequestAccounts; GetSigner; GetNetwork; WalletSwitchChain targetChainIdHex] /\
  session_of (w3 (run_state r)) = Connected (JInt n) /\
  isCorrectNetwork (w3 (run_state r)) = false /\
  vaultFactoryContract (w3 (run_state r)) = Some (mkContract addr VaultFactoryAbi g) /\
  ls (run_state r) !! "networkId" = Some (num_to_string (JInt n)).
Proof.
  intros He Hn Hx Ha. erase psim_initWeb3.
  unfold initWeb3, readNetwork, next_isConnected, initContracts,
    switchToTargetNetwork, resolveContracts, Number_of_bigint in *.
  assert (Hn' : (n =? targetNetworkId)%Z = false) by (apply Z.eqb_neq; done).
  destruct x; try done; run_session_using ltac:(rewrite ?He, ?Ha, ?Hn'); finish_erased.
Qed.

(** C19. Round trip through the [chainChanged] handler: when the wallet
    reports the target chain in the hexadecimal form the service itself
    sends to [wallet_switchEthereumChain], the handler reads back the
    target network id, marks the network correct, binds the configured
    factory (a signer being present) and persists the decimal id. *)
Theorem chainChanged_target_roundtrip rs s pool g addr :
  (0 <= targetNetworkId)%Z -> signer (w3 s) = Some g ->
  resolveContracts (JInt targetNetworkId) = Some addr ->
  let r := exec rs (onChainChanged (Some targetChainIdHex)) s pool in
  run_status r = Returned tt /\ run_calls r = [] /\
  networkId (w3 (run_state r)) = JInt targetNetworkId /\
  isCorrectNetwork (w3 (run_state r)) = true /\
  vaultFactoryContract (w3 (run_state r)) = Some (mkContract addr VaultFactoryAbi g) /\
  vaultContract (w3 (run_state r)) = Some (mkContract addr VaultFactoryAbi g) /\
  ls (run_state r) !! "networkId" = Some (num_to_string (JInt targetNetworkId)).
Proof.
  intros Hn Hg Ha. unfold onChainChanged, targetChainIdHex.
  assert (Hp : parseInt ("0x" ++ num_to_string_radix 16 (JInt targetNetworkId)) 16
               = JInt targetNetworkId) by (apply parseInt_hex_chainId; lia).
  rewrite Hp. unfold initContracts, resolveContracts in *.
  run_session_using ltac:(rewrite ?Hg, ?Ha, ?Z.eqb_refl). finish_run.
Qed.

(** C20. A [chainChanged] to any network other than the target clears
    [vaultContract$] but not the [vaultFactoryContract] field that the
    vault service uses: the binding to the target network's factory
    survives the switch, and the connection flag is untouched. *)
Theorem chainChanged_keeps_stale_factory hex rs s pool :
  num_eqb (parseInt hex 16) (JInt targetNetworkId) = false ->
  let r := exec rs (onChainChanged (Some hex)) s pool in
  run_status r = Returned tt /\ run_calls r = [] /\
  vaultFactoryContract (w3 (run_state r)) = vaultFactoryContract (w3 s) /\
  vaultContract (w3 (run_state r)) = None /\
  isCorrectNetwork (w3 (run_state r)) = false /\
  isConnected (w3 (run_state r)) = isConnected (w3 s).
Proof.
  intros Hne. unfold onChainChanged. run_session_using ltac:(rewrite ?Hne). finish_run.
Qed.

(** C22. Whenever [connectWallet] throws, it has made the wallet modal
    visible again before rethrowing (the error reaches the caller and
    the user can retry). *)
Theorem connectWallet_error_shows_modal rs s pool e :
  run_status (exec rs connectWallet s pool) = Raised e ->
  walletModalVisible (w3 (run_state (exec rs connectWallet s pool))) = true.
Proof.
  unfold connectWallet, upd_w3. rewrite exec_modify, exec_catch.
  destruct (exec rs _ _ pool) as [s1 pool1 [a|e'|r k] rs1 tr1]; simpl; try done.
  destruct rs1; simpl; intros _; done.
Qed.

(** C23. Without an injected wallet, [connectWallet] on a fresh page
    fails with the "MetaMask no está instalado" error without calling
    anything, and leaves the session disconnected. *)
Theorem connectWallet_no_provider rs s pool :
  ethereum s = false -> provider (w3 s) = false -> isConnected (w3 s) = false ->
  let r := exec rs connectWallet s pool in
  run_status r =
    Raised (Error "MetaMask no está instalado. Por favor instala MetaMask para usar esta aplicación.") /\
  run_calls r = [] /\ session_of (w3 (run_state r)) = Disconnected.
Proof.
  intros He Hp Hc. erase psim_connectWallet. unfold connectWallet, initWeb3.
  run_session_using ltac:(rewrite ?Hp, ?He). finish_erased. by rewrite Hc.
Qed.
End SessionProofs.

(** ** Witnesses, with no subscriber and the repository's configuration *)

Section SessionWitnesses.
#[local] Existing Instance no_observers.

(** A page with a previous session: connected on Sepolia, keys stored. *)
Definition connected_page : Sys :=
  mkSys (mkW3 true (Some "0xA11CE") None true "0xA11CE" (JInt 11155111) None true
           "Sepolia Testnet" false)
        VS_init (<["networkId" := "11155111"]> (<["walletAddress" := "0xA11CE"]> ∅))
        true true 0.

Lemma accountsChanged_empty_disconnects_witness :
  first_account (Some []) = None /\
  session_cleared (w3 (run_state (exec [] (onAccountsChanged (Some [])) connected_page []))).
Proof.
  split; [reflexivity|].
  exact (proj1 (proj2 (proj2
    (accountsChanged_empty_disconnects (Some []) [] connected_page [] ltac:(reflexivity))))).
Defined.

Lemma disconnect_then_silentReconnect_no_access_witness :
  session_of (w3 (run_state (exec [RAccounts (Some [])] silentlyReconnect
    (run_state (exec [] disconnectWallet connected_page []))
    (run_pool (exec [] disconnectWallet connected_page []))))) = Disconnected.
Proof.
  exact (proj1 (disconnect_then_silentReconnect_no_access (RAccounts (Some [])) []
    connected_page [] ltac:(reflexivity))).
Defined.

Lemma silentlyReconnect_restores_witness :
  session_of (w3 (run_state (exec [RAccounts (Some ["0xB0B"]); RSigner "0xB0B"; RNetwork 11155111]
    silentlyReconnect (page_load true) []))) = Connected (JInt 11155111).
Proof.
  exact (proj1 (proj2 (proj2 (silentlyReconnect_restores "0xB0B" [] "0xB0B" [] (page_load true) []
    "0xf1Da8fA04bE703cC52bc8Ac269a439111FeaD838" ltac:(reflexivity) ltac:(reflexivity))))).
Defined.

Lemma initWeb3_connects_on_target_witness :
  session_of (w3 (run_state (exec [RAccounts (Some ["0xB0B"]); RSigner "0xB0B"; RNetwork 11155111]
    initWeb3 (page_load true) []))) = Connected (JInt 11155111).
Proof.
  exact (proj1 (proj2 (proj2 (initWeb3_connects_on_target "0xB0B" [] "0xB0B" [] (page_load true) []
    "0xf1Da8fA04bE703cC52bc8Ac269a439111FeaD838" ltac:(reflexivity) ltac:(reflexivity))))).
Defined.

Lemma initWeb3_binds_left_network_witness :
  vaultFactoryContract (w3 (run_state (exec
    [RAccounts (Some ["0xB0B"]); RSigner "0xB0B"; RNetwork 31337; RNull]
    initWeb3 (page_load true) []))) =
  Some (mkContract "0x5FbDB2315678afecb367f032d93F642f64180aa3" VaultFactoryAbi "0xB0B").
Proof.
  exact (proj1 (proj2 (proj2 (proj2 (proj2 (initWeb3_binds_left_network "0xB0B" [] "0xB0B" 31337
    RNull [] (page_load true) [] "0x5FbDB2315678afecb367f032d93F642f64180aa3"
    ltac:(reflexivity) ltac:(discriminate) ltac:(reflexivity) ltac:(reflexivity))))))).
Defined.

Lemma chainChanged_target_roundtrip_witness :
  networkId (w3 (run_state (exec [] (onChainChanged (Some targetChainIdHex)) connected_page [])))
    = JInt 11155111.
Proof.
  exact (proj1 (proj2 (proj2 (chainChanged_target_roundtrip [] connected_page [] "0xA11CE"
    "0xf1Da8fA04bE703cC52bc8Ac269a439111FeaD838" ltac:(apply Z.leb_le; reflexivity) ltac:(reflexivity)
    ltac:(reflexivity))))).
Defined.

(** A connected page whose factory binding is set. *)
Definition bound_page : Sys :=
  with_w3 (set_vaultFactoryContract (Some (mkContract "0xF" VaultFactoryAbi "0xA11CE"))
    (w3 connected_page)) connected_page.

Lemma chainChanged_keeps_stale_factory_witness :
  num_eqb (parseInt "0x1" 16) (JInt 11155111) = false /\
  vaultFactoryContract (w3 (run_state (exec [] (onChainChanged (Some "0x1")) bound_page [])))
    = Some (mkContract "0xF" VaultFactoryAbi "0xA11CE").
Proof.
  split; [reflexivity|].
  exact (proj1 (proj2 (proj2 (chainChanged_keeps_stale_factory (cfg:=tims_config) "0x1" [] bound_page []
    ltac:(reflexivity))))).
Defined.

Lemma connectWallet_error_shows_modal_witness :
  walletModalVisible (w3 (run_state (exec [] connectWallet (page_load false) []))) = true.
Proof.
  exact (connectWallet_error_shows_modal [] (page_load false) []
    (Error "MetaMask no está instalado. Por favor instala MetaMask para usar esta aplicación.")
    ltac:(reflexivity)).
Defined.

Lemma connectWallet_no_provider_witness :
  session_of (w3 (run_state (exec [] connectWallet (page_load false) []))) = Disconnected.
Proof.
  exact (proj2 (proj2 (connectWallet_no_provider [] (page_load false) []
    ltac:(reflexivity) ltac:(reflexivity) ltac:(reflexivity)))).
Defined.
End SessionWitnesses.
