(* ===== verification/App.v ===== *)
(** * The application: both services in the browser's event loop

    The two services wired together as the page runs them: the session of
    [Session] with the vault service's subscription ([VaultSvc.vault_observer])
    as the subscriber of [isConnected$], the repository's network table
    ([tims_config]) and ethers' unit conversions ([ethers_units]).

    A [world] is the state of the page and the pool of suspended tasks.
    The browser interleaves three kinds of steps ([step]):
    - a user action in a component starts its program ([action_prog]):
      [connectWallet], [disconnectWallet], the wallet modal, or a call of
      the vault service ([vault_op]);
    - the wallet provider emits an event, handled by the listeners
      [setupGlobalEventListeners] registered ([handleEvent]);
    - the answer to a pending request resumes the task waiting for it
      ([resume]).
    The page starts with the services' constructors ([boot]).

    Theorems: invariants of every reachable world, by induction on the
    steps, through the predicate [ok] (a program that keeps an invariant
    at each of its suspension points); and runs of the page, as concrete
    sequences of steps, showing what interleavings do. *)

From S2P Require Import Prelude Js Models Provider Ethers Async State Gateway Observer Invariant VaultSvc Session.
From Stdlib Require Import ZArith String.
Local Open Scope string_scope.
Local Open Scope tims_scope.

#[local] Existing Instance tims_config.
#[local] Existing Instance ethers_units.
#[local] Existing Instance vault_observer.

Record world : Type := mkWorld {
  page : Sys;
  tasks : list Task
}.

(** A user action in a component. *)
Inductive action : Type :=
  | ConnectWallet                 (* the connect buttons *)
  | DisconnectWallet              (* the disconnect button *)
  | OpenWalletModal
  | CloseWalletModal
  | VaultCall (op : vault_op).    (* a vault component's call, subscribed at once *)

Definition action_prog (a : action) : M unit :=
  match a with
  | ConnectWallet => connectWallet
  | DisconnectWallet => disconnectWallet
  | OpenWalletModal => openConnectWalletModal
  | CloseWalletModal => closeConnectWalletModal
  | VaultCall op => vault_op_prog op
  end.

(** Start a program as a new task: its synchronous prefix runs at once,
    the rest waits in the pool. *)
Definition start (p : M unit) (w : world) : world :=
  let '(s', pool', st) := advance p (page w) (tasks w) in
  mkWorld s' (park None st pool').

(** The answer [x] to the request of the [i]-th pending task resumes it
    in its slot. *)
Definition resume (i : nat) (x : resp) (w : world) : option world :=
  match tasks w !! i with
  | Some (sl, Call r k) =>
      let '(s', pool', st) := advance (k x) (page w) (delete i (tasks w)) in
      Some (mkWorld s' (park sl st pool'))
  | _ => None
  end.

Inductive step : world -> world -> Prop :=
  | step_user a w : step w (start (action_prog a) w)
  | step_event ev w : listening (page w) = true -> step w (start (handleEvent ev) w)
  | step_answer i x w w' : resume i x w = Some w' -> step w w'.

(** The page loads: [Web3Service]'s constructor, then [VaultService]'s,
    whose subscription receives the current value of [isConnected$]. *)
Definition boot (eth : bool) : world :=
  let w := start Web3Service_new (mkWorld (page_load eth) []) in
  start (vaultService_subscription (isConnected (w3 (page w)))) w.

Inductive reachable : world -> Prop :=
  | reachable_boot eth : reachable (boot eth)
  | reachable_step w w' : reachable w -> step w w' -> reachable w'.

(** ** Invariants of every reachable world *)

Section Reachable.
Context (I : Sys -> Prop).

Definition world_ok (w : world) : Prop := I (page w) /\ pool_ok I (tasks w).

Lemma start_ok p w : ok_inv I p -> world_ok w -> world_ok (start p w).
Proof.
  intros Hp [Hs Hpool]. unfold start.
  pose proof (advance_ok I p (page w) (tasks w) (Hp _ Hs) Hpool) as Hadv.
  destruct (advance p (page w) (tasks w)) as [[s' pool'] st].
  destruct Hadv as (? & ? & ?). split; [done|]. by apply pool_ok_park.
Qed.

Lemma resume_ok i x w w' : world_ok w -> resume i x w = Some w' -> world_ok w'.
Proof.
  intros [Hs Hpool] Hr. unfold resume in Hr.
  destruct (tasks w !! i) as [[sl [| | | |r k|]]|] eqn:Ei; try done.
  assert (Hk : forall x s, I s -> ok I (k x) s).
  { intros y s Hy. unfold pool_ok in Hpool. rewrite Forall_forall in Hpool.
    by apply (Hpool _ (list_elem_of_lookup_2 _ _ _ Ei) _ Hs). }
  assert (Hdel : pool_ok I (delete i (tasks w))) by by apply Forall_delete.
  pose proof (advance_ok I (k x) (page w) _ (Hk x _ Hs) Hdel) as Hadv.
  destruct (advance (k x) (page w) _) as [[s' pool'] st].
  destruct Hadv as (? & ? & ?). injection Hr as <-. split; [done|]. by apply pool_ok_park.
Qed.

(** An invariant that the page load establishes and every program keeps
    holds in every reachable world. *)
Lemma reachable_ok :
  (forall eth, world_ok (boot eth)) ->
  (forall a, ok_inv I (action_prog a)) -> (forall ev, ok_inv I (handleEvent ev)) ->
  forall w, reachable w -> world_ok w.
Proof.
  intros Hboot Ha Hev w Hw. induction Hw as [eth|w w' _ IH Hstep]; [done|].
  destruct Hstep as [a w|ev w _|i x w w' Hr].
  - by apply start_ok.
  - by apply start_ok.
  - by eapply resume_ok.
Qed.
End Reachable.

(** The subscriber of [isConnected$] keeps every invariant of the session. *)
Lemma ok_observers I b : sess_inv I -> ok_inv I (isConnected_observers b).
Proof. intros HI. by apply ok_vaultService_subscription. Qed.

#[local] Hint Resolve ok_observers : ok.

(** Invariants of the session's fields alone. *)
Lemma w3_inv_sess (P : W3 -> Prop) : sess_inv (fun s => P (w3 s)).
Proof. intros s1 s2 Hs. by rewrite (sess_eq_w3 _ _ Hs). Qed.

Lemma ok_upd_w3_inv (P : W3 -> Prop) f :
  (forall w, P w -> P (f w)) -> ok_inv (fun s => P (w3 s)) (upd_w3 f).
Proof. intros Hf. apply ok_inv_modify. intros s Hs. by apply Hf. Qed.

(** ** [isCorrectNetwork$] is sound *)

(** Whenever [isCorrectNetwork$] is true, [networkId$] is the target
    network (between segments). *)
Definition net_ok (w : W3) : Prop :=
  isCorrectNetwork w = true -> networkId w = JInt targetNetworkId.

Definition net_sound (s : Sys) : Prop := net_ok (w3 s).

#[local] Arguments num_eqb : simpl never.

Lemma net_sound_sess : sess_inv net_sound.
Proof. apply w3_inv_sess. Qed.

(** The setters other than [networkId] and [isCorrectNetwork := true]
    keep it. *)
Ltac net_setter :=
  apply (ok_upd_w3_inv net_ok); intros ?w ?Hw; unfold net_ok in *; simpl in *;
  first [exact Hw | discriminate].

#[local] Hint Extern 2 (ok_inv net_sound (upd_w3 _)) => net_setter : ok.
#[local] Hint Extern 3 (ok_inv net_sound (modify _)) =>
  apply ok_inv_modify; intros ?s ?Hs; exact Hs : ok.
#[local] Hint Resolve net_sound_sess ok_vaultService_subscription ok_vault_op : ok.
#[local] Hint Unfold setItem removeItem : ok.

Lemma net_readNetwork : ok_inv net_sound readNetwork.
Proof.
  intros s Hs. unfold readNetwork, await_network, await. simpl.
  split; [done|]. intros x s' Hs'. destruct x; simpl; try done.
  unfold net_sound, net_ok. simpl. apply num_eqb_true.
Qed.

Lemma net_onChainChanged c : ok_inv net_sound (onChainChanged c).
Proof.
  intros s Hs. destruct c as [hex|]; [|done]. unfold onChainChanged, initContracts. simpl.
  repeat (first [progress simpl | case_match]); try done;
    unfold net_sound, net_ok; simpl; apply num_eqb_true.
Qed.

#[local] Hint Resolve net_readNetwork net_onChainChanged : ok.
#[local] Hint Unfold next_isConnected resetState disconnectWallet initContracts
  switchToTargetNetwork openConnectWalletModal closeConnectWalletModal onAccountsChanged
  onDisconnect checkForSavedSession setupGlobalEventListeners silentlyReconnect
  initializeWeb3WithAccount : ok.

Lemma net_action a : ok_inv net_sound (action_prog a).
Proof. destruct a; cbv beta iota delta [action_prog]; unfold connectWallet, initWeb3; ok_auto. Qed.

Lemma net_handleEvent ev : ok_inv net_sound (handleEvent ev).
Proof. destruct ev; cbv beta iota delta [handleEvent]; ok_auto. Qed.

Lemma net_boot eth : world_ok net_sound (boot eth).
Proof.
  unfold boot. apply start_ok; [eauto with ok|]. apply start_ok.
  - unfold Web3Service_new. ok_auto.
  - split; [by unfold net_sound, net_ok|]. constructor.
Qed.

(** C7. In every world the page can reach, [isCorrectNetwork$] true
    implies that [networkId$] is the target network: every code path that
    raises the flag, or changes the network id, publishes the comparison
    of the id it has just published. *)
Theorem reachable_net_sound w :
  reachable w -> isCorrectNetwork (w3 (page w)) = true ->
  networkId (w3 (page w)) = JInt targetNetworkId.
Proof.
  intros Hw. apply (reachable_ok net_sound net_boot net_action net_handleEvent w Hw).
Qed.

(** ** Contract bindings are configured factories *)

(** A factory of the configuration: the factory ABI at the address
    [contractConfig] gives some network. *)
Definition configured (c : contract) : Prop :=
  c_abi c = VaultFactoryAbi /\ exists n, contractConfig !! n = Some (c_target c).

(** Both bindings are configured factories, and [vaultContract$] is
    empty or the factory field itself. *)
Definition bind_ok (w : W3) : Prop :=
  (forall c, vaultFactoryContract w = Some c -> configured c) /\
  (forall c, vaultContract w = Some c -> vaultFactoryContract w = Some c).

Definition bind_sound (s : Sys) : Prop := bind_ok (w3 s).

Lemma bind_sound_sess : sess_inv bind_sound.
Proof. apply w3_inv_sess. Qed.

(** The state after a whole synchronous run of binding updates. *)
Ltac bind_close :=
  unfold bind_sound, bind_ok in *; simpl in *;
  split; intros ?c ?Hc; simplify_eq; first [done | split; [done | eexists; simpl; eassumption]].

(** The setters other than the two bindings keep it; so does clearing
    [vaultContract$]. *)
Ltac bind_setter :=
  apply (ok_upd_w3_inv bind_ok); intros ?w [?Hf ?Hc]; split; simpl in *;
  first [exact Hf | exact Hc | intros ??; discriminate].

#[local] Hint Extern 2 (ok_inv bind_sound (upd_w3 _)) => bind_setter : ok.
#[local] Hint Extern 1 (ok_inv bind_sound (bind (upd_w3 (set_vaultFactoryContract _)) _)) =>
  intros ?s ?Hs; simpl; bind_close : ok.
#[local] Hint Extern 3 (ok_inv bind_sound (modify _)) =>
  apply ok_inv_modify; intros ?s ?Hs; exact Hs : ok.
#[local] Hint Resolve bind_sound_sess : ok.

(** [resetState] clears the factory and then [vaultContract$], without
    suspending in between. *)
Lemma bind_resetState : ok_inv bind_sound resetState.
Proof.
  intros s Hs. unfold resetState, next_isConnected. simpl.
  split; [exact Hs | intros s' Hs'; bind_close].
Qed.

#[local] Hint Resolve bind_resetState : ok.

Lemma bind_readNetwork : ok_inv bind_sound readNetwork.
Proof. unfold readNetwork. ok_auto. Qed.

#[local] Hint Resolve bind_readNetwork : ok.

Lemma bind_action a : ok_inv bind_sound (action_prog a).
Proof. destruct a; cbv beta iota delta [action_prog]; unfold connectWallet, initWeb3; ok_auto. Qed.

Lemma bind_handleEvent ev : ok_inv bind_sound (handleEvent ev).
Proof. destruct ev; cbv beta iota delta [handleEvent]; unfold onChainChanged; ok_auto. Qed.

Lemma bind_boot eth : world_ok bind_sound (boot eth).
Proof.
  unfold boot. apply start_ok; [eauto with ok|]. apply start_ok.
  - unfold Web3Service_new. ok_auto.
  - split; [|constructor]. unfold bind_sound, bind_ok. simpl. split; by intros.
Qed.

(** C8. In every world the page can reach, the factory the vault service
    uses and [vaultContract$] are factories at an address of the network
    configuration, and [vaultContract$], when set, is the factory field
    itself: no code path binds an unconfigured address or lets the two
    bindings hold different contracts between segments. *)
Theorem reachable_bindings_configured w c :
  reachable w -> vaultContract (w3 (page w)) = Some c ->
  vaultFactoryContract (w3 (page w)) = Some c /\ configured c.
Proof.
  intros Hw Hc.
  destruct (reachable_ok bind_sound bind_boot bind_action bind_handleEvent w Hw) as [[Hf Hv] _].
  split; [by apply Hv|]. by apply Hf, Hv.
Qed.

(** ** Runs of the page *)

(** Answer the first pending task with each answer in turn. *)
Fixpoint feed (xs : list resp) (w : world) : option world :=
  match xs with
  | [] => Some w
  | x :: xs' => match resume 0 x w with Some w' => feed xs' w' | None => None end
  end.

Lemma reachable_feed xs w w' : reachable w -> feed xs w = Some w' -> reachable w'.
Proof.
  revert w. induction xs as [|x xs IH]; intros w Hw Hf; simpl in Hf; [by simplify_eq|].
  destruct (resume 0 x w) as [w1|] eqn:E; [|done].
  apply (IH w1); [|done]. econstructor; [done|]. by eapply step_answer.
Qed.

(** [feed] succeeds, decided without normalising the tasks it leaves. *)
Definition feeds (xs : list resp) (w : world) : bool :=
  match feed xs w with Some _ => true | None => false end.

Lemma reachable_feeds xs w :
  reachable w -> feeds xs w = true -> reachable (default w (feed xs w)).
Proof.
  unfold feeds. intros Hw Hf. destruct (feed xs w) as [w'|] eqn:E; [|done].
  by eapply reachable_feed.
Qed.

Lemma reachable_user a w : reachable w -> reachable (start (action_prog a) w).
Proof. intros Hw. econstructor; [done|]. apply step_user. Qed.

Lemma reachable_event ev w :
  reachable w -> listening (page w) = true -> reachable (start (handleEvent ev) w).
Proof. intros Hw Hl. econstructor; [done|]. by apply step_event. Qed.

(** A page with a wallet connects on Sepolia: the user's first account,
    its signer, the Sepolia chain id. *)
Definition connect_answers : list resp :=
  [RAccounts (Some ["0xB0B"]); RSigner "0xB0B"; RNetwork 11155111].

Definition connected_world : world :=
  let w := start (action_prog ConnectWallet) (boot true) in default w (feed connect_answers w).

Lemma connected_world_reachable : reachable connected_world.
Proof.
  apply reachable_feeds; [apply reachable_user, reachable_boot | vm_compute; reflexivity].
Qed.

Lemma reachable_net_sound_witness :
  reachable connected_world /\ isCorrectNetwork (w3 (page connected_world)) = true /\
  networkId (w3 (page connected_world)) = JInt targetNetworkId.
Proof.
  split; [apply connected_world_reachable|]. split; [vm_compute; reflexivity|].
  apply reachable_net_sound; [apply connected_world_reachable | vm_compute; reflexivity].
Defined.

Lemma reachable_bindings_configured_witness :
  reachable connected_world /\
  vaultContract (w3 (page connected_world)) =
    Some (mkContract "0xf1Da8fA04bE703cC52bc8Ac269a439111FeaD838" VaultFactoryAbi "0xB0B") /\
  vaultFactoryContract (w3 (page connected_world)) =
    Some (mkContract "0xf1Da8fA04bE703cC52bc8Ac269a439111FeaD838" VaultFactoryAbi "0xB0B") /\
  configured (mkContract "0xf1Da8fA04bE703cC52bc8Ac269a439111FeaD838" VaultFactoryAbi "0xB0B").
Proof.
  assert (Hc : vaultContract (w3 (page connected_world)) =
    Some (mkContract "0xf1Da8fA04bE703cC52bc8Ac269a439111FeaD838" VaultFactoryAbi "0xB0B"))
    by (vm_compute; reflexivity).
  split; [apply connected_world_reachable|]. split; [exact Hc|].
  apply reachable_bindings_configured; [apply connected_world_reachable | exact Hc].
Defined.

(** ** What interleavings do *)

(** C14. An [accountsChanged] event naming an account [a] publishes and
    persists [a] and changes nothing else: the signer and both contract
    bindings stay those of the previous account, the vault service keeps
    publishing the previous account's vaults and no reload starts. *)
Theorem accountsChanged_keeps_signer w a rest :
  start (handleEvent (AccountsChanged (Some (a :: rest)))) w =
  mkWorld (with_ls (<["walletAddress" := a]> (ls (page w)))
             (with_w3 (set_account a (w3 (page w))) (page w)))
          (tasks w).
Proof. reflexivity. Qed.



(** The steps the page takes without the user: provider events and
    answers. *)
Inductive env_step : world -> world -> Prop :=
  | env_event ev w : listening (page w) = true -> env_step w (start (handleEvent ev) w)
  | env_answer i x w w' : resume i x w = Some w' -> env_step w w'.

Lemma env_step_ok I w w' :
  (forall ev, ok_inv I (handleEvent ev)) -> world_ok I w -> env_step w w' -> world_ok I w'.
Proof.
  intros Hev Hw Hs. destruct Hs as [ev v _|i x v v' Hr]; [by apply start_ok | by apply (resume_ok I i x v v')].
Qed.

Lemma env_steps_ok I w w' :
  (forall ev, ok_inv I (handleEvent ev)) -> world_ok I w -> rtc env_step w w' -> world_ok I w'.
Proof. intros Hev Hw Hs. induction Hs; eauto using env_step_ok. Qed.

(** Disconnected with the spinner on. *)
Definition stuck (s : Sys) : Prop := loading (vs s) = true /\ isConnected (w3 s) = false.

Ltac stuck_setter := apply ok_inv_modify; intros ?s [?Hl ?Hc]; split; simpl; done.

#[local] Hint Extern 2 (ok_inv stuck (upd_w3 _)) => stuck_setter : ok.
#[local] Hint Extern 2 (ok_inv stuck (modify _)) => stuck_setter : ok.
#[local] Hint Extern 2 (ok_inv stuck (isConnected_observers false)) =>
  cbv [isConnected_observers vault_observer vaultService_subscription]; ok_auto : ok.

Lemma stuck_handleEvent ev : ok_inv stuck (handleEvent ev).
Proof. destruct ev; cbv beta iota delta [handleEvent]; unfold onChainChanged; ok_auto. Qed.

(** The user disconnects while the owned vaults of [connected_world] are
    loading. *)
Definition stuck_world : world := start (action_prog DisconnectWallet) connected_world.

(** C13. A disconnection while the subscription's [loadUserVaults] waits
    for the chain cancels it ([switchMap]) between its [setLoading(true)]
    and its [setLoading(false)]: the page is disconnected with no pending
    task and [loading$] true, and it stays true whatever the provider
    emits or answers; only a new user action can turn it off.  (On a
    route showing [VaultListComponent], whose own subscriber is not
    modelled, that component would start no load either: it loads only
    on [true].) *)
Theorem disconnect_leaves_loading w :
  rtc env_step stuck_world w ->
  loading (vs (page w)) = true /\ isConnected (w3 (page w)) = false.
Proof.
  intros Hs. apply (env_steps_ok stuck stuck_world w stuck_handleEvent); [|done].
  split; [vm_compute; split; reflexivity | vm_compute; constructor].
Qed.

Lemma stuck_world_reachable : reachable stuck_world.
Proof. apply reachable_user, connected_world_reachable. Qed.

(** The wallet then switches to mainnet. *)
Lemma disconnect_leaves_loading_witness :
  let w := start (handleEvent (ChainChanged (Some "0x1"))) stuck_world in
  rtc env_step stuck_world w /\ loading (vs (page w)) = true /\ isConnected (w3 (page w)) = false.
Proof.
  intros w. assert (Hs : rtc env_step stuck_world w).
  { apply rtc_once. apply env_event. vm_compute. reflexivity. }
  split; [exact Hs | apply disconnect_leaves_loading, Hs].
Defined.

